(** * BAGS69 presale launchpad: ledger store, fee allocation, lifecycle
      routes and launch orchestrator

    A shallow embedding of [lib/constants.ts], [lib/presale-db.ts],
    [lib/launch-presale.ts] and the API routes: create, list and finalize,
    stats, detail, join, refund and launch.

    JavaScript [number]s that carry SOL amounts and basis points are kept
    behind the interface [Number].  Two instances are given:
    - [Binary64.float_Number]: IEEE 754 binary64 with round-to-nearest-even,
      which is what the program computes with;
    - [Exact.Qc_Number]: exact rationals, the arithmetic in which the
      specification reasons.
    Counters ([participant_count], [target_participants], list lengths) are
    integers far below 2^53 and are modelled by [Z] and [nat]; timestamps are
    milliseconds since the epoch in [Z]. *)

From Stdlib Require Import ZArith List Bool Ascii String DecimalString Lia.
From Stdlib Require Import QArith Qcanon Qround Lqa.
From Stdlib Require Import Floats Uint63.
From Stdlib Require Decimal DecimalFacts DecimalPos.
Import ListNotations.

Local Open Scope string_scope.
Local Open Scope list_scope.
Local Open Scope Z_scope.

(* ================================================================== *)
(** ** JavaScript numbers *)

Class Number (num : Type) : Type := {
  of_int : Z -> num;            (* an integer literal *)
  add : num -> num -> num;      (* a + b *)
  sub : num -> num -> num;      (* a - b *)
  mul : num -> num -> num;      (* a * b *)
  div : num -> num -> num;      (* a / b *)
  floor : num -> num;           (* Math.floor(a) *)
  abs : num -> num;             (* Math.abs(a) *)
  ltb : num -> num -> bool;     (* a < b *)
  leb : num -> num -> bool;     (* a <= b *)
  eqb : num -> num -> bool;     (* a === b *)
  truthy : num -> bool;         (* ToBoolean(a), as in [a || 0] *)
}.

(** A decimal literal such as [0.045], written [decimal 45 1000]: the
    correctly rounded quotient of two exactly representable integers is the
    nearest binary64 value to the decimal, which is what the literal denotes. *)
Definition decimal {num} `{Number num} (m d : Z) : num :=
  div (of_int m) (of_int d).

(** [a > b] and [a >= b] are [b < a] and [b <= a]; [a !== b] negates [===]. *)
Definition gtb {num} `{Number num} (a b : num) : bool := ltb b a.
Definition geb {num} `{Number num} (a b : num) : bool := leb b a.
Definition neqb {num} `{Number num} (a b : num) : bool := negb (eqb a b).

(** [arr.reduce((s, x) => s + x, 0)]. *)
Definition sum {num} `{Number num} (l : list num) : num :=
  fold_left add l (of_int 0).

Module Binary64.

Definition float_of_Z (z : Z) : float :=
  match z with
  | Z0 => PrimFloat.zero
  | Zpos _ => PrimFloat.of_uint63 (Uint63.of_Z z)
  | Zneg p => PrimFloat.opp (PrimFloat.of_uint63 (Uint63.of_Z (Zpos p)))
  end.

(** [Math.floor]: NaN, the infinities and the zeros are returned as they
    are, and so is any value whose exponent is non-negative (an integer
    already); otherwise the mantissa is shifted right, rounding towards
    minus infinity, and the integer obtained is below 2^53. *)
Definition float_floor (x : float) : float :=
  match Prim2SF x with
  | S754_finite s m e =>
      if (0 <=? e)%Z then x
      else float_of_Z (Z.shiftr (if s then Zneg m else Zpos m) (- e))
  | _ => x
  end.

Definition float_truthy (x : float) : bool :=
  negb (PrimFloat.is_zero x || PrimFloat.is_nan x).

#[global] Instance float_Number : Number float := {|
  of_int := float_of_Z;
  add := PrimFloat.add;
  sub := PrimFloat.sub;
  mul := PrimFloat.mul;
  div := PrimFloat.div;
  floor := float_floor;
  abs := PrimFloat.abs;
  ltb := PrimFloat.ltb;
  leb := PrimFloat.leb;
  eqb := PrimFloat.eqb;
  truthy := float_truthy;
|}.

End Binary64.

Module Exact.

(** Exact rationals.  Division by zero yields 0 here where binary64 yields
    an infinity or NaN; every statement below that divides does so by a
    non-zero total. *)
Definition Qc_floor (x : Qc) : Qc := Q2Qc (inject_Z (Qfloor x)).
Definition Qc_leb (x y : Qc) : bool := Qle_bool x y.
Definition Qc_abs (x : Qc) : Qc := if Qle_bool 0 x then x else Qcopp x.
Definition Qc_ltb (x y : Qc) : bool := negb (Qle_bool y x).
Definition Qc_eqb (x y : Qc) : bool := Qeq_bool x y.

#[global] Instance Qc_Number : Number Qc := {|
  of_int := fun z => Q2Qc (inject_Z z);
  add := Qcplus;
  sub := Qcminus;
  mul := Qcmult;
  div := Qcdiv;
  floor := Qc_floor;
  abs := Qc_abs;
  ltb := Qc_ltb;
  leb := Qc_leb;
  eqb := Qc_eqb;
  truthy := fun x => negb (Qc_eqb x (Q2Qc 0));
|}.

End Exact.

(* ================================================================== *)
(** ** lib/constants.ts *)

Module Constants.

Module PRESALE_CONFIG.
Definition MIN_PARTICIPANTS : Z := 1.
Definition MAX_PARTICIPANTS : Z := 68.
Definition MAX_WALLETS : Z := 69.
Definition CREATOR_ALLOCATION_BPS : Z := 500.
Definition PARTICIPANT_ALLOCATION_BPS : Z := 9500.
Definition WITHDRAWAL_TAX_BPS : Z := 500.
Definition DURATION_OPTIONS : list Z := [10; 20; 30].
Definition DEFAULT_PARTICIPANTS : Z := 68.
Definition LAUNCH_FEE_SOL {num} `{Number num} : num := decimal 45 1000.
Definition DEFAULT_MIN_SOL {num} `{Number num} : num := decimal 1 100.
Definition DEFAULT_MAX_SOL {num} `{Number num} : num := decimal 1 10.
End PRESALE_CONFIG.

Definition LAMPORTS_PER_SOL : Z := 1000000000.

Definition isValidDuration (minutes : Z) : bool :=
  existsb (Z.eqb minutes) PRESALE_CONFIG.DURATION_OPTIONS.

Section WithNumber.
Context {num : Type} `{Number num}.

Record WithdrawalTax : Type := {
  taxAmount : num;
  returnAmount : num;
}.

Definition calculateWithdrawalTax (amountSol : num) : WithdrawalTax :=
  let taxAmount :=
    mul amountSol
        (div (of_int PRESALE_CONFIG.WITHDRAWAL_TAX_BPS) (of_int 10000)) in
  let returnAmount := sub amountSol taxAmount in
  {| taxAmount := taxAmount; returnAmount := returnAmount |}.

Definition calculateParticipantShare
    (contributionSol totalPoolSol : num) : num :=
  if leb totalPoolSol (of_int 0) then of_int 0
  else
    let weight := div contributionSol totalPoolSol in
    floor (mul weight (of_int PRESALE_CONFIG.PARTICIPANT_ALLOCATION_BPS)).

End WithNumber.

Arguments WithdrawalTax num : clear implicits.

End Constants.

(* ================================================================== *)
(** ** Helpers shared by the store and the routes *)

(** [arr.find(f)] followed by an in-place mutation [g] of the object found:
    the first element satisfying [f] is replaced, the array keeps its order. *)
Fixpoint update_first {A : Type} (f : A -> bool) (g : A -> A) (l : list A)
  : list A :=
  match l with
  | [] => []
  | x :: r => if f x then g x :: r else x :: update_first f g r
  end.

(** [x || d] on an optional integer: [undefined] and [0] are falsy. *)
Definition or_default (x : option Z) (d : Z) : Z :=
  match x with
  | Some v => if v =? 0 then d else v
  | None => d
  end.

Definition string_of_Z (z : Z) : string :=
  DecimalString.NilZero.string_of_int (Z.to_int z).

Fixpoint repeat_string (c : string) (n : nat) : string :=
  match n with
  | O => ""
  | S k => String.append c (repeat_string c k)
  end.

(** [s.padStart(n, '0')]. *)
Definition padStart0 (n : nat) (s : string) : string :=
  String.append (repeat_string "0" (n - String.length s)%nat) s.

(* ================================================================== *)
(** ** lib/presale-db.ts *)

Module PresaleDb.

Inductive PresaleStatus : Type := active | launched | failed | refunding.

Definition status_eqb (a b : PresaleStatus) : bool :=
  match a, b with
  | active, active | launched, launched
  | failed, failed | refunding, refunding => true
  | _, _ => false
  end.

Section WithNumber.
Context {num : Type} `{Number num}.

Record Presale : Type := {
  id : string;
  creator_wallet : string;
  token_name : string;
  token_symbol : string;
  description : string;
  image_url : string;
  twitter : option string;
  website : option string;
  min_sol_per_wallet : num;
  max_sol_per_wallet : num;
  target_participants : Z;
  duration_minutes : Z;
  launch_fee_paid : bool;
  launch_fee_signature : option string;
  status : PresaleStatus;
  created_at : Z;
  expires_at : Z;
  launched_at : option Z;
  token_mint : option string;
  launch_signature : option string;
  meteora_config_key : option string;
  total_sol : num;
  participant_count : Z;
}.

(** The participant's own [id] field is named [participant_id] here, the
    presale's keeps the name [id]. *)
Record PresaleParticipant : Type := {
  participant_id : string;
  presale_id : string;
  wallet : string;
  amount_sol : num;
  fee_share_bps : num;
  joined_at : Z;
  tx_signature : string;
  confirmed : bool;
  refunded : bool;
  refund_signature : option string;
  withdrawn : bool;
  withdraw_signature : option string;
  withdraw_tax_paid : option num;
}.

Record PresaleDatabase : Type := {
  presales : list Presale;
  participants : list PresaleParticipant;
  lastPresaleNum : Z;
}.

(** *** Field assignments *)

Definition set_status (s : PresaleStatus) (p : Presale) : Presale :=
  {| id := id p; creator_wallet := creator_wallet p;
     token_name := token_name p; token_symbol := token_symbol p;
     description := description p; image_url := image_url p;
     twitter := twitter p; website := website p;
     min_sol_per_wallet := min_sol_per_wallet p;
     max_sol_per_wallet := max_sol_per_wallet p;
     target_participants := target_participants p;
     duration_minutes := duration_minutes p;
     launch_fee_paid := launch_fee_paid p;
     launch_fee_signature := launch_fee_signature p;
     status := s;
     created_at := created_at p; expires_at := expires_at p;
     launched_at := launched_at p; token_mint := token_mint p;
     launch_signature := launch_signature p;
     meteora_config_key := meteora_config_key p;
     total_sol := total_sol p;
     participant_count := participant_count p |}.

Definition set_totals (t : num) (c : Z) (p : Presale) : Presale :=
  {| id := id p; creator_wallet := creator_wallet p;
     token_name := token_name p; token_symbol := token_symbol p;
     description := description p; image_url := image_url p;
     twitter := twitter p; website := website p;
     min_sol_per_wallet := min_sol_per_wallet p;
     max_sol_per_wallet := max_sol_per_wallet p;
     target_participants := target_participants p;
     duration_minutes := duration_minutes p;
     launch_fee_paid := launch_fee_paid p;
     launch_fee_signature := launch_fee_signature p;
     status := status p;
     created_at := created_at p; expires_at := expires_at p;
     launched_at := launched_at p; token_mint := token_mint p;
     launch_signature := launch_signature p;
     meteora_config_key := meteora_config_key p;
     total_sol := t;
     participant_count := c |}.

(** The [additionalData] argument of [updatePresaleStatus]: the callers
    pass a subset of these four fields; [Object.assign] overwrites
    exactly the fields present. *)
Record PresalePatch : Type := {
  patch_token_mint : option string;
  patch_meteora_config_key : option string;
  patch_launch_signature : option string;
  patch_launched_at : option Z;
}.

Definition no_patch : PresalePatch :=
  {| patch_token_mint := None; patch_meteora_config_key := None;
     patch_launch_signature := None; patch_launched_at := None |}.

Definition assign {A : Type} (new old : option A) : option A :=
  match new with
  | Some v => Some v
  | None => old
  end.

Definition object_assign (d : PresalePatch) (p : Presale) : Presale :=
  {| id := id p; creator_wallet := creator_wallet p;
     token_name := token_name p; token_symbol := token_symbol p;
     description := description p; image_url := image_url p;
     twitter := twitter p; website := website p;
     min_sol_per_wallet := min_sol_per_wallet p;
     max_sol_per_wallet := max_sol_per_wallet p;
     target_participants := target_participants p;
     duration_minutes := duration_minutes p;
     launch_fee_paid := launch_fee_paid p;
     launch_fee_signature := launch_fee_signature p;
     status := status p;
     created_at := created_at p; expires_at := expires_at p;
     launched_at := assign (patch_launched_at d) (launched_at p);
     token_mint := assign (patch_token_mint d) (token_mint p);
     launch_signature :=
       assign (patch_launch_signature d) (launch_signature p);
     meteora_config_key :=
       assign (patch_meteora_config_key d) (meteora_config_key p);
     total_sol := total_sol p;
     participant_count := participant_count p |}.

Definition set_confirmed (p : PresaleParticipant) : PresaleParticipant :=
  {| participant_id := participant_id p; presale_id := presale_id p;
     wallet := wallet p; amount_sol := amount_sol p;
     fee_share_bps := fee_share_bps p; joined_at := joined_at p;
     tx_signature := tx_signature p;
     confirmed := true;
     refunded := refunded p; refund_signature := refund_signature p;
     withdrawn := withdrawn p;
     withdraw_signature := withdraw_signature p;
     withdraw_tax_paid := withdraw_tax_paid p |}.

Definition set_refunded (sig : string) (p : PresaleParticipant)
  : PresaleParticipant :=
  {| participant_id := participant_id p; presale_id := presale_id p;
     wallet := wallet p; amount_sol := amount_sol p;
     fee_share_bps := fee_share_bps p; joined_at := joined_at p;
     tx_signature := tx_signature p;
     confirmed := confirmed p;
     refunded := true; refund_signature := Some sig;
     withdrawn := withdrawn p;
     withdraw_signature := withdraw_signature p;
     withdraw_tax_paid := withdraw_tax_paid p |}.

Definition set_withdrawn (sig : string) (tax : num)
    (p : PresaleParticipant) : PresaleParticipant :=
  {| participant_id := participant_id p; presale_id := presale_id p;
     wallet := wallet p; amount_sol := amount_sol p;
     fee_share_bps := fee_share_bps p; joined_at := joined_at p;
     tx_signature := tx_signature p;
     confirmed := confirmed p;
     refunded := refunded p; refund_signature := refund_signature p;
     withdrawn := true;
     withdraw_signature := Some sig;
     withdraw_tax_paid := Some tax |}.

Definition set_fee_share_bps (bps : num) (p : PresaleParticipant)
  : PresaleParticipant :=
  {| participant_id := participant_id p; presale_id := presale_id p;
     wallet := wallet p; amount_sol := amount_sol p;
     fee_share_bps := bps; joined_at := joined_at p;
     tx_signature := tx_signature p;
     confirmed := confirmed p;
     refunded := refunded p; refund_signature := refund_signature p;
     withdrawn := withdrawn p;
     withdraw_signature := withdraw_signature p;
     withdraw_tax_paid := withdraw_tax_paid p |}.

Definition with_presales (ps : list Presale) (db : PresaleDatabase)
  : PresaleDatabase :=
  {| presales := ps; participants := participants db;
     lastPresaleNum := lastPresaleNum db |}.

Definition with_participants (ps : list PresaleParticipant)
    (db : PresaleDatabase) : PresaleDatabase :=
  {| presales := presales db; participants := ps;
     lastPresaleNum := lastPresaleNum db |}.

(** *** Predicates used by the [find] and [filter] calls *)

Definition has_id (i : string) (p : Presale) : bool := String.eqb (id p) i.

(** [p.presale_id === presale_id && p.wallet === wallet && !p.refunded
    && !p.withdrawn] *)
Definition unresolved_of (pid w : string) (p : PresaleParticipant)
  : bool :=
  String.eqb (presale_id p) pid && String.eqb (wallet p) w
  && negb (refunded p) && negb (withdrawn p).

(** [... && !p.confirmed && !p.refunded && !p.withdrawn] *)
Definition pending_of (pid w : string) (p : PresaleParticipant) : bool :=
  String.eqb (presale_id p) pid && String.eqb (wallet p) w
  && negb (confirmed p) && negb (refunded p) && negb (withdrawn p).

(** [p.presale_id === presale_id && p.confirmed && !p.refunded
    && !p.withdrawn] *)
Definition counted_in (pid : string) (p : PresaleParticipant) : bool :=
  String.eqb (presale_id p) pid && confirmed p
  && negb (refunded p) && negb (withdrawn p).

End WithNumber.

Arguments Presale num : clear implicits.
Arguments PresaleParticipant num : clear implicits.
Arguments PresaleDatabase num : clear implicits.

(** ASCII rendering of [s.toUpperCase().replace('$', '')]: letters a-z are
    raised, the first dollar sign is dropped. *)
Definition upper_ascii (c : ascii) : ascii :=
  let n := nat_of_ascii c in
  if ((97 <=? n) && (n <=? 122))%nat then ascii_of_nat (n - 32) else c.

Fixpoint toUpperCase (s : string) : string :=
  match s with
  | EmptyString => EmptyString
  | String c r => String (upper_ascii c) (toUpperCase r)
  end.

Fixpoint remove_first_dollar (s : string) : string :=
  match s with
  | EmptyString => EmptyString
  | String c r =>
      if Ascii.eqb c "$"%char then r else String c (remove_first_dollar r)
  end.

(** [`PS${String(num).padStart(4, '0')}${suffix}`]; the four random
    characters drawn from [Math.random] are the argument [suffix]. *)
Definition generatePresaleId (n : Z) (suffix : string) : string :=
  String.append "PS" (String.append (padStart0 4 (string_of_Z n)) suffix).

Section Operations.
Context {num : Type} `{Number num}.

#[local] Abbreviation Presale := (Presale num).
#[local] Abbreviation PresaleParticipant := (PresaleParticipant num).
#[local] Abbreviation PresaleDatabase := (PresaleDatabase num).

(** The in-memory cache [presaleDbCache] is the store: every operation
    takes the database and returns it updated.  Writing the cache to the
    JSON file ([savePresaleDb], [forceSavePresaleDb]) does not change
    it. *)

Definition emptyDb : PresaleDatabase :=
  {| presales := []; participants := []; lastPresaleNum := 0 |}.

Record CreatePresaleData : Type := {
  data_creator_wallet : string;
  data_token_name : string;
  data_token_symbol : string;
  data_description : string;
  data_image_url : string;
  data_twitter : option string;
  data_website : option string;
  data_min_sol_per_wallet : option num;
  data_max_sol_per_wallet : option num;
  data_duration_minutes : option Z;
  data_target_participants : option Z;
  data_launch_fee_signature : string;
}.

(** [x || d] on an optional number. *)
Definition num_or_default (x : option num) (d : num) : num :=
  match x with
  | Some v => if truthy v then v else d
  | None => d
  end.

(** [createPresale]: [inl] is the message of the [Error] thrown. *)
Definition createPresale (db : PresaleDatabase) (data : CreatePresaleData)
    (now : Z) (suffix : string)
  : (string + Presale) * PresaleDatabase :=
  let duration := or_default (data_duration_minutes data) 30 in
  if negb (Constants.isValidDuration duration) then
    (inl "Invalid duration", db)
  else
    let targetParticipants :=
      or_default (data_target_participants data)
                 Constants.PRESALE_CONFIG.DEFAULT_PARTICIPANTS in
    if (targetParticipants <? Constants.PRESALE_CONFIG.MIN_PARTICIPANTS)
       || (Constants.PRESALE_CONFIG.MAX_PARTICIPANTS <? targetParticipants)
    then (inl "Target participants out of range", db)
    else if String.eqb (data_launch_fee_signature data) "" then
      (inl "Launch fee payment signature required", db)
    else
      let n := lastPresaleNum db + 1 in
      let presale : Presale :=
        {| id := generatePresaleId n suffix;
           creator_wallet := data_creator_wallet data;
           token_name := data_token_name data;
           token_symbol :=
             remove_first_dollar (toUpperCase (data_token_symbol data));
           description := data_description data;
           image_url := data_image_url data;
           twitter := data_twitter data;
           website := data_website data;
           min_sol_per_wallet :=
             num_or_default (data_min_sol_per_wallet data)
                            Constants.PRESALE_CONFIG.DEFAULT_MIN_SOL;
           max_sol_per_wallet :=
             num_or_default (data_max_sol_per_wallet data)
                            Constants.PRESALE_CONFIG.DEFAULT_MAX_SOL;
           target_participants := targetParticipants;
           duration_minutes := duration;
           launch_fee_paid := true;
           launch_fee_signature := Some (data_launch_fee_signature data);
           status := active;
           created_at := now;
           expires_at := now + duration * 60 * 1000;
           launched_at := None;
           token_mint := None;
           launch_signature := None;
           meteora_config_key := None;
           total_sol := of_int 0;
           participant_count := 0 |} in
      (inr presale,
       {| presales := presale :: presales db;
          participants := participants db;
          lastPresaleNum := n |}).

Definition getPresaleById (db : PresaleDatabase) (i : string)
  : option Presale :=
  find (has_id i) (presales db).

Definition updatePresaleStatus (db : PresaleDatabase) (i : string)
    (s : PresaleStatus) (additionalData : PresalePatch)
  : option Presale * PresaleDatabase :=
  match find (has_id i) (presales db) with
  | None => (None, db)
  | Some presale =>
      let presale' := object_assign additionalData (set_status s presale) in
      (Some presale',
       with_presales
         (update_first (has_id i) (fun _ => presale') (presales db)) db)
  end.

Record AddParticipantData : Type := {
  add_presale_id : string;
  add_wallet : string;
  add_amount_sol : num;
  add_tx_signature : string;
}.

Definition addParticipant (db : PresaleDatabase)
    (data : AddParticipantData) (now : Z)
  : option PresaleParticipant * PresaleDatabase :=
  match find (has_id (add_presale_id data)) (presales db) with
  | None => (None, db)
  | Some _ =>
      match find (unresolved_of (add_presale_id data) (add_wallet data))
                 (participants db) with
      | Some _ => (None, db)
      | None =>
          let participant : PresaleParticipant :=
            {| participant_id :=
                 String.append (add_presale_id data)
                               (String.append "-" (string_of_Z now));
               presale_id := add_presale_id data;
               wallet := add_wallet data;
               amount_sol := add_amount_sol data;
               fee_share_bps := of_int 0;
               joined_at := now;
               tx_signature := add_tx_signature data;
               confirmed := false;
               refunded := false;
               refund_signature := None;
               withdrawn := false;
               withdraw_signature := None;
               withdraw_tax_paid := None |} in
          (Some participant,
           with_participants (participants db ++ [participant]) db)
      end
  end.

Definition confirmParticipant (db : PresaleDatabase) (pid w : string)
  : option (PresaleParticipant * Presale) * PresaleDatabase :=
  match find (pending_of pid w) (participants db) with
  | None => (None, db)
  | Some participant =>
      match find (has_id pid) (presales db) with
      | None => (None, db)
      | Some presale =>
          let participant' := set_confirmed participant in
          let presale' :=
            set_totals (add (total_sol presale) (amount_sol participant))
                       (participant_count presale + 1) presale in
          (Some (participant', presale'),
           {| presales :=
                update_first (has_id pid) (fun _ => presale')
                             (presales db);
              participants :=
                update_first (pending_of pid w) (fun _ => participant')
                             (participants db);
              lastPresaleNum := lastPresaleNum db |})
      end
  end.

Definition getPresaleParticipants (db : PresaleDatabase) (pid : string)
  : list PresaleParticipant :=
  filter (counted_in pid) (participants db).

Definition getParticipantByWallet (db : PresaleDatabase) (pid w : string)
  : option PresaleParticipant :=
  find (unresolved_of pid w) (participants db).

(** The part shared by [markParticipantRefunded] and
    [markParticipantWithdrawn]: the record found is flagged by [mark] and
    the presale totals are reduced if the record was confirmed and the
    presale exists. *)
Definition settle (mark : PresaleParticipant -> PresaleParticipant)
    (db : PresaleDatabase) (pid w : string) : bool * PresaleDatabase :=
  match find (unresolved_of pid w) (participants db) with
  | None => (false, db)
  | Some participant =>
      let parts' :=
        update_first (unresolved_of pid w) mark (participants db) in
      let presales' :=
        match find (has_id pid) (presales db) with
        | Some presale =>
            if confirmed participant then
              update_first (has_id pid)
                (fun _ =>
                   set_totals
                     (sub (total_sol presale) (amount_sol participant))
                     (participant_count presale - 1) presale)
                (presales db)
            else presales db
        | None => presales db
        end in
      (true,
       {| presales := presales'; participants := parts';
          lastPresaleNum := lastPresaleNum db |})
  end.

Definition markParticipantRefunded (db : PresaleDatabase)
    (pid w refund_sig : string) : bool * PresaleDatabase :=
  settle (set_refunded refund_sig) db pid w.

Definition markParticipantWithdrawn (db : PresaleDatabase)
    (pid w withdraw_sig : string) (tax_paid : num)
  : bool * PresaleDatabase :=
  settle (set_withdrawn withdraw_sig tax_paid) db pid w.

Record FeeShare : Type := {
  fs_wallet : string;
  bps : num;
}.

(** [feeShares[feeShares.length - 1].bps += extra] *)
Fixpoint add_to_last (extra : num) (l : list FeeShare) : list FeeShare :=
  match l with
  | [] => []
  | [x] => [{| fs_wallet := fs_wallet x; bps := add (bps x) extra |}]
  | x :: r => x :: add_to_last extra r
  end.

(** The value [Math.floor((p.amount_sol / totalSol) * remainingBps)]
    computed in the loop of [calculateFeeShares]. *)
Definition floor_share (totalSol remainingBps : num)
    (p : PresaleParticipant) : num :=
  floor (mul (div (amount_sol p) totalSol) remainingBps).

Definition calculateFeeShares (db : PresaleDatabase) (pid : string)
  : list FeeShare * PresaleDatabase :=
  match find (has_id pid) (presales db),
        filter (counted_in pid) (participants db) with
  | None, _ => ([], db)
  | Some _, [] => ([], db)
  | Some presale, parts =>
      let totalSol := total_sol presale in
      let creatorBps :=
        of_int Constants.PRESALE_CONFIG.CREATOR_ALLOCATION_BPS in
      let remainingBps := sub (of_int 10000) creatorBps in
      let shares :=
        map (fun p => {| fs_wallet := wallet p;
                         bps := floor_share totalSol remainingBps p |})
            parts in
      let db' :=
        with_participants
          (map (fun p =>
                  if counted_in pid p
                  then set_fee_share_bps
                         (floor_share totalSol remainingBps p) p
                  else p)
               (participants db)) db in
      let totalAssignedBps :=
        add (fold_left add (map bps shares) (of_int 0)) creatorBps in
      let feeShares :=
        {| fs_wallet := creator_wallet presale; bps := creatorBps |}
          :: shares in
      let feeShares :=
        if ltb totalAssignedBps (of_int 10000)
           && (1 <? List.length feeShares)%nat
        then add_to_last (sub (of_int 10000) totalAssignedBps) feeShares
        else feeShares in
      (feeShares, db')
  end.

(** The loop of [checkExpiredPresales]: the presales flipped to
    [failed], and the array after the loop. *)
Fixpoint expire_loop (now : Z) (ps : list Presale)
  : list Presale * list Presale :=
  match ps with
  | [] => ([], [])
  | presale :: rest =>
      let '(expired, ps') := expire_loop now rest in
      if status_eqb (status presale) active
         && (expires_at presale <? now)
      then
        let presale' := set_status failed presale in
        (presale' :: expired, presale' :: ps')
      else (expired, presale :: ps')
  end.

Definition checkExpiredPresales (db : PresaleDatabase) (now : Z)
  : list Presale * PresaleDatabase :=
  let '(expired, ps') := expire_loop now (presales db) in
  (expired, with_presales ps' db).

Record PresaleStats : Type := {
  stats_total : nat;
  stats_active : nat;
  stats_launched : nat;
  stats_failed : nat;
  stats_total_sol : num;
}.

Definition getPresaleStats (db : PresaleDatabase) : PresaleStats :=
  let launchedPresales :=
    filter (fun p => status_eqb (status p) launched) (presales db) in
  let total_sol_sum :=
    fold_left
      (fun s p => add s (if truthy (total_sol p) then total_sol p
                         else of_int 0))
      launchedPresales (of_int 0) in
  {| stats_total := List.length (presales db);
     stats_active :=
       List.length (filter (fun p => status_eqb (status p) active)
                      (presales db));
     stats_launched := List.length launchedPresales;
     stats_failed :=
       List.length (filter (fun p => status_eqb (status p) failed)
                      (presales db));
     stats_total_sol := total_sol_sum |}.

Definition checkAutoLaunch (db : PresaleDatabase) (pid : string) : bool :=
  match getPresaleById db pid with
  | None => false
  | Some presale =>
      status_eqb (status presale) active
      && (target_participants presale <=? participant_count presale)
  end.

End Operations.

Arguments FeeShare num : clear implicits.
Arguments PresaleStats num : clear implicits.
Arguments CreatePresaleData num : clear implicits.
Arguments AddParticipantData num : clear implicits.

End PresaleDb.

(* ================================================================== *)
(** ** lib/launch-presale.ts *)

Module LaunchPresale.
Import PresaleDb.

(** What [await fetch(...)] then [await res.json()] can do: reject, which
    lands in the enclosing [catch], or deliver a body. *)
Inductive Fetch (A : Type) : Type :=
| Rejected (message : string)
| Body (r : A).
Arguments Rejected {A} message.
Arguments Body {A} r.

(** What [Keypair.fromSecretKey(bs58.decode(key))] does with a key that is
    set: throw, or give the key pair, of which the public key is kept. *)
Definition DecodedKey : Type := (string + string)%type.

(** [parseBagsResponse] applied to the body of [create-token-info]. *)
Record MetadataResponse : Type := {
  metadata_success : bool;
  metadata_error : option string;
  metadata_tokenMint : option string;
  metadata_tokenMetadata : option string;
}.

(** One entry of [configResult.data.transactions]: a payload in none of the
    four known shapes, or a payload with what signing and sending it does. *)
Inductive ConfigTransaction : Type :=
| UnknownFormat
| Payload (txBase58 : string) (sent : string + string).

(** [parseBagsResponse] applied to the body of [fee-share/config]. *)
Record ConfigResponse : Type := {
  config_success : bool;
  config_error : option string;
  config_meteoraConfigKey : option string;
  config_transactions : list ConfigTransaction;
}.

(** [parseBagsResponse] applied to the body of [create-launch-transaction];
    [launch_payload] is the transaction found in one of the known shapes. *)
Record LaunchTxResponse : Type := {
  launchtx_success : bool;
  launchtx_error : option string;
  launchtx_payload : option string;
}.

(** Everything outside the process that one call of [launchPresaleToken]
    reads: the two environment variables, the replies of the launch
    service, what the chain does with the launch transaction, the clock. *)
Record Env : Type := {
  BAGS_API_KEY : bool;
  LAUNCHER_PRIVATE_KEY : option DecodedKey;
  create_token_info : Fetch MetadataResponse;
  fee_share_config : Fetch ConfigResponse;
  fee_share_config_basic : Fetch ConfigResponse;
  create_launch_transaction : Fetch LaunchTxResponse;
  launch_send : string + string;
  launch_clock : Z;
}.

Section WithNumber.
Context {num : Type} `{Number num}.

#[local] Abbreviation Presale := (Presale num).
#[local] Abbreviation PresaleDatabase := (PresaleDatabase num).

(** The requests sent out, in order. *)
Inductive ExternalCall : Type :=
| CreateTokenInfo (name symbol : string)
| FeeShareConfig (withPartner : bool) (payer baseMint : string)
    (claimersArray : list string) (basisPointsArray : list num)
| SignAndSend (txBase58 : string)
| CreateLaunchTransaction (ipfs : option string) (tokenMint wallet : string)
    (initialBuyLamports : num) (configKey : string).

Inductive LaunchError : Type :=
| ApiKeyNotConfigured
| LauncherKeyNotConfigured
| PresaleNotFound
| PresaleAlreadyLaunched
| PresaleNotFull (participant_count target_participants : Z)
| NoConfirmedParticipants
| FeeShareCalculationError (totalBps : num)
| MetadataFailed (error : option string)
| FeeShareConfigFailed (error : option string)
| LaunchTransactionFailed (error : option string)
| LaunchSendFailed (message : string)
| Exception (message : string).

Record LaunchResult : Type := {
  success : bool;
  error : option LaunchError;
  token_mint : option string;
  launch_signature : option string;
  meteora_config_key : option string;
  bags_url : option string;
  explorer_url : option string;
  step : option string;
}.

Definition failure (e : LaunchError) : LaunchResult :=
  {| success := false; error := Some e; token_mint := None;
     launch_signature := None; meteora_config_key := None;
     bags_url := None; explorer_url := None; step := None |}.

Definition failure_at (e : LaunchError) (s : string)
    (mint config : option string) : LaunchResult :=
  {| success := false; error := Some e; token_mint := mint;
     launch_signature := None; meteora_config_key := config;
     bags_url := None; explorer_url := None; step := Some s |}.

(** The loop over [configTransactions]: entries of unknown shape are
    skipped, the others are signed and sent; a failed send is caught and
    logged.  Returns the calls made and [configTxSuccess]. *)
Fixpoint sign_config_transactions (txs : list ConfigTransaction)
  : list ExternalCall * nat :=
  match txs with
  | [] => ([], O)
  | UnknownFormat :: rest => sign_config_transactions rest
  | Payload tx sent :: rest =>
      let '(calls, ok) := sign_config_transactions rest in
      (SignAndSend tx :: calls,
       match sent with inr _ => S ok | inl _ => ok end)
  end.

(** [configResult.data.meteoraConfigKey] when
    [!configResult.success || !configResult.data?.meteoraConfigKey] is false. *)
Definition config_key (c : ConfigResponse) : option string :=
  if config_success c then config_meteoraConfigKey c else None.

(** Steps 3 and 4 of the source: create the launch transaction, sign and
    send it, record the launch. *)
Definition launch_step (env : Env) (db : PresaleDatabase)
    (presaleId : string) (presale : Presale) (launcher tokenMint : string)
    (tokenMetadata : option string) (meteoraConfigKey : string)
    (trace : list ExternalCall)
  : LaunchResult * PresaleDatabase * list ExternalCall :=
  let initialBuyLamports :=
    floor (mul (mul (total_sol presale) (decimal 1 2))
               (of_int Constants.LAMPORTS_PER_SOL)) in
  let trace :=
    trace ++ [CreateLaunchTransaction tokenMetadata tokenMint launcher
                                      initialBuyLamports meteoraConfigKey] in
  let partial :=
    {| patch_token_mint := Some tokenMint;
       patch_meteora_config_key := Some meteoraConfigKey;
       patch_launch_signature := None;
       patch_launched_at := None |} in
  match create_launch_transaction env with
  | Rejected m => (failure (Exception m), db, trace)
  | Body r =>
      if negb (launchtx_success r) then
        (failure_at (LaunchTransactionFailed (launchtx_error r)) "launch_tx"
                    (Some tokenMint) (Some meteoraConfigKey),
         snd (updatePresaleStatus db presaleId active partial), trace)
      else
        let sent :=
          match launchtx_payload r with
          | None => (inl "Unknown launch tx format", trace)
          | Some tx => (launch_send env, trace ++ [SignAndSend tx])
          end in
        match sent with
        | (inl m, trace) =>
            (failure_at (LaunchSendFailed m) "launch_send"
                        (Some tokenMint) (Some meteoraConfigKey),
             snd (updatePresaleStatus db presaleId active partial), trace)
        | (inr launchSignature, trace) =>
            ({| success := true; error := None;
                token_mint := Some tokenMint;
                launch_signature := Some launchSignature;
                meteora_config_key := Some meteoraConfigKey;
                bags_url :=
                  Some (String.append "https://bags.fm/token/" tokenMint);
                explorer_url :=
                  Some (String.append "https://solscan.io/tx/"
                                      launchSignature);
                step := None |},
             snd (updatePresaleStatus db presaleId launched
                    {| patch_token_mint := Some tokenMint;
                       patch_meteora_config_key := Some meteoraConfigKey;
                       patch_launch_signature := Some launchSignature;
                       patch_launched_at := Some (launch_clock env) |}),
             trace)
        end
  end.

(** Step 2 of the source: register the fee-share configuration, with the
    partner fields first and without them if that is refused, then sign the
    configuration transactions. *)
Definition fee_share_step (env : Env) (db : PresaleDatabase)
    (presaleId : string) (presale : Presale) (launcher tokenMint : string)
    (tokenMetadata : option string) (feeShares : list (FeeShare num))
    (trace : list ExternalCall)
  : LaunchResult * PresaleDatabase * list ExternalCall :=
  let claimersArray := map fs_wallet feeShares in
  let basisPointsArray := map bps feeShares in
  let trace :=
    trace ++ [FeeShareConfig true launcher tokenMint claimersArray
                             basisPointsArray] in
  match fee_share_config env with
  | Rejected m => (failure (Exception m), db, trace)
  | Body first =>
      let retried :=
        match config_key first with
        | Some key => inr (key, first, trace)
        | None =>
            let trace :=
              trace ++ [FeeShareConfig false launcher tokenMint claimersArray
                                       basisPointsArray] in
            match fee_share_config_basic env with
            | Rejected m => inl (failure (Exception m), trace)
            | Body second =>
                match config_key second with
                | Some key => inr (key, second, trace)
                | None =>
                    inl (failure_at
                           (FeeShareConfigFailed (config_error second))
                           "fee_share" (Some tokenMint) None, trace)
                end
            end
        end in
      match retried with
      | inl (result, trace) => (result, db, trace)
      | inr (meteoraConfigKey, configResult, trace) =>
          let '(calls, _) :=
            sign_config_transactions (config_transactions configResult) in
          launch_step env db presaleId presale launcher tokenMint
                      tokenMetadata meteoraConfigKey (trace ++ calls)
      end
  end.

Definition launchPresaleToken (env : Env) (db : PresaleDatabase)
    (presaleId : string) (force : bool)
  : LaunchResult * PresaleDatabase * list ExternalCall :=
  if negb (BAGS_API_KEY env) then (failure ApiKeyNotConfigured, db, [])
  else
    match LAUNCHER_PRIVATE_KEY env with
    | None => (failure LauncherKeyNotConfigured, db, [])
    | Some key =>
        match getPresaleById db presaleId with
        | None => (failure PresaleNotFound, db, [])
        | Some presale =>
            if status_eqb (status presale) launched then
              ({| success := false; error := Some PresaleAlreadyLaunched;
                  token_mint := PresaleDb.token_mint presale;
                  launch_signature := PresaleDb.launch_signature presale;
                  meteora_config_key := None;
                  bags_url := None; explorer_url := None; step := None |},
               db, [])
            else if negb force
                    && (participant_count presale
                        <? target_participants presale)
            then
              (failure (PresaleNotFull (participant_count presale)
                                       (target_participants presale)),
               db, [])
            else
              match getPresaleParticipants db presaleId with
              | [] => (failure NoConfirmedParticipants, db, [])
              | _ :: _ =>
                  let '(feeShares, db) := calculateFeeShares db presaleId in
                  let totalBps := sum (map bps feeShares) in
                  if neqb totalBps (of_int 10000) then
                    (failure (FeeShareCalculationError totalBps), db, [])
                  else
                    match key with
                    | inl m => (failure (Exception m), db, [])
                    | inr launcher =>
                        let trace :=
                          [CreateTokenInfo (token_name presale)
                                           (token_symbol presale)] in
                        match create_token_info env with
                        | Rejected m => (failure (Exception m), db, trace)
                        | Body r =>
                            match (if metadata_success r
                                   then metadata_tokenMint r else None) with
                            | None =>
                                (failure_at
                                   (MetadataFailed (metadata_error r))
                                   "metadata" None None, db, trace)
                            | Some tokenMint =>
                                fee_share_step env db presaleId presale
                                  launcher tokenMint
                                  (metadata_tokenMetadata r) feeShares trace
                            end
                        end
                    end
              end
        end
    end.

End WithNumber.

Arguments LaunchResult num : clear implicits.
Arguments ExternalCall num : clear implicits.
Arguments LaunchError num : clear implicits.

End LaunchPresale.

(* ================================================================== *)
(** ** app/api/presale/[id]/join/route.ts *)

Module JoinRoute.
Import PresaleDb.

Section WithNumber.
Context {num : Type} `{Number num}.

#[local] Abbreviation Presale := (Presale num).
#[local] Abbreviation PresaleDatabase := (PresaleDatabase num).

(** The JSON body of the request; an absent field is the falsy value of its
    type (the empty string, the number 0). *)
Record JoinBody : Type := {
  body_wallet : string;
  body_amount_sol : num;
  body_tx_signature : string;
}.

(** What [connection.getTransaction] returns for the deposit: whether
    [meta.err] is set, and the pre- and post-balances in lamports of the
    escrow account when its key is among the account keys. *)
Record TransactionInfo : Type := {
  meta_err : bool;
  escrow_balances : option (num * num);
}.

(** Everything outside the process that one join request reads: three
    readings of the clock, up to three look-ups of the deposit transaction
    ([inl] is the message of a thrown error), and the environment of the
    launch that the filling join triggers. *)
Record Env : Type := {
  clock_expiry : Z;
  clock_check : Z;
  clock_add : Z;
  lookup_first : string + option TransactionInfo;
  lookup_retry : string + option TransactionInfo;
  lookup_details : string + option TransactionInfo;
  launch_env : LaunchPresale.Env;
}.

Inductive JoinError : Type :=
| MissingFields
| PresaleNotFound
| NotActive (s : PresaleStatus)
| PresaleExpired
| PresaleFull
| CreatorCannotJoin
| AlreadyJoined
| BelowMinimum (min : num)
| AboveMaximum (max : num)
| TransactionNotFound
| NoTransactionDetails
| FailedOnChain
| NotSentToEscrow
| AmountMismatch (expected received : num)
| AddFailed
| ConfirmFailed.

(** The body of the 200 response; the message text and the rounded
    [progress_percent] are left out. *)
Record Joined : Type := {
  position : Z;
  joined_participant_count : Z;
  joined_total_sol : num;
  is_full : bool;
  launch_triggered : bool;
  launch : option (LaunchPresale.LaunchResult num);
}.

Inductive Response : Type :=
| Error (http_status : Z) (e : JoinError)
| Ok (body : Joined).

(** Lines 28-108: the checks made before the deposit is looked up on the
    chain.  [None] lets the request through. *)
Definition precheck (env : Env) (db : PresaleDatabase) (i : string)
    (body : JoinBody) : option Response * PresaleDatabase :=
  if String.eqb (body_wallet body) ""
     || negb (truthy (body_amount_sol body))
     || String.eqb (body_tx_signature body) ""
  then (Some (Error 400 MissingFields), db)
  else
    let db := snd (checkExpiredPresales db (clock_expiry env)) in
    match getPresaleById db i with
    | None => (Some (Error 404 PresaleNotFound), db)
    | Some presale =>
        if negb (status_eqb (status presale) active) then
          (Some (Error 400 (NotActive (status presale))), db)
        else if expires_at presale <? clock_check env then
          (Some (Error 400 PresaleExpired),
           snd (updatePresaleStatus db i failed no_patch))
        else if target_participants presale <=? participant_count presale
        then (Some (Error 400 PresaleFull), db)
        else if String.eqb (body_wallet body) (creator_wallet presale) then
          (Some (Error 400 CreatorCannotJoin), db)
        else if match getParticipantByWallet db i (body_wallet body) with
                | Some existing => confirmed existing
                | None => false
                end
        then (Some (Error 400 AlreadyJoined), db)
        else if ltb (body_amount_sol body) (min_sol_per_wallet presale) then
          (Some (Error 400 (BelowMinimum (min_sol_per_wallet presale))), db)
        else if gtb (body_amount_sol body) (max_sol_per_wallet presale) then
          (Some (Error 400 (AboveMaximum (max_sol_per_wallet presale))), db)
        else (None, db)
    end.

(** Lines 137-190: the checks on the transaction fetched. *)
Definition check_transaction (body : JoinBody) (tx : TransactionInfo)
  : option Response :=
  if meta_err tx then Some (Error 400 FailedOnChain)
  else
    match escrow_balances tx with
    | None => Some (Error 400 NotSentToEscrow)
    | Some (preBal, postBal) =>
        let receivedLamports := sub postBal preBal in
        let receivedSol :=
          div receivedLamports (of_int Constants.LAMPORTS_PER_SOL) in
        let tolerance := decimal 1 1000 in
        if gtb (abs (sub receivedSol (body_amount_sol body))) tolerance then
          Some (Error 400
                  (AmountMismatch (body_amount_sol body) receivedSol))
        else None
    end.

(** Lines 110-196: the deposit is looked up, once more after three seconds
    if it is not found, and checked.  An error thrown anywhere in this block
    is caught and logged, and the join goes on. *)
Definition verify (env : Env) (body : JoinBody) : option Response :=
  match lookup_first env with
  | inl _ => None
  | inr (Some tx) => check_transaction body tx
  | inr None =>
      match lookup_retry env with
      | inl _ => None
      | inr None => Some (Error 400 TransactionNotFound)
      | inr (Some _) =>
          match lookup_details env with
          | inl _ => None
          | inr None => Some (Error 400 NoTransactionDetails)
          | inr (Some tx) => check_transaction body tx
          end
      end
  end.

(** Lines 198-272: the participant is added and confirmed, and the join
    that fills the presale launches the token. *)
Definition commit (env : Env) (db : PresaleDatabase) (i : string)
    (body : JoinBody)
  : Response * PresaleDatabase * list (LaunchPresale.ExternalCall num) :=
  match addParticipant db
          {| add_presale_id := i; add_wallet := body_wallet body;
             add_amount_sol := body_amount_sol body;
             add_tx_signature := body_tx_signature body |}
          (clock_add env) with
  | (None, db) => (Error 400 AddFailed, db, [])
  | (Some _, db) =>
      match confirmParticipant db i (body_wallet body) with
      | (None, db) => (Error 500 ConfirmFailed, db, [])
      | (Some (_, updatedPresale), db) =>
          let isFull :=
            target_participants updatedPresale
            <=? participant_count updatedPresale in
          let '(launchResult, db, trace) :=
            if isFull && status_eqb (status updatedPresale) active then
              let '(r, db, trace) :=
                LaunchPresale.launchPresaleToken (launch_env env) db i false
              in (Some r, db, trace)
            else (None, db, []) in
          let launchTriggered :=
            match launchResult with
            | Some r => LaunchPresale.success r
            | None => false
            end in
          (Ok {| position := participant_count updatedPresale;
                 joined_participant_count := participant_count updatedPresale;
                 joined_total_sol := total_sol updatedPresale;
                 is_full := isFull;
                 launch_triggered := launchTriggered;
                 launch := if launchTriggered then launchResult else None |},
           db, trace)
      end
  end.

(** The handler run from start to end with no other request in between. *)
Definition POST (env : Env) (db : PresaleDatabase) (i : string)
    (body : JoinBody)
  : Response * PresaleDatabase * list (LaunchPresale.ExternalCall num) :=
  match precheck env db i body with
  | (Some r, db) => (r, db, [])
  | (None, db) =>
      match verify env body with
      | Some r => (r, db, [])
      | None => commit env db i body
      end
  end.

(** *** Requests in flight

    The handler suspends at [await connection.getTransaction(...)], after
    [precheck] and before [commit].  While it waits for the chain, the
    event loop runs other handlers on the same store.  A request is either
    still to start or suspended at the look-up. *)
Inductive Phase : Type := Arrived | AwaitingChain.

Record Request : Type := {
  req_phase : Phase;
  req_env : Env;
  req_id : string;
  req_body : JoinBody;
}.

Definition suspended (r : Request) : Request :=
  {| req_phase := AwaitingChain; req_env := req_env r;
     req_id := req_id r; req_body := req_body r |}.

(** One turn of the event loop on request [r]: from arrival to the look-up,
    or from the look-up to the response.  [None] in the second component
    means the request has been answered. *)
Definition turn (db : PresaleDatabase) (r : Request)
  : PresaleDatabase * option Request :=
  match req_phase r with
  | Arrived =>
      match precheck (req_env r) db (req_id r) (req_body r) with
      | (Some _, db) => (db, None)
      | (None, db) => (db, Some (suspended r))
      end
  | AwaitingChain =>
      match verify (req_env r) (req_body r) with
      | Some _ => (db, None)
      | None =>
          (snd (fst (commit (req_env r) db (req_id r) (req_body r))), None)
      end
  end.

(** The event loop picks any request that can run. *)
Inductive step : PresaleDatabase * list Request ->
                 PresaleDatabase * list Request -> Prop :=
| step_turn (db : PresaleDatabase) (before after : list Request)
    (r : Request) :
    step (db, before ++ r :: after)
         (fst (turn db r),
          before ++ match snd (turn db r) with
                    | Some r' => r' :: after
                    | None => after
                    end).

Inductive steps : PresaleDatabase * list Request ->
                  PresaleDatabase * list Request -> Prop :=
| steps_refl (s : PresaleDatabase * list Request) : steps s s
| steps_cons (s1 s2 s3 : PresaleDatabase * list Request) :
    step s1 s2 -> steps s2 s3 -> steps s1 s3.

(** A schedule names, turn after turn, the position in the list of the
    request that runs next; a position past the end is skipped. *)
Fixpoint pick (k : nat) (l : list Request)
  : option (list Request * Request * list Request) :=
  match l, k with
  | [], _ => None
  | r :: rest, O => Some ([], r, rest)
  | r :: rest, S k' =>
      match pick k' rest with
      | Some (before, x, after) => Some (r :: before, x, after)
      | None => None
      end
  end.

Fixpoint run (schedule : list nat) (s : PresaleDatabase * list Request)
  : PresaleDatabase * list Request :=
  match schedule with
  | [] => s
  | k :: later =>
      match pick k (snd s) with
      | None => run later s
      | Some (before, r, after) =>
          run later
              (fst (turn (fst s) r),
               before ++ match snd (turn (fst s) r) with
                         | Some r' => r' :: after
                         | None => after
                         end)
      end
  end.

End WithNumber.

Arguments JoinBody num : clear implicits.
Arguments TransactionInfo num : clear implicits.
Arguments Env num : clear implicits.
Arguments Response num : clear implicits.
Arguments Request num : clear implicits.

End JoinRoute.

(* ================================================================== *)
(** ** app/api/presale/[id]/refund/route.ts *)

Module RefundRoute.
Import PresaleDb.

Section WithNumber.
Context {num : Type} `{Number num}.

#[local] Abbreviation Presale := (Presale num).
#[local] Abbreviation PresaleDatabase := (PresaleDatabase num).

(** Everything outside the process that one POST reads: the clock, the
    escrow key ([None] when [ESCROW_PRIVATE_KEY] is unset, [inl] when
    decoding it throws), the escrow balance in lamports, and what
    [sendAndConfirmTransaction] does ([inl] is the message of the error
    thrown, [inr] the signature). *)
Record Env : Type := {
  clock : Z;
  ESCROW_PRIVATE_KEY : option (string + string);
  getBalance : string + num;
  sendAndConfirmTransaction : string + string;
}.

Inductive RefundError : Type :=
| MissingWallet
| PresaleNotFound
| CannotWithdraw (s : PresaleStatus)
| NotParticipant
| AlreadyRefunded (refund_signature : option string)
| AlreadyWithdrawn (withdraw_signature : option string)
| DepositNotConfirmed
| EscrowNotConfigured
| TooSmallAfterTax
| TooSmallAfterFees
| InsufficientEscrow
| TransactionFailed (message : string).

(** The transfers of an outgoing transaction, in lamports. *)
Inductive Transfer : Type :=
| ToTaxWallet (lamports : num)
| ToRecipient (wallet : string) (lamports : num).

Inductive Response : Type :=
| Error (http_status : Z) (e : RefundError)
| Withdrawal (original_amount_sol tax_amount_sol return_lamports : num)
    (signature : string)
| Refund (refund_lamports : num) (signature : string).

(** The POST handler.  Besides the response and the store it returns the
    transfers of the transaction it submitted, if it submitted one. *)
Definition POST (env : Env) (db : PresaleDatabase) (i : string)
    (wallet : string) : Response * PresaleDatabase * list Transfer :=
  if String.eqb wallet "" then (Error 400 MissingWallet, db, [])
  else
    match getPresaleById db i with
    | None => (Error 404 PresaleNotFound, db, [])
    | Some presale =>
        let now := clock env in
        let isActivePresale :=
          status_eqb (status presale) active && (now <? expires_at presale) in
        let isFailedPresale :=
          status_eqb (status presale) failed
          || status_eqb (status presale) refunding
          || (status_eqb (status presale) active
              && (expires_at presale <? now)) in
        let db :=
          if status_eqb (status presale) active && (expires_at presale <? now)
          then snd (updatePresaleStatus db i failed no_patch)
          else db in
        (* [presale] is the object held by the store: it is read again
           wherever the source reads it after this update *)
        let current_status :=
          match getPresaleById db i with
          | Some p => status p
          | None => status presale
          end in
        if negb isActivePresale && negb isFailedPresale then
          (Error 400 (CannotWithdraw current_status), db, [])
        else
          match getParticipantByWallet db i wallet with
          | None => (Error 404 NotParticipant, db, [])
          | Some participant =>
              if refunded participant then
                (Error 400 (AlreadyRefunded (refund_signature participant)),
                 db, [])
              else if withdrawn participant then
                (Error 400
                   (AlreadyWithdrawn (withdraw_signature participant)),
                 db, [])
              else if negb (confirmed participant) then
                (Error 400 DepositNotConfirmed, db, [])
              else
                match ESCROW_PRIVATE_KEY env with
                | None => (Error 500 EscrowNotConfigured, db, [])
                | Some key =>
                    let amountSol := amount_sol participant in
                    let lamports :=
                      of_int Constants.LAMPORTS_PER_SOL in
                    let amountLamports := floor (mul amountSol lamports) in
                    match key, getBalance env with
                    | inl m, _ => (Error 500 (TransactionFailed m), db, [])
                    | inr _, inl m =>
                        (Error 500 (TransactionFailed m), db, [])
                    | inr _, inr escrowBalance =>
                        if isActivePresale then
                          let tax :=
                            Constants.calculateWithdrawalTax amountSol in
                          let taxAmount := Constants.taxAmount tax in
                          let returnAmount := Constants.returnAmount tax in
                          let taxLamports :=
                            floor (mul taxAmount lamports) in
                          let returnLamports :=
                            sub (floor (mul returnAmount lamports))
                                (of_int 10000) in
                          if leb returnLamports (of_int 0) then
                            (Error 400 TooSmallAfterTax, db, [])
                          else if ltb escrowBalance
                                      (add amountLamports (of_int 10000))
                          then (Error 500 InsufficientEscrow, db, [])
                          else
                            let transfers :=
                              [ToTaxWallet taxLamports;
                               ToRecipient wallet returnLamports] in
                            match sendAndConfirmTransaction env with
                            | inl m =>
                                (Error 500 (TransactionFailed m), db,
                                 transfers)
                            | inr signature =>
                                (Withdrawal amountSol taxAmount
                                            returnLamports signature,
                                 snd (markParticipantWithdrawn
                                        db i wallet signature taxAmount),
                                 transfers)
                            end
                        else
                          let refundLamports :=
                            sub amountLamports (of_int 5000) in
                          if leb refundLamports (of_int 0) then
                            (Error 400 TooSmallAfterFees, db, [])
                          else if ltb escrowBalance
                                      (add refundLamports (of_int 5000))
                          then (Error 500 InsufficientEscrow, db, [])
                          else
                            let transfers :=
                              [ToRecipient wallet refundLamports] in
                            match sendAndConfirmTransaction env with
                            | inl m =>
                                (Error 500 (TransactionFailed m), db,
                                 transfers)
                            | inr signature =>
                                let db :=
                                  snd (markParticipantRefunded
                                         db i wallet signature) in
                                let db :=
                                  match getPresaleById db i with
                                  | Some p =>
                                      if status_eqb (status p) failed then
                                        snd (updatePresaleStatus
                                               db i refunding no_patch)
                                      else db
                                  | None => db
                                  end in
                                (Refund refundLamports signature, db,
                                 transfers)
                            end
                    end
                end
          end
    end.

End WithNumber.

Arguments Env num : clear implicits.
Arguments Response num : clear implicits.
Arguments Transfer num : clear implicits.

End RefundRoute.

(* ================================================================== *)
(** ** Concrete stores, requests and environments *)

Module Scenarios.
Import PresaleDb.

(** 0.028 SOL, inside the default contribution bounds. *)
Definition drifting_amount : float := decimal 28 1000.

(** A presale for [target] participants lasting ten minutes, created at
    time 1000 in an empty store; its id is [PS0001ABCD] and it expires at
    601000. *)
Definition creation {num : Type} `{Number num} (target : Z)
  : CreatePresaleData num :=
  {| data_creator_wallet := "CREATOR";
     data_token_name := "Sixty Nine";
     data_token_symbol := "$nice";
     data_description := "A fair launch";
     data_image_url := "https://example.org/nice.png";
     data_twitter := None;
     data_website := None;
     data_min_sol_per_wallet := None;
     data_max_sol_per_wallet := None;
     data_duration_minutes := Some 10;
     data_target_participants := Some target;
     data_launch_fee_signature := "FEE1" |}.

Definition created {num : Type} `{Number num} (target : Z)
  : PresaleDatabase num :=
  snd (createPresale emptyDb (creation target) 1000 "ABCD").

Definition PS1 : string := "PS0001ABCD".

(** The store after [wallet] has been added at time [now] with [amount] SOL
    and confirmed. *)
Definition joined {num : Type} `{Number num} (db : PresaleDatabase num)
    (wallet : string) (amount : num) (now : Z) : PresaleDatabase num :=
  snd (confirmParticipant
         (snd (addParticipant db
                 {| add_presale_id := PS1; add_wallet := wallet;
                    add_amount_sol := amount;
                    add_tx_signature := String.append "TX-" wallet |}
                 now))
         PS1 wallet).

(** Two participants with 0.01 and 0.02 SOL. *)
Definition db_two : PresaleDatabase float :=
  joined (joined (created 2) "ALICE" (decimal 1 100) 2000)
         "BOB" (decimal 2 100) 3000.

(** Three participants with 0.05 SOL each: 9500 / 3 leaves a remainder. *)
Definition db_three : PresaleDatabase float :=
  joined (joined (joined (created 3) "ALICE" (decimal 5 100) 2000)
                 "BOB" (decimal 5 100) 3000)
         "CAROL" (decimal 5 100) 4000.

(** One participant with 0.05 SOL in a presale for two. *)
Definition db_one : PresaleDatabase float :=
  joined (created 2) "ALICE" (decimal 5 100) 2000.

(** The same stores in exact arithmetic. *)
Definition exact_two : PresaleDatabase Qc :=
  joined (joined (created 2) "ALICE" (decimal 1 100) 2000)
         "BOB" (decimal 2 100) 3000.

Definition exact_three : PresaleDatabase Qc :=
  joined (joined (joined (created 3) "ALICE" (decimal 5 100) 2000)
                 "BOB" (decimal 5 100) 3000)
         "CAROL" (decimal 5 100) 4000.

(** The store in which the wallets W1, W2, ... have joined one after the
    other with the given amounts, in binary64. *)
Fixpoint joined_all (db : PresaleDatabase float) (k : Z)
    (amounts : list float) : PresaleDatabase float :=
  match amounts with
  | [] => db
  | a :: rest =>
      joined_all (joined db (String.append "W" (string_of_Z k)) a (1000 + k))
                 (k + 1) rest
  end.

(** The contributions 0.01, 0.02, ..., 0.10 SOL, and all the ways in which
    [n] participants can choose among them. *)
Definition hundredths : list float :=
  map (fun k => decimal k 100) [1; 2; 3; 4; 5; 6; 7; 8; 9; 10].

Fixpoint choices (n : nat) : list (list float) :=
  match n with
  | O => [[]]
  | S k => flat_map (fun a => map (cons a) (choices k)) hundredths
  end.

(** Whether the list returned for these amounts has the creator at 500
    bps, then each participant at its floor with the shortfall on the last,
    and adds up to 10000, the shortfall being between 0 and the number of
    participants; [===] is used on every number. *)
Fixpoint same_bps (l1 l2 : list float) : bool :=
  match l1, l2 with
  | [], [] => true
  | a :: r1, b :: r2 => eqb a b && same_bps r1 r2
  | _, _ => false
  end.

Definition split_as_specified (amounts : list float) : bool :=
  let db := joined_all (created 68) 1 amounts in
  let total := fold_left add amounts (of_int 0) in
  let floors :=
    map (fun a => floor (mul (div a total) (of_int 9500))) amounts in
  let short := sub (of_int 9500) (sum floors) in
  let returned := map bps (fst (calculateFeeShares db PS1)) in
  same_bps returned
           (of_int 500 :: removelast floors
              ++ [add (last floors (of_int 0)) short])
  && eqb (sum returned) (of_int 10000)
  && leb (of_int 0) short
  && leb short (of_int (Z.of_nat (List.length amounts))).

(** A refund environment: clock reading [now], escrow key set and valid,
    one SOL in escrow, and a chain that confirms with signature [sig]. *)
Definition refund_env (now : Z) (sig : string) : RefundRoute.Env float :=
  {| RefundRoute.clock := now;
     RefundRoute.ESCROW_PRIVATE_KEY := Some (inr "ESCROW");
     RefundRoute.getBalance := inr (of_int 1000000000);
     RefundRoute.sendAndConfirmTransaction := inr sig |}.

(** Replies of the launch service. *)
Definition config_ok : LaunchPresale.Fetch LaunchPresale.ConfigResponse :=
  LaunchPresale.Body
    {| LaunchPresale.config_success := true;
       LaunchPresale.config_error := None;
       LaunchPresale.config_meteoraConfigKey := Some "CONFIG1";
       LaunchPresale.config_transactions :=
         [LaunchPresale.Payload "CFGTX1" (inr "CFGSIG1")] |}.

Definition config_refused
  : LaunchPresale.Fetch LaunchPresale.ConfigResponse :=
  LaunchPresale.Body
    {| LaunchPresale.config_success := false;
       LaunchPresale.config_error := Some "invalid claimers";
       LaunchPresale.config_meteoraConfigKey := None;
       LaunchPresale.config_transactions := [] |}.

Definition launchtx_ok
  : LaunchPresale.Fetch LaunchPresale.LaunchTxResponse :=
  LaunchPresale.Body
    {| LaunchPresale.launchtx_success := true;
       LaunchPresale.launchtx_error := None;
       LaunchPresale.launchtx_payload := Some "LAUNCHTX1" |}.

Definition launchtx_refused
  : LaunchPresale.Fetch LaunchPresale.LaunchTxResponse :=
  LaunchPresale.Body
    {| LaunchPresale.launchtx_success := false;
       LaunchPresale.launchtx_error := Some "pool not ready";
       LaunchPresale.launchtx_payload := None |}.

(** A launch environment: whether the API key is set, the token id that
    the metadata registration hands out, and the replies to the fee-share
    configuration (asked with and without the partner fields) and to the
    launch transaction. *)
Definition launch_env (api_key : bool) (mint : string)
    (config : LaunchPresale.Fetch LaunchPresale.ConfigResponse)
    (launchtx : LaunchPresale.Fetch LaunchPresale.LaunchTxResponse)
  : LaunchPresale.Env :=
  {| LaunchPresale.BAGS_API_KEY := api_key;
     LaunchPresale.LAUNCHER_PRIVATE_KEY := Some (inr "LAUNCHER");
     LaunchPresale.create_token_info :=
       LaunchPresale.Body
         {| LaunchPresale.metadata_success := true;
            LaunchPresale.metadata_error := None;
            LaunchPresale.metadata_tokenMint := Some mint;
            LaunchPresale.metadata_tokenMetadata := Some "ipfs://meta" |};
     LaunchPresale.fee_share_config := config;
     LaunchPresale.fee_share_config_basic := config;
     LaunchPresale.create_launch_transaction := launchtx;
     LaunchPresale.launch_send := inr "LAUNCHSIG1";
     LaunchPresale.launch_clock := 9000 |}.

(** Every step succeeds. *)
Definition launch_ok : LaunchPresale.Env :=
  launch_env true "MINT1" config_ok launchtx_ok.

(** Every step succeeds, at time 700000. *)
Definition launch_late : LaunchPresale.Env :=
  {| LaunchPresale.BAGS_API_KEY := true;
     LaunchPresale.LAUNCHER_PRIVATE_KEY := Some (inr "LAUNCHER");
     LaunchPresale.create_token_info :=
       LaunchPresale.create_token_info launch_ok;
     LaunchPresale.fee_share_config := config_ok;
     LaunchPresale.fee_share_config_basic := config_ok;
     LaunchPresale.create_launch_transaction := launchtx_ok;
     LaunchPresale.launch_send := inr "LAUNCHSIG1";
     LaunchPresale.launch_clock := 700000 |}.

(** A presale for one participant, filled by ALICE. *)
Definition db_full : PresaleDatabase float :=
  joined (created 1) "ALICE" (decimal 5 100) 2000.

(** The store after a launch of [db_full] in which the launch transaction
    was refused: the presale is active and holds the token id MINT1. *)
Definition db_after_refusal : PresaleDatabase float :=
  snd (fst (LaunchPresale.launchPresaleToken
              (launch_env true "MINT1" config_ok launchtx_refused)
              db_full PS1 false)).

(** The store after a launch of [db_full] that went through. *)
Definition db_launched : PresaleDatabase float :=
  snd (fst (LaunchPresale.launchPresaleToken launch_ok db_full PS1 false)).

(** A join request of [wallet] for 0.05 SOL arriving at [now]; the chain
    shows the deposit of 50 000 000 lamports into escrow. *)
Definition join_request (wallet : string) (now : Z)
  : JoinRoute.Request float :=
  {| JoinRoute.req_phase := JoinRoute.Arrived;
     JoinRoute.req_env :=
       {| JoinRoute.clock_expiry := now;
          JoinRoute.clock_check := now;
          JoinRoute.clock_add := now + 400;
          JoinRoute.lookup_first :=
            inr (Some {| JoinRoute.meta_err := false;
                         JoinRoute.escrow_balances :=
                           Some (of_int 1000000000, of_int 1050000000) |});
          JoinRoute.lookup_retry := inr None;
          JoinRoute.lookup_details := inr None;
          JoinRoute.launch_env := launch_ok |};
     JoinRoute.req_id := PS1;
     JoinRoute.req_body :=
       {| JoinRoute.body_wallet := wallet;
          JoinRoute.body_amount_sol := decimal 5 100;
          JoinRoute.body_tx_signature := String.append "TX-" wallet |} |}.

(** Two requests for the single place of a presale for one participant:
    both start before either has heard from the chain. *)
Definition racing : PresaleDatabase float * list (JoinRoute.Request float) :=
  (created 1, [join_request "ALICE" 2000; join_request "BOB" 2001]).

Definition interleaved : list nat := [0; 1; 0; 0]%nat.
Definition one_after_the_other : list nat := [0; 0; 0; 0]%nat.

End Scenarios.

(* ================================================================== *)
(** ** The statistics in the words of the specification *)

Module StatsSpec.
Import PresaleDb.

Section WithNumber.
Context {num : Type} `{Number num}.

(** What a presale contributes to the total raised: [p.total_sol || 0]. *)
Definition raised (p : Presale num) : num :=
  if truthy (total_sol p) then total_sol p else of_int 0.

(** The number of presales in a given status. *)
Fixpoint count_status (s : PresaleStatus) (ps : list (Presale num)) : nat :=
  match ps with
  | [] => O
  | p :: rest =>
      if status_eqb (status p) s then S (count_status s rest)
      else count_status s rest
  end.

(** The total raised, adding up the launched presales from the first to the
    last and passing over the others. *)
Fixpoint raised_from (acc : num) (ps : list (Presale num)) : num :=
  match ps with
  | [] => acc
  | p :: rest =>
      if status_eqb (status p) launched
      then raised_from (add acc (raised p)) rest
      else raised_from acc rest
  end.

(** Overwrites the total of a presale that is not launched. *)
Definition overwrite_unlaunched (v : num) (p : Presale num) : Presale num :=
  if status_eqb (status p) launched then p
  else set_totals v (participant_count p) p.

End WithNumber.
End StatsSpec.

(* ================================================================== *)
(** ** Expiry in the words of the specification *)

Module ExpirySpec.
Import PresaleDb.

Section WithNumber.
Context {num : Type} `{Number num}.

(** [presale.status === 'active' && new Date(presale.expires_at) < now] *)
Definition is_expired (now : Z) (p : Presale num) : bool :=
  status_eqb (status p) active && (expires_at p <? now).

(** What the expiry check does to one presale. *)
Definition expire (now : Z) (p : Presale num) : Presale num :=
  if is_expired now p then set_status failed p else p.

(** The lamports of an untaxed refund of [amount] SOL:
    [Math.floor(amount * LAMPORTS_PER_SOL) - 5000]. *)
Definition untaxed_refund_lamports (amount : num) : num :=
  sub (floor (mul amount (of_int Constants.LAMPORTS_PER_SOL))) (of_int 5000).

End WithNumber.
End ExpirySpec.

(* ================================================================== *)
(** ** The ledger invariant in the words of the specification *)

Module LedgerSpec.
Import PresaleDb.

Section WithNumber.
Context {num : Type} `{Number num}.

(** The participants of presale [pid] that are confirmed and neither
    refunded nor withdrawn, in store order. *)
Definition counted (db : PresaleDatabase num) (pid : string)
  : list (PresaleParticipant num) :=
  filter (counted_in pid) (participants db).

(** [participant_count] is the size of that set. *)
Definition count_consistent (db : PresaleDatabase num) (p : Presale num)
  : Prop :=
  participant_count p = Z.of_nat (List.length (counted db (id p))).

(** [total_sol] is the sum of [amount_sol] over that set. *)
Definition total_consistent (db : PresaleDatabase num) (p : Presale num)
  : Prop :=
  total_sol p = sum (map amount_sol (counted db (id p))).

Definition CountInvariant (db : PresaleDatabase num) : Prop :=
  Forall (count_consistent db) (presales db).

Definition TotalInvariant (db : PresaleDatabase num) : Prop :=
  Forall (total_consistent db) (presales db).

(** Presale ids are unique. *)
Definition unique_ids (db : PresaleDatabase num) : Prop :=
  NoDup (map id (presales db)).

(** No participant record refers to presale [pid]. *)
Definition unreferenced (db : PresaleDatabase num) (pid : string) : Prop :=
  forall x, In x (participants db) -> presale_id x <> pid.

(** What one store operation on presale [pid] does to the counted set and
    to the presale record: nothing; or a participant enters the set and the
    record found under [pid] gains its amount; or a participant leaves the
    set and the record loses its amount; or a participant leaves and there
    is no record under [pid]. *)
Inductive change (db db' : PresaleDatabase num) (pid : string) : Prop :=
| change_none :
    (forall j, counted db' j = counted db j) ->
    presales db' = presales db ->
    change db db' pid
| change_enter (x x' : PresaleParticipant num) (presale : Presale num)
    (l1 l2 : list (PresaleParticipant num)) :
    counted db pid = l1 ++ l2 ->
    counted db' pid = l1 ++ x' :: l2 ->
    amount_sol x' = amount_sol x ->
    (forall j, j <> pid -> counted db' j = counted db j) ->
    find (has_id pid) (presales db) = Some presale ->
    presales db'
    = update_first (has_id pid)
        (fun _ => set_totals (add (total_sol presale) (amount_sol x))
                             (participant_count presale + 1) presale)
        (presales db) ->
    change db db' pid
| change_leave (x : PresaleParticipant num) (presale : Presale num)
    (l1 l2 : list (PresaleParticipant num)) :
    counted db pid = l1 ++ x :: l2 ->
    counted db' pid = l1 ++ l2 ->
    (forall j, j <> pid -> counted db' j = counted db j) ->
    find (has_id pid) (presales db) = Some presale ->
    presales db'
    = update_first (has_id pid)
        (fun _ => set_totals (sub (total_sol presale) (amount_sol x))
                             (participant_count presale - 1) presale)
        (presales db) ->
    change db db' pid
| change_orphan :
    (forall j, j <> pid -> counted db' j = counted db j) ->
    find (has_id pid) (presales db) = None ->
    presales db' = presales db ->
    change db db' pid.

(** The participant cap of one presale, and the two counters it relates. *)
Definition capped (p : Presale num) : Prop :=
  participant_count p <= target_participants p.

Definition counters (p : Presale num) : Z * Z :=
  (participant_count p, target_participants p).

(** [mark] flags a record as resolved: the record it returns is counted
    in no presale. *)
Definition resolves (mark : PresaleParticipant num -> PresaleParticipant num)
  : Prop :=
  forall x j, counted_in j (mark x) = false.

(** The arithmetic adds without rounding: a term can be inserted anywhere
    in a sum by adding it to the result, and removed by subtracting it. *)
Definition ExactSums : Prop :=
  (forall (l1 l2 : list num) (a : num),
      sum (l1 ++ a :: l2) = add (sum (l1 ++ l2)) a)
  /\ (forall (l1 l2 : list num) (a : num),
         sub (sum (l1 ++ a :: l2)) a = sum (l1 ++ l2)).

End WithNumber.

Arguments ExactSums num {_}.

End LedgerSpec.

(* ================================================================== *)
(** ** The fee split in the words of the specification *)

Module FeeShareSpec.
Import PresaleDb.

Section WithNumber.
Context {num : Type} `{Number num}.

(** The creator's entry: the creator wallet with 500 bps. *)
Definition creator_share (presale : Presale num) : FeeShare num :=
  {| fs_wallet := creator_wallet presale; bps := of_int 500 |}.

(** A participant's entry: [floor((amount_sol / total_sol) * 9500)] bps. *)
Definition share_of (total : num) (p : PresaleParticipant num)
  : FeeShare num :=
  {| fs_wallet := wallet p;
     bps := floor (mul (div (amount_sol p) total) (of_int 9500)) |}.

(** The part of a participant before flooring. *)
Definition raw_share (total : num) (p : PresaleParticipant num) : num :=
  mul (div (amount_sol p) total) (of_int 9500).

(** What the floors leave of the 9500 bps. *)
Definition shortfall (total : num) (parts : list (PresaleParticipant num))
  : num :=
  sub (of_int 9500) (sum (map (fun p => bps (share_of total p)) parts)).

Definition with_remainder (extra : num) (f : FeeShare num) : FeeShare num :=
  {| fs_wallet := fs_wallet f; bps := add (bps f) extra |}.

End WithNumber.
End FeeShareSpec.

(* ================================================================== *)
(** ** lib/presale-db.ts: the listing queries and [updateLaunchFeePaid] *)

Module PresaleQueries.
Import PresaleDb.

(** An integer-valued JavaScript number as [parseInt] returns it: an
    integer, or NaN ([None]).  [a + b] is NaN as soon as one side is, and
    [ToIntegerOrInfinity], which [slice] applies to its arguments, reads NaN
    as 0. *)
Definition js_add (a b : option Z) : option Z :=
  match a, b with
  | Some x, Some y => Some (x + y)
  | _, _ => None
  end.

Definition ToIntegerOrInfinity (x : option Z) : Z :=
  match x with
  | Some z => z
  | None => 0
  end.

(** [arr.slice(start, end)]: a negative index counts from the end, an index
    past either end is clamped, and nothing is returned when the end does
    not lie after the start. *)
Definition slice {A : Type} (start final : option Z) (l : list A) : list A :=
  let len := Z.of_nat (List.length l) in
  let relativeStart := ToIntegerOrInfinity start in
  let k :=
    if relativeStart <? 0 then Z.max (len + relativeStart) 0
    else Z.min relativeStart len in
  let relativeEnd := ToIntegerOrInfinity final in
  let final :=
    if relativeEnd <? 0 then Z.max (len + relativeEnd) 0
    else Z.min relativeEnd len in
  firstn (Z.to_nat (final - k)) (skipn (Z.to_nat k) l).

Section WithNumber.
Context {num : Type} `{Number num}.

#[local] Abbreviation Presale := (Presale num).
#[local] Abbreviation PresaleDatabase := (PresaleDatabase num).

Definition getActivePresales (db : PresaleDatabase) (now : Z)
  : list Presale :=
  filter (fun p =>
            if negb (status_eqb (status p) active) then false
            else if expires_at p <? now then false
            else true)
         (presales db).

Definition getAllPresales (db : PresaleDatabase) (limit offset : option Z)
  : list Presale :=
  slice offset (js_add offset limit) (presales db).

Definition getLaunchedPresales (db : PresaleDatabase)
    (limit offset : option Z) : list Presale :=
  slice offset (js_add offset limit)
        (filter (fun p => status_eqb (status p) launched) (presales db)).

Definition set_launch_fee (signature : string) (p : Presale) : Presale :=
  {| id := id p; creator_wallet := creator_wallet p;
     token_name := token_name p; token_symbol := token_symbol p;
     description := description p; image_url := image_url p;
     twitter := twitter p; website := website p;
     min_sol_per_wallet := min_sol_per_wallet p;
     max_sol_per_wallet := max_sol_per_wallet p;
     target_participants := target_participants p;
     duration_minutes := duration_minutes p;
     launch_fee_paid := true;
     launch_fee_signature := Some signature;
     status := status p;
     created_at := created_at p; expires_at := expires_at p;
     launched_at := launched_at p; token_mint := token_mint p;
     launch_signature := launch_signature p;
     meteora_config_key := meteora_config_key p;
     total_sol := total_sol p;
     participant_count := participant_count p |}.

Definition updateLaunchFeePaid (db : PresaleDatabase)
    (i signature : string) : bool * PresaleDatabase :=
  match find (has_id i) (presales db) with
  | None => (false, db)
  | Some _ =>
      (true,
       with_presales
         (update_first (has_id i) (set_launch_fee signature) (presales db))
         db)
  end.

End WithNumber.

End PresaleQueries.

(* ================================================================== *)
(** ** app/api/presale/[id]/launch/route.ts *)

Module LaunchRoute.
Import PresaleDb.

Section WithNumber.
Context {num : Type} `{Number num}.

#[local] Abbreviation PresaleDatabase := (PresaleDatabase num).

(** The body of the 400 and of the 200 response; the message text is left
    out. *)
Inductive PostResponse : Type :=
| BadRequest (error : option (LaunchPresale.LaunchError num))
    (step token_mint meteora_config_key : option string)
| Launched (token_mint launch_signature meteora_config_key
            bags_url explorer_url : option string).

(** [force] is the truthiness of the [force] field of the body; a body that
    cannot be parsed counts as empty. *)
Definition POST (env : LaunchPresale.Env) (db : PresaleDatabase)
    (i : string) (force : bool)
  : PostResponse * PresaleDatabase * list (LaunchPresale.ExternalCall num) :=
  let '(result, db, trace) :=
    LaunchPresale.launchPresaleToken env db i force in
  (if negb (LaunchPresale.success result) then
     BadRequest (LaunchPresale.error result) (LaunchPresale.step result)
                (LaunchPresale.token_mint result)
                (LaunchPresale.meteora_config_key result)
   else
     Launched (LaunchPresale.token_mint result)
              (LaunchPresale.launch_signature result)
              (LaunchPresale.meteora_config_key result)
              (LaunchPresale.bags_url result)
              (LaunchPresale.explorer_url result),
   db, trace).

Record LaunchStatus : Type := {
  launch_status : PresaleStatus;
  launch_is_full : bool;
  launch_participant_count : Z;
  launch_target : Z;
  launch_max_wallets : Z;
  launch_token_mint : option string;
  can_launch : bool;
}.

(** [None] is the 404 response. *)
Definition GET (db : PresaleDatabase) (i : string) : option LaunchStatus :=
  match getPresaleById db i with
  | None => None
  | Some presale =>
      let readyToLaunch := checkAutoLaunch db i in
      Some {| launch_status := status presale;
              launch_is_full :=
                target_participants presale <=? participant_count presale;
              launch_participant_count := participant_count presale;
              launch_target := target_participants presale;
              launch_max_wallets := target_participants presale + 1;
              launch_token_mint := token_mint presale;
              can_launch := readyToLaunch |}
  end.

End WithNumber.

Arguments PostResponse num : clear implicits.

End LaunchRoute.

(* ================================================================== *)
(** ** app/api/presale/[id]/refund/route.ts: the quote *)

Module RefundQuote.
Import PresaleDb.

Section WithNumber.
Context {num : Type} `{Number num}.

#[local] Abbreviation PresaleDatabase := (PresaleDatabase num).

(** The handler reads the clock twice, once for each of the two flags, and
    names the tax wallet configured. *)
Record Env : Type := {
  clock_active : Z;
  clock_failed : Z;
  TAX_WALLET : string;
}.

Inductive QuoteError : Type :=
| MissingWallet
| PresaleNotFound
| NotParticipant
| DepositNotConfirmed
| CannotWithdraw (s : PresaleStatus).

Record Quote : Type := {
  presale_status : PresaleStatus;
  is_active : bool;
  is_failed : bool;
  original_amount : num;
  tax_percent : num;
  tax_amount : num;
  return_amount : num;
  tax_wallet : option string;
}.

Inductive Response : Type :=
| Error (http_status : Z) (e : QuoteError)
| Quoted (q : Quote).

(** [wallet] is the query parameter, the empty string when it is absent. *)
Definition GET (env : Env) (db : PresaleDatabase) (i wallet : string)
  : Response :=
  if String.eqb wallet "" then Error 400 MissingWallet
  else
    match getPresaleById db i with
    | None => Error 404 PresaleNotFound
    | Some presale =>
        match getParticipantByWallet db i wallet with
        | None => Error 404 NotParticipant
        | Some participant =>
            if negb (confirmed participant) then
              Error 400 DepositNotConfirmed
            else
              let isActivePresale :=
                status_eqb (status presale) active
                && (clock_active env <? expires_at presale) in
              let isFailedPresale :=
                status_eqb (status presale) failed
                || (status_eqb (status presale) active
                    && (expires_at presale <? clock_failed env)) in
              if negb isActivePresale && negb isFailedPresale then
                Error 400 (CannotWithdraw (status presale))
              else
                let amountSol := amount_sol participant in
                let txFeeSol := decimal 5 1000000 in
                let '(taxAmount, returnAmount) :=
                  if isActivePresale then
                    let taxCalc :=
                      Constants.calculateWithdrawalTax amountSol in
                    (Constants.taxAmount taxCalc,
                     sub (Constants.returnAmount taxCalc) txFeeSol)
                  else (of_int 0, sub amountSol txFeeSol) in
                Quoted
                  {| presale_status := status presale;
                     is_active := isActivePresale;
                     is_failed := isFailedPresale;
                     original_amount := amountSol;
                     tax_percent :=
                       if isActivePresale then
                         div (of_int
                                Constants.PRESALE_CONFIG.WITHDRAWAL_TAX_BPS)
                             (of_int 100)
                       else of_int 0;
                     tax_amount := taxAmount;
                     return_amount := returnAmount;
                     tax_wallet :=
                       if isActivePresale then Some (TAX_WALLET env)
                       else None |}
        end
    end.

End WithNumber.

Arguments Quote num : clear implicits.
Arguments Response num : clear implicits.

End RefundQuote.

(* ================================================================== *)
(** ** app/api/presale/[id]/route.ts *)

Module DetailRoute.
Import PresaleDb.

(** [s.slice(0, 4)] and [s.slice(-4)] on a string. *)
Definition first4 (s : string) : string := String.substring 0 4 s.

Definition last4 (s : string) : string :=
  String.substring (String.length s - 4) 4 s.

Section WithNumber.
Context {num : Type} `{Number num}.

#[local] Abbreviation PresaleDatabase := (PresaleDatabase num).

(** Two readings of the clock: the one of [checkExpiredPresales], then the
    handler's own. *)
Record Env : Type := {
  clock_expiry : Z;
  clock_now : Z;
  ESCROW_WALLET : string;
}.

Record ParticipantView : Type := {
  view_wallet : string;
  view_amount_sol : num;
  view_joined_at : Z;
  wallet_short : string;
}.

(** The body of the 200 response; the rounded [progress_percent] is left
    out. *)
Record Detail : Type := {
  detail_id : string;
  detail_creator_wallet : string;
  detail_token_name : string;
  detail_token_symbol : string;
  detail_description : string;
  detail_image_url : string;
  detail_twitter : option string;
  detail_website : option string;
  min_sol : num;
  max_sol : num;
  detail_target_participants : Z;
  detail_status : PresaleStatus;
  detail_created_at : Z;
  detail_expires_at : Z;
  time_remaining_seconds : Z;
  detail_total_sol : num;
  detail_participant_count : Z;
  detail_token_mint : option string;
  detail_launch_signature : option string;
  detail_participants : list ParticipantView;
  escrow_wallet : string;
  can_join : bool;
  can_refund : bool;
  is_full : bool;
}.

(** [None] is the 404 response. *)
Definition GET (env : Env) (db : PresaleDatabase) (i : string)
  : option Detail * PresaleDatabase :=
  let db := snd (checkExpiredPresales db (clock_expiry env)) in
  match getPresaleById db i with
  | None => (None, db)
  | Some presale =>
      let participants := getPresaleParticipants db i in
      let timeRemainingMs := Z.max 0 (expires_at presale - clock_now env) in
      let timeRemainingSeconds := timeRemainingMs / 1000 in
      let isExpired :=
        status_eqb (status presale) active && (timeRemainingMs <=? 0) in
      (Some
         {| detail_id := id presale;
            detail_creator_wallet := creator_wallet presale;
            detail_token_name := token_name presale;
            detail_token_symbol := token_symbol presale;
            detail_description := description presale;
            detail_image_url := image_url presale;
            detail_twitter := twitter presale;
            detail_website := website presale;
            min_sol := min_sol_per_wallet presale;
            max_sol := max_sol_per_wallet presale;
            detail_target_participants := target_participants presale;
            detail_status := if isExpired then failed else status presale;
            detail_created_at := created_at presale;
            detail_expires_at := expires_at presale;
            time_remaining_seconds := timeRemainingSeconds;
            detail_total_sol := total_sol presale;
            detail_participant_count := participant_count presale;
            detail_token_mint := token_mint presale;
            detail_launch_signature := launch_signature presale;
            detail_participants :=
              map (fun p =>
                     {| view_wallet := wallet p;
                        view_amount_sol := amount_sol p;
                        view_joined_at := joined_at p;
                        wallet_short :=
                          String.append (first4 (wallet p))
                            (String.append "..." (last4 (wallet p))) |})
                  participants;
            escrow_wallet := ESCROW_WALLET env;
            can_join :=
              status_eqb (status presale) active && negb isExpired
              && (participant_count presale <? target_participants presale);
            can_refund :=
              status_eqb (status presale) failed
              || status_eqb (status presale) refunding;
            is_full :=
              target_participants presale <=? participant_count presale |},
       db)
  end.

(** The POST handler of the same route. *)
Record Participation : Type := {
  part_amount_sol : num;
  part_joined_at : Z;
  part_confirmed : bool;
  part_refunded : bool;
}.

Inductive PostResponse : Type :=
| InvalidAction
| Checked (has_joined : bool) (participant : option Participation).

Definition POST (db : PresaleDatabase) (i wallet action : string)
  : PostResponse :=
  if String.eqb action "check_participation" then
    let participant := getParticipantByWallet db i wallet in
    Checked
      match participant with
      | Some p => confirmed p
      | None => false
      end
      match participant with
      | Some p =>
          Some {| part_amount_sol := amount_sol p;
                  part_joined_at := joined_at p;
                  part_confirmed := confirmed p;
                  part_refunded := refunded p |}
      | None => None
      end
  else InvalidAction.

End WithNumber.

Arguments Detail num : clear implicits.
Arguments ParticipantView num : clear implicits.
Arguments Participation num : clear implicits.
Arguments PostResponse num : clear implicits.

End DetailRoute.

(* ================================================================== *)
(** ** app/api/presale/route.ts *)

Module ListRoute.
Import PresaleDb PresaleQueries.

(** The status as the string the store holds. *)
Definition status_name (s : PresaleStatus) : string :=
  match s with
  | active => "active"
  | launched => "launched"
  | failed => "failed"
  | refunding => "refunding"
  end.

Section WithNumber.
Context {num : Type} `{Number num}.

#[local] Abbreviation Presale := (Presale num).
#[local] Abbreviation PresaleDatabase := (PresaleDatabase num).

(** Two readings of the clock: the one of [checkExpiredPresales] and the
    one of [getActivePresales]. *)
Record Env : Type := {
  clock_expiry : Z;
  clock_active : Z;
}.

(** The query string: the [filter] parameter if present, and what
    [parseInt] makes of the [limit] and [offset] parameters, or of ['50']
    and ['0'] when they are absent or empty. *)
Record Query : Type := {
  query_filter : option string;
  query_limit : option Z;
  query_offset : option Z;
}.

(** One entry of the list; the rounded [progress_percent] is left out. *)
Record Summary : Type := {
  summary_id : string;
  summary_token_name : string;
  summary_token_symbol : string;
  summary_image_url : string;
  summary_status : PresaleStatus;
  summary_participant_count : Z;
  summary_target_participants : Z;
  summary_total_sol : num;
  summary_expires_at : Z;
  summary_created_at : Z;
  summary_token_mint : option string;
  summary_creator_wallet : string;
}.

Definition summary (p : Presale) : Summary :=
  {| summary_id := id p;
     summary_token_name := token_name p;
     summary_token_symbol := token_symbol p;
     summary_image_url := image_url p;
     summary_status := status p;
     summary_participant_count := participant_count p;
     summary_target_participants := target_participants p;
     summary_total_sol := total_sol p;
     summary_expires_at := expires_at p;
     summary_created_at := created_at p;
     summary_token_mint := token_mint p;
     summary_creator_wallet := creator_wallet p |}.

Record Listing : Type := {
  listed : list Summary;
  stats : PresaleStats num;
  pagination_limit : option Z;
  pagination_offset : option Z;
  pagination_total : nat;
}.

Definition GET (env : Env) (db : PresaleDatabase) (q : Query)
  : Listing * PresaleDatabase :=
  let filter_name :=
    match query_filter q with
    | Some s => if String.eqb s "" then "all" else s
    | None => "all"
    end in
  let limit := query_limit q in
  let offset := query_offset q in
  let db := snd (checkExpiredPresales db (clock_expiry env)) in
  let presales :=
    if String.eqb filter_name "active" then
      getActivePresales db (clock_active env)
    else
      let presales := getAllPresales db limit offset in
      if negb (String.eqb filter_name "all") then
        filter (fun p => String.eqb (status_name (status p)) filter_name)
               presales
      else presales in
  let stats := getPresaleStats db in
  ({| listed := map summary presales;
      stats := stats;
      pagination_limit := limit;
      pagination_offset := offset;
      pagination_total := stats_total stats |},
   db).

(** *** POST: the launch is finalised *)

(** What [connection.confirmTransaction] does: throw ([inl]), or report
    whether the transaction failed ([inr], the truthiness of
    [confirmation.value.err]); and the clock. *)
Record FinalizeEnv : Type := {
  confirmTransaction : string + bool;
  finalize_clock : Z;
}.

(** The JSON body; an absent field is the empty string. *)
Record FinalizeBody : Type := {
  body_presale_id : string;
  body_signature : string;
  body_action : string;
}.

Inductive FinalizeError : Type :=
| InvalidAction
| MissingFields
| PresaleNotFound
| AlreadyLaunched (token_mint : option string)
| FailedOnChain.

(** The token handed to [insertToken] for the feed. *)
Record FeedToken : Type := {
  feed_token_mint : option string;
  feed_token_name : string;
  feed_token_symbol : string;
  feed_launch_wallet : string;
  feed_launch_signature : string;
}.

Inductive PostResponse : Type :=
| Error (http_status : Z) (e : FinalizeError)
| Finalized (presale_id : string) (token_mint : option string)
    (launch_signature : string).

(** The handler; the third component is what was handed to [insertToken],
    whose failure is caught and logged. *)
Definition POST (env : FinalizeEnv) (db : PresaleDatabase)
    (body : FinalizeBody)
  : PostResponse * PresaleDatabase * list FeedToken :=
  if negb (String.eqb (body_action body) "finalize_launch") then
    (Error 400 InvalidAction, db, [])
  else if String.eqb (body_presale_id body) ""
          || String.eqb (body_signature body) "" then
    (Error 400 MissingFields, db, [])
  else
    match getPresaleById db (body_presale_id body) with
    | None => (Error 404 PresaleNotFound, db, [])
    | Some presale =>
        if status_eqb (status presale) launched then
          (Error 400 (AlreadyLaunched (token_mint presale)), db, [])
        else
          match confirmTransaction env with
          | inr true => (Error 400 FailedOnChain, db, [])
          | _ =>
              let db :=
                snd (updatePresaleStatus db (body_presale_id body) launched
                       {| patch_token_mint := None;
                          patch_meteora_config_key := None;
                          patch_launch_signature :=
                            Some (body_signature body);
                          patch_launched_at := Some (finalize_clock env) |})
              in
              (Finalized (id presale) (token_mint presale)
                         (body_signature body),
               db,
               [{| feed_token_mint := token_mint presale;
                   feed_token_name := token_name presale;
                   feed_token_symbol := token_symbol presale;
                   feed_launch_wallet := creator_wallet presale;
                   feed_launch_signature := body_signature body |}])
          end
    end.

End WithNumber.

Arguments Summary num : clear implicits.
Arguments Listing num : clear implicits.

End ListRoute.

(* ================================================================== *)
(** ** app/api/presale/stats/route.ts *)

Module StatsRoute.
Import PresaleDb.

Section WithNumber.
Context {num : Type} `{Number num}.

Record HomeStats : Type := {
  total_presales : nat;
  active_presales : nat;
  launched_tokens : nat;
  total_sol_raised : num;
}.

Definition GET (db : PresaleDatabase num) : HomeStats :=
  let stats := getPresaleStats db in
  {| total_presales := stats_total stats;
     active_presales := stats_active stats;
     launched_tokens := stats_launched stats;
     total_sol_raised :=
       if truthy (stats_total_sol stats) then stats_total_sol stats
       else of_int 0 |}.

End WithNumber.

Arguments HomeStats num : clear implicits.

End StatsRoute.

(* ================================================================== *)
(** ** app/api/presale/create/route.ts *)

Module CreateRoute.
Import PresaleDb.

Section WithNumber.
Context {num : Type} `{Number num}.

#[local] Abbreviation Presale := (Presale num).
#[local] Abbreviation PresaleDatabase := (PresaleDatabase num).

(** What [connection.getTransaction] returns for the fee payment, as far
    as [verifyLaunchFeeTransaction] reads it: whether [meta.err] is set;
    what looking for the launcher's key among the account keys gives,
    [inl] being the message [new PublicKey] throws; if the index found lies
    within [postBalances], the balance there after and (if listed) before;
    and what looking for the creator's key gives. *)
Record FeeTransaction : Type := {
  fee_meta_err : bool;
  launcher_listed : string + bool;
  launcher_post_balance : option num;
  launcher_pre_balance : option num;
  creator_listed : string + bool;
}.

Inductive FeeError : Type :=
| TransactionNotFound
| TransactionFailed
| LauncherNotIncluded
| InsufficientAmount (received : num)
| NotFromCreator
| Thrown (message : string).

(** [inl] carries the [error] of an invalid result, [inr tt] is
    [{ valid: true }].  The look-up itself is [inl] when it throws. *)
Definition verifyLaunchFeeTransaction
    (lookup : string + option FeeTransaction) : FeeError + unit :=
  match lookup with
  | inl m => inl (Thrown m)
  | inr None => inl TransactionNotFound
  | inr (Some tx) =>
      if fee_meta_err tx then inl TransactionFailed
      else
        match launcher_listed tx with
        | inl m => inl (Thrown m)
        | inr false => inl LauncherNotIncluded
        | inr true =>
            let short :=
              match launcher_post_balance tx, launcher_pre_balance tx with
              | Some post, Some pre =>
                  let received := sub post pre in
                  let expectedLamports :=
                    mul Constants.PRESALE_CONFIG.LAUNCH_FEE_SOL
                        (of_int Constants.LAMPORTS_PER_SOL) in
                  if ltb received (mul expectedLamports (decimal 99 100))
                  then Some received else None
              | _, _ => None
              end in
            match short with
            | Some received => inl (InsufficientAmount received)
            | None =>
                match creator_listed tx with
                | inl m => inl (Thrown m)
                | inr false => inl NotFromCreator
                | inr true => inr tt
                end
            end
        end
  end.

(** The JSON body.  An absent string field is the empty string;
    [body_duration_minutes] and [body_target_participants] are what
    [parseInt] makes of the fields, [body_min_sol_per_wallet] and
    [body_max_sol_per_wallet] what [parseFloat] makes of them, [None] being
    NaN. *)
Record CreateBody : Type := {
  body_creator_wallet : string;
  body_token_name : string;
  body_token_symbol : string;
  body_description : string;
  body_image_url : string;
  body_twitter : option string;
  body_website : option string;
  body_min_sol_per_wallet : option num;
  body_max_sol_per_wallet : option num;
  body_duration_minutes : option Z;
  body_target_participants : option Z;
  body_launch_fee_signature : string;
}.

(** Everything outside the process that one request reads: the look-up of
    the fee payment, the clock and the four random characters of the id. *)
Record Env : Type := {
  getTransaction : string + option FeeTransaction;
  clock : Z;
  suffix : string;
}.

Inductive CreateError : Type :=
| MissingFields
| LaunchFeeRequired
| InvalidDuration
| TargetOutOfRange
| SymbolTooLong
| FeeVerificationFailed (e : FeeError)
| Exception (message : string).

Inductive Response : Type :=
| Error (http_status : Z) (e : CreateError)
| Created (presale : Presale) (max_wallets target_participants : Z).

Definition POST (env : Env) (db : PresaleDatabase) (body : CreateBody)
  : Response * PresaleDatabase :=
  if String.eqb (body_creator_wallet body) ""
     || String.eqb (body_token_name body) ""
     || String.eqb (body_token_symbol body) ""
     || String.eqb (body_description body) ""
     || String.eqb (body_image_url body) ""
  then (Error 400 MissingFields, db)
  else if String.eqb (body_launch_fee_signature body) "" then
    (Error 400 LaunchFeeRequired, db)
  else
    let duration := or_default (body_duration_minutes body) 30 in
    if negb (Constants.isValidDuration duration) then
      (Error 400 InvalidDuration, db)
    else
      let targetParts :=
        or_default (body_target_participants body)
                   Constants.PRESALE_CONFIG.DEFAULT_PARTICIPANTS in
      if (targetParts <? Constants.PRESALE_CONFIG.MIN_PARTICIPANTS)
         || (Constants.PRESALE_CONFIG.MAX_PARTICIPANTS <? targetParts)
      then (Error 400 TargetOutOfRange, db)
      else if (10 <? String.length (body_token_symbol body))%nat then
        (Error 400 SymbolTooLong, db)
      else
        match verifyLaunchFeeTransaction (getTransaction env) with
        | inl e => (Error 400 (FeeVerificationFailed e), db)
        | inr _ =>
            match
              createPresale db
                {| data_creator_wallet := body_creator_wallet body;
                   data_token_name := body_token_name body;
                   data_token_symbol := body_token_symbol body;
                   data_description := body_description body;
                   data_image_url := body_image_url body;
                   data_twitter := body_twitter body;
                   data_website := body_website body;
                   data_min_sol_per_wallet :=
                     Some (num_or_default
                             (body_min_sol_per_wallet body)
                             Constants.PRESALE_CONFIG.DEFAULT_MIN_SOL);
                   data_max_sol_per_wallet :=
                     Some (num_or_default
                             (body_max_sol_per_wallet body)
                             Constants.PRESALE_CONFIG.DEFAULT_MAX_SOL);
                   data_duration_minutes := Some duration;
                   data_target_participants := Some targetParts;
                   data_launch_fee_signature :=
                     body_launch_fee_signature body |}
                (clock env) (suffix env)
            with
            | (inl m, db) => (Error 500 (Exception m), db)
            | (inr presale, db) =>
                (Created presale (targetParts + 1) targetParts, db)
            end
        end.

End WithNumber.

Arguments FeeTransaction num : clear implicits.
Arguments FeeError num : clear implicits.
Arguments CreateBody num : clear implicits.
Arguments Env num : clear implicits.
Arguments Response num : clear implicits.

End CreateRoute.

(* ================================================================== *)
(** ** The store as its callers drive it *)

Module Store.
Import PresaleDb PresaleQueries.

Section WithNumber.
Context {num : Type} `{Number num}.

#[local] Abbreviation PresaleDatabase := (PresaleDatabase num).

(** One call of an exported function of [lib/presale-db.ts] that writes to
    the store. *)
Inductive Operation : Type :=
| CreatePresale (data : CreatePresaleData num) (now : Z) (suffix : string)
| UpdatePresaleStatus (i : string) (s : PresaleStatus)
    (additionalData : PresalePatch)
| UpdateLaunchFeePaid (i signature : string)
| AddParticipant (data : AddParticipantData num) (now : Z)
| ConfirmParticipant (pid w : string)
| MarkParticipantRefunded (pid w refund_signature : string)
| MarkParticipantWithdrawn (pid w withdraw_signature : string)
    (tax_paid : num)
| CalculateFeeShares (pid : string)
| CheckExpiredPresales (now : Z).

(** The store after the call. *)
Definition perform (o : Operation) (db : PresaleDatabase)
  : PresaleDatabase :=
  match o with
  | CreatePresale data now suffix => snd (createPresale db data now suffix)
  | UpdatePresaleStatus i s d => snd (updatePresaleStatus db i s d)
  | UpdateLaunchFeePaid i signature =>
      snd (updateLaunchFeePaid db i signature)
  | AddParticipant data now => snd (addParticipant db data now)
  | ConfirmParticipant pid w => snd (confirmParticipant db pid w)
  | MarkParticipantRefunded pid w s =>
      snd (markParticipantRefunded db pid w s)
  | MarkParticipantWithdrawn pid w s tax =>
      snd (markParticipantWithdrawn db pid w s tax)
  | CalculateFeeShares pid => snd (calculateFeeShares db pid)
  | CheckExpiredPresales now => snd (checkExpiredPresales db now)
  end.

(** [generatePresaleId] draws four characters: the suffix handed to
    [createPresale] has length four. *)
Definition drawn (o : Operation) : Prop :=
  match o with
  | CreatePresale _ _ suffix => String.length suffix = 4%nat
  | _ => True
  end.

(** The store after a sequence of calls. *)
Definition run (calls : list Operation) (db : PresaleDatabase)
  : PresaleDatabase :=
  fold_left (fun d o => perform o d) calls db.

(** A call that neither adds nor confirms a participant. *)
Definition quiet (o : Operation) : Prop :=
  match o with
  | AddParticipant _ _ => False
  | ConfirmParticipant _ _ => False
  | _ => True
  end.

(** The presale a call is made for, if it is made for one. *)
Definition target (o : Operation) : option string :=
  match o with
  | CreatePresale _ _ _ => None
  | UpdatePresaleStatus i _ _ => Some i
  | UpdateLaunchFeePaid i _ => Some i
  | AddParticipant data _ => Some (add_presale_id data)
  | ConfirmParticipant pid _ => Some pid
  | MarkParticipantRefunded pid _ _ => Some pid
  | MarkParticipantWithdrawn pid _ _ _ => Some pid
  | CalculateFeeShares pid => Some pid
  | CheckExpiredPresales _ => None
  end.

(** A call made for presale [j] or for none. *)
Definition aimed (j : string) (o : Operation) : Prop :=
  match target o with
  | Some k => k = j
  | None => True
  end.

(** [db'] is reached from [db] by calls that all satisfy [P]. *)
Definition via (P : Operation -> Prop) (db db' : PresaleDatabase) : Prop :=
  exists calls, Forall P calls /\ db' = run calls db.

(** The stores that calls of the exported functions build from the empty
    one, whoever makes them and in whatever order. *)
Inductive built : PresaleDatabase -> Prop :=
| built_empty : built emptyDb
| built_perform (o : Operation) (db : PresaleDatabase) :
    built db -> drawn o -> built (perform o db).

End WithNumber.

Arguments Operation num : clear implicits.

End Store.

(* ================================================================== *)
(** ** The API: every route handler on one store *)

Module Api.
Import PresaleDb.

Section WithNumber.
Context {num : Type} `{Number num}.

#[local] Abbreviation PresaleDatabase := (PresaleDatabase num).

Inductive Request : Type :=
| CreatePOST (env : CreateRoute.Env num) (body : CreateRoute.CreateBody num)
| ListGET (env : ListRoute.Env) (q : ListRoute.Query)
| FinalizePOST (env : ListRoute.FinalizeEnv) (body : ListRoute.FinalizeBody)
| StatsGET
| DetailGET (env : DetailRoute.Env) (i : string)
| DetailPOST (i wallet action : string)
| JoinPOST (env : JoinRoute.Env num) (i : string)
    (body : JoinRoute.JoinBody num)
| RefundGET (env : RefundQuote.Env) (i wallet : string)
| RefundPOST (env : RefundRoute.Env num) (i wallet : string)
| LaunchPOST (env : LaunchPresale.Env) (i : string) (force : bool)
| LaunchGET (i : string).

(** The store after the handler has run from start to end. *)
Definition serve (r : Request) (db : PresaleDatabase) : PresaleDatabase :=
  match r with
  | CreatePOST env body => snd (CreateRoute.POST env db body)
  | ListGET env q => snd (ListRoute.GET env db q)
  | FinalizePOST env body => snd (fst (ListRoute.POST env db body))
  | StatsGET => db
  | DetailGET env i => snd (DetailRoute.GET env db i)
  | DetailPOST _ _ _ => db
  | JoinPOST env i body => snd (fst (JoinRoute.POST env db i body))
  | RefundGET _ _ _ => db
  | RefundPOST env i wallet => snd (fst (RefundRoute.POST env db i wallet))
  | LaunchPOST env i force => snd (fst (LaunchRoute.POST env db i force))
  | LaunchGET _ => db
  end.

Definition drawn (r : Request) : Prop :=
  match r with
  | CreatePOST env _ => String.length (CreateRoute.suffix env) = 4%nat
  | _ => True
  end.

(** The store after the requests have been served one after another. *)
Definition serve_all (requests : list Request) (db : PresaleDatabase)
  : PresaleDatabase :=
  fold_left (fun d r => serve r d) requests db.

(** The presale a request names, if it names one. *)
Definition subject (r : Request) : option string :=
  match r with
  | FinalizePOST _ body => Some (ListRoute.body_presale_id body)
  | DetailGET _ i => Some i
  | DetailPOST i _ _ => Some i
  | JoinPOST _ i _ => Some i
  | RefundGET _ i _ => Some i
  | RefundPOST _ i _ => Some i
  | LaunchPOST _ i _ => Some i
  | LaunchGET i => Some i
  | _ => None
  end.

(** The stores reached from the empty one by requests served one after
    another. *)
Inductive served : PresaleDatabase -> Prop :=
| served_empty : served emptyDb
| served_request (r : Request) (db : PresaleDatabase) :
    served db -> drawn r -> served (serve r db).

End WithNumber.

Arguments Request num : clear implicits.

End Api.

(* ================================================================== *)
(** ** What the store keeps *)

Module StoreSpec.
Import PresaleDb.

Section WithNumber.
Context {num : Type} `{Number num}.

#[local] Abbreviation Presale := (Presale num).
#[local] Abbreviation PresaleParticipant := (PresaleParticipant num).
#[local] Abbreviation PresaleDatabase := (PresaleDatabase num).

(** The terms of a presale: what [createPresale] fixes. *)
Definition terms (p : Presale) :=
  (id p, creator_wallet p,
   (token_name p, token_symbol p, description p, image_url p),
   (twitter p, website p),
   (min_sol_per_wallet p, max_sol_per_wallet p),
   (target_participants p, duration_minutes p),
   (created_at p, expires_at p)).

(** The deposit a participant record stands for: what [addParticipant]
    fixes. *)
Definition deposit (x : PresaleParticipant) :=
  (participant_id x, presale_id x, wallet x, amount_sol x,
   joined_at x, tx_signature x).

Definition settled (x : PresaleParticipant) : bool :=
  refunded x || withdrawn x.

(** [x'] is a later state of the record [x]: the same deposit; confirmed if
    [x] was; and [x] itself if [x] was refunded or withdrawn. *)
Definition later (x x' : PresaleParticipant) : Prop :=
  deposit x' = deposit x
  /\ (confirmed x = true -> confirmed x' = true)
  /\ (settled x = true -> x' = x).

(** [p'] is the presale [p] after an update: the same terms, and the fee
    still marked as paid if it was. *)
Definition updated (p p' : Presale) : Prop :=
  terms p' = terms p
  /\ (launch_fee_paid p = true -> launch_fee_paid p' = true)
  /\ (launch_fee_signature p <> None -> launch_fee_signature p' <> None).

(** The store [db'] continues [db]: every presale is still there, in the
    same order and with the same terms, after those created since; every
    participant record is still there, in the same order and in a later
    state, before those added since; and the counter has not gone back. *)
Definition continues (db db' : PresaleDatabase) : Prop :=
  (exists created kept,
      presales db' = created ++ kept
      /\ Forall2 updated (presales db) kept)
  /\ (exists kept added,
         participants db' = kept ++ added
         /\ Forall2 later (participants db) kept)
  /\ lastPresaleNum db <= lastPresaleNum db'.

(** What [createPresale] checks and computes stays true of the presale. *)
Definition as_created (p : Presale) : Prop :=
  Constants.PRESALE_CONFIG.MIN_PARTICIPANTS <= target_participants p
    <= Constants.PRESALE_CONFIG.MAX_PARTICIPANTS
  /\ In (duration_minutes p) Constants.PRESALE_CONFIG.DURATION_OPTIONS
  /\ expires_at p = created_at p + duration_minutes p * 60 * 1000
  /\ launch_fee_paid p = true
  /\ launch_fee_signature p <> None.

(** What one call does to a participant record it finds: nothing; or it
    confirms a pending record; or it marks an unresolved record refunded or
    withdrawn; or it writes the fee share of a counted record. *)
Inductive touched (x : PresaleParticipant) : PresaleParticipant -> Prop :=
| touched_not : touched x x
| touched_confirmed (pid w : string) :
    pending_of pid w x = true -> touched x (set_confirmed x)
| touched_refunded (pid w signature : string) :
    unresolved_of pid w x = true -> touched x (set_refunded signature x)
| touched_withdrawn (pid w signature : string) (tax : num) :
    unresolved_of pid w x = true ->
    touched x (set_withdrawn signature tax x)
| touched_fee_share (pid : string) (bps : num) :
    counted_in pid x = true -> touched x (set_fee_share_bps bps x).

(** The call creates no presale and adds no record. *)
Definition in_place (db db' : PresaleDatabase) : Prop :=
  Forall2 updated (presales db) (presales db')
  /\ Forall2 touched (participants db) (participants db')
  /\ lastPresaleNum db' = lastPresaleNum db.

(** The call leaves the two totals of every presale and the amounts
    counted in every presale as they are. *)
Definition ledger_kept (db db' : PresaleDatabase) : Prop :=
  Forall2 (fun p p' =>
             id p' = id p
             /\ participant_count p' = participant_count p
             /\ total_sol p' = total_sol p)
          (presales db) (presales db')
  /\ forall j,
       map amount_sol (filter (counted_in j) (participants db'))
       = map amount_sol (filter (counted_in j) (participants db)).

(** What one call of an exported function does to the store. *)
Inductive step (db db' : PresaleDatabase) : Prop :=
| step_update :
    in_place db db' -> ledger_kept db db' -> step db db'
| step_change (pid : string) :
    in_place db db' -> LedgerSpec.change db db' pid -> step db db'
| step_create (p : Presale) (suffix : string) :
    presales db' = p :: presales db ->
    participants db' = participants db ->
    lastPresaleNum db' = lastPresaleNum db + 1 ->
    id p = generatePresaleId (lastPresaleNum db + 1) suffix ->
    String.length suffix = 4%nat ->
    as_created p ->
    participant_count p = 0 -> total_sol p = of_int 0 ->
    status p = active ->
    step db db'
| step_add (x : PresaleParticipant) (q : Presale) :
    find (has_id (presale_id x)) (presales db) = Some q ->
    find (unresolved_of (presale_id x) (wallet x)) (participants db)
    = None ->
    confirmed x = false -> refunded x = false -> withdrawn x = false ->
    refund_signature x = None -> withdraw_signature x = None ->
    withdraw_tax_paid x = None ->
    presales db' = presales db ->
    participants db' = participants db ++ [x] ->
    lastPresaleNum db' = lastPresaleNum db ->
    step db db'.

(** The id was made by [generatePresaleId] from a counter value that has
    been handed out. *)
Definition numbered (db : PresaleDatabase) (p : Presale) : Prop :=
  exists n suffix,
    id p = generatePresaleId n suffix
    /\ 1 <= n <= lastPresaleNum db
    /\ String.length suffix = 4%nat.

(** Every participant record belongs to a presale of the store. *)
Definition attached (db : PresaleDatabase) (x : PresaleParticipant)
  : Prop :=
  exists p, In p (presales db) /\ id p = presale_id x.

(** The unresolved records of wallet [w] in presale [pid]. *)
Definition open_records (db : PresaleDatabase) (pid w : string)
  : list PresaleParticipant :=
  filter (unresolved_of pid w) (participants db).

Definition one_record_each (db : PresaleDatabase) : Prop :=
  forall pid w, (List.length (open_records db pid w) <= 1)%nat.

(** The flags and what they carry agree: a record is not both refunded and
    withdrawn; it carries a refund signature exactly when refunded, a
    withdrawal signature and the tax paid exactly when withdrawn. *)
Definition flags_agree (x : PresaleParticipant) : Prop :=
  (refunded x && withdrawn x = false)
  /\ (refunded x = true <-> refund_signature x <> None)
  /\ (withdrawn x = true <-> withdraw_signature x <> None)
  /\ (withdrawn x = true <-> withdraw_tax_paid x <> None).

(** The creator of a presale holds no participant record in it. *)
Definition creator_apart (db : PresaleDatabase) : Prop :=
  forall p x,
    In p (presales db) -> In x (participants db) ->
    presale_id x = id p -> wallet x <> creator_wallet p.

(** Who created which presale, and which wallet holds a record in which
    presale, in store order. *)
Definition owners (db : PresaleDatabase) : list (string * string) :=
  map (fun p => (id p, creator_wallet p)) (presales db).

Definition holders (db : PresaleDatabase) : list (string * string) :=
  map (fun x => (presale_id x, wallet x)) (participants db).

(** All the participant records of presale [pid], whatever their state. *)
Definition records_of (db : PresaleDatabase) (pid : string)
  : list PresaleParticipant :=
  filter (fun x => String.eqb (presale_id x) pid) (participants db).

(** The participant count lies between 0 and the target. *)
Definition within_target (p : Presale) : Prop :=
  0 <= participant_count p <= target_participants p.

(** What every store built by the exported functions satisfies. *)
Definition sound (db : PresaleDatabase) : Prop :=
  0 <= lastPresaleNum db
  /\ Forall (numbered db) (presales db)
  /\ NoDup (map id (presales db))
  /\ Forall (attached db) (participants db)
  /\ Forall (fun p =>
                participant_count p
                = Z.of_nat (List.length
                              (filter (counted_in (id p))
                                      (participants db))))
            (presales db)
  /\ one_record_each db
  /\ Forall as_created (presales db)
  /\ Forall flags_agree (participants db).

End WithNumber.

End StoreSpec.

(* ================================================================== *)
(** ** What a launch sends and stores *)

Module LaunchSpec.
Import PresaleDb.

Section WithNumber.
Context {num : Type} `{Number num}.

(** A request that follows the registration of the metadata in a launch
    with launcher [launcher] and split [shares]: not another registration,
    and, if it asks for a fee-share configuration, one paid by the launcher
    with the wallets and the basis points of the split. *)
Definition follows (launcher : string) (shares : list (FeeShare num))
    (c : LaunchPresale.ExternalCall num) : Prop :=
  match c with
  | LaunchPresale.CreateTokenInfo _ _ => False
  | LaunchPresale.FeeShareConfig _ payer _ claimersArray basisPointsArray =>
      payer = launcher
      /\ claimersArray = map fs_wallet shares
      /\ basisPointsArray = map bps shares
  | _ => True
  end.

(** What is written on the presale when the launch transaction could not
    be created or sent, and when the launch went through. *)
Definition attempted (mint key : string) : PresalePatch :=
  {| patch_token_mint := Some mint;
     patch_meteora_config_key := Some key;
     patch_launch_signature := None;
     patch_launched_at := None |}.

Definition completed (mint key signature : string) (now : Z)
  : PresalePatch :=
  {| patch_token_mint := Some mint;
     patch_meteora_config_key := Some key;
     patch_launch_signature := Some signature;
     patch_launched_at := Some now |}.

(** The result of a launch that went through. *)
Definition launched_as (mint key signature : string)
  : LaunchPresale.LaunchResult num :=
  {| LaunchPresale.success := true;
     LaunchPresale.error := None;
     LaunchPresale.token_mint := Some mint;
     LaunchPresale.launch_signature := Some signature;
     LaunchPresale.meteora_config_key := Some key;
     LaunchPresale.bags_url :=
       Some (String.append "https://bags.fm/token/" mint);
     LaunchPresale.explorer_url :=
       Some (String.append "https://solscan.io/tx/" signature);
     LaunchPresale.step := None |}.

(** How a launch that reached the launch service ended, on the store
    [db] it started the requests from: without a trace on the store; or
    failed with the token id and the configuration key written on the
    presale, left active; or launched. *)
Definition ended (env : LaunchPresale.Env) (db : PresaleDatabase num)
    (i : string)
    (out : LaunchPresale.LaunchResult num * PresaleDatabase num) : Prop :=
  (LaunchPresale.success (fst out) = false /\ snd out = db)
  \/ (exists mint key,
         LaunchPresale.success (fst out) = false
         /\ LaunchPresale.token_mint (fst out) = Some mint
         /\ LaunchPresale.meteora_config_key (fst out) = Some key
         /\ snd out
            = snd (updatePresaleStatus db i active (attempted mint key)))
  \/ (exists mint key signature,
         fst out = launched_as mint key signature
         /\ snd out
            = snd (updatePresaleStatus db i launched
                     (completed mint key signature
                                (LaunchPresale.launch_clock env)))).

End WithNumber.

End LaunchSpec.

(* ================================================================== *)
(** ** Requests used as examples *)

Module RouteScenarios.
Import PresaleDb Scenarios.

(** ALICE asks to join [PS1] with 0.05 SOL at time [now]; the look-up of
    her deposit throws. *)
Definition join_blind (now : Z) : JoinRoute.Env float :=
  {| JoinRoute.clock_expiry := now;
     JoinRoute.clock_check := now;
     JoinRoute.clock_add := now;
     JoinRoute.lookup_first := inl "fetch failed";
     JoinRoute.lookup_retry := inl "fetch failed";
     JoinRoute.lookup_details := inl "fetch failed";
     JoinRoute.launch_env := launch_ok |}.

Definition alice_joins : JoinRoute.JoinBody float :=
  {| JoinRoute.body_wallet := "ALICE";
     JoinRoute.body_amount_sol := decimal 5 100;
     JoinRoute.body_tx_signature := "NOSUCHTX" |}.

(** The creator paid the launch fee: the launcher's balance rose by
    0.045 SOL, and the creator's key is among the account keys. *)
Definition fee_paid : CreateRoute.FeeTransaction float :=
  {| CreateRoute.fee_meta_err := false;
     CreateRoute.launcher_listed := inr true;
     CreateRoute.launcher_post_balance := Some (of_int 1045000000);
     CreateRoute.launcher_pre_balance := Some (of_int 1000000000);
     CreateRoute.creator_listed := inr true |}.

Definition create_env (now : Z) (suffix : string)
  : CreateRoute.Env float :=
  {| CreateRoute.getTransaction := inr (Some fee_paid);
     CreateRoute.clock := now;
     CreateRoute.suffix := suffix |}.

Definition create_body : CreateRoute.CreateBody float :=
  {| CreateRoute.body_creator_wallet := "CREATOR";
     CreateRoute.body_token_name := "Sixty Nine";
     CreateRoute.body_token_symbol := "$nice";
     CreateRoute.body_description := "A fair launch";
     CreateRoute.body_image_url := "https://example.org/nice.png";
     CreateRoute.body_twitter := None;
     CreateRoute.body_website := None;
     CreateRoute.body_min_sol_per_wallet := None;
     CreateRoute.body_max_sol_per_wallet := None;
     CreateRoute.body_duration_minutes := Some 10;
     CreateRoute.body_target_participants := Some 2;
     CreateRoute.body_launch_fee_signature := "FEE1" |}.

(** The store after the create request at 1000 and the join of ALICE at
    2000. *)
Definition served_two : PresaleDatabase float :=
  Api.serve (Api.JoinPOST (join_blind 2000) PS1 alice_joins)
    (Api.serve (Api.CreatePOST (create_env 1000 "ABCD") create_body)
               emptyDb).

(** Requests made for [PS1] after its launch: a refund, a join, a forced
    launch and a finalisation. *)
Definition after_launch : list (Api.Request float) :=
  [Api.RefundPOST (refund_env 5000 "SIG1") PS1 "ALICE";
   Api.JoinPOST (join_blind 6000) PS1 alice_joins;
   Api.LaunchPOST launch_ok PS1 true;
   Api.FinalizePOST
     {| ListRoute.confirmTransaction := inr false;
        ListRoute.finalize_clock := 7000 |}
     {| ListRoute.body_presale_id := PS1;
        ListRoute.body_signature := "SIG2";
        ListRoute.body_action := "finalize_launch" |}].

End RouteScenarios.

(* ================================================================== *)
(** ** What the refund route answers *)

Module RefundSpec.
Import PresaleDb.

Section WithNumber.
Context {num : Type} `{Number num}.

(** The errors that come from the escrow, the amounts and the chain, not
    from the state of the presale or of the participant. *)
Definition technical (e : RefundRoute.RefundError) : Prop :=
  match e with
  | RefundRoute.EscrowNotConfigured
  | RefundRoute.TooSmallAfterTax
  | RefundRoute.TooSmallAfterFees
  | RefundRoute.InsufficientEscrow
  | RefundRoute.TransactionFailed _ => True
  | _ => False
  end.

(** The store when the handler has made its check of the expiry. *)
Definition expiry_noted (env : RefundRoute.Env num)
    (db : PresaleDatabase num) (i : string) : PresaleDatabase num :=
  match getPresaleById db i with
  | Some presale =>
      if status_eqb (status presale) active
         && (expires_at presale <? RefundRoute.clock env)
      then snd (updatePresaleStatus db i failed no_patch)
      else db
  | None => db
  end.

End WithNumber.

End RefundSpec.

(* ================================================================== *)
(** * Properties *)

(** ** Binary64 values are compared through [===] *)

Lemma float_neq_of_eqb (x y : float) :
  PrimFloat.eqb x y = false -> PrimFloat.eqb y y = true -> x <> y.
Proof.
  intros Hxy Hyy Heq. rewrite Heq in Hxy. rewrite Hxy in Hyy. discriminate.
Qed.

Lemma find_some_true {A : Type} (f : A -> bool) (l : list A) (x : A) :
  find f l = Some x -> f x = true.
Proof. intros E. now apply find_some in E. Qed.

(** ** Withdrawal tax *)

Module WithdrawalTaxProps.
Import Constants Scenarios.



End WithdrawalTaxProps.

(** ** Aggregate statistics *)

Module StatsProps.
Import PresaleDb StatsSpec.

Section WithNumber.
Context {num : Type} `{Number num}.

Lemma length_filter_status (s : PresaleStatus) (ps : list (Presale num)) :
  List.length (filter (fun p => status_eqb (status p) s) ps)
  = count_status s ps.
Proof.
  induction ps as [|p rest IH]; cbn; [reflexivity|].
  destruct (status_eqb (status p) s); cbn; now rewrite IH.
Qed.

Lemma fold_launched (ps : list (Presale num)) (acc : num) :
  fold_left (fun s p => add s (if truthy (total_sol p) then total_sol p
                               else of_int 0))
            (filter (fun p => status_eqb (status p) launched) ps) acc
  = raised_from acc ps.
Proof.
  revert acc. induction ps as [|p rest IH]; intros acc; cbn; [reflexivity|].
  destruct (status_eqb (status p) launched) eqn:E; cbn; apply IH.
Qed.

Lemma raised_from_overwrite (v acc : num) (ps : list (Presale num)) :
  raised_from acc (map (overwrite_unlaunched v) ps) = raised_from acc ps.
Proof.
  revert acc. induction ps as [|p rest IH]; intros acc; cbn; [reflexivity|].
  unfold overwrite_unlaunched at 1 2.
  destruct (status_eqb (status p) launched) eqn:E.
  - rewrite E. apply IH.
  - cbn. rewrite E. apply IH.
Qed.

Lemma raised_from_filter (acc : num) (ps : list (Presale num)) :
  raised_from acc (filter (fun p => status_eqb (status p) launched) ps)
  = raised_from acc ps.
Proof.
  revert acc. induction ps as [|p rest IH]; intros acc; cbn; [reflexivity|].
  destruct (status_eqb (status p) launched) eqn:E; cbn.
  - rewrite E. apply IH.
  - apply IH.
Qed.

(** C10: the total reported by [getPresaleStats] adds up the totals of the
    launched presales, in store order and starting from 0; whatever active,
    failed or refunding presales hold does not enter it (their totals can be
    overwritten, or the presales dropped, without changing it); [total]
    counts all presales and [active], [launched], [failed] count the
    presales in that status. *)
Theorem getPresaleStats_launched_only (db : PresaleDatabase num) :
  stats_total_sol (getPresaleStats db) = raised_from (of_int 0) (presales db)
  /\ (forall v : num,
         stats_total_sol
           (getPresaleStats
              (with_presales (map (overwrite_unlaunched v) (presales db)) db))
         = stats_total_sol (getPresaleStats db))
  /\ stats_total_sol
       (getPresaleStats
          (with_presales
             (filter (fun p => status_eqb (status p) launched) (presales db))
             db))
     = stats_total_sol (getPresaleStats db)
  /\ stats_total (getPresaleStats db) = List.length (presales db)
  /\ stats_active (getPresaleStats db) = count_status active (presales db)
  /\ stats_launched (getPresaleStats db) = count_status launched (presales db)
  /\ stats_failed (getPresaleStats db) = count_status failed (presales db).
Proof.
  unfold getPresaleStats; cbn [stats_total_sol stats_total stats_active
                                 stats_launched stats_failed presales
                                 with_presales].
  rewrite !fold_launched.
  repeat split.
  - intros v. rewrite fold_launched. apply raised_from_overwrite.
  - apply raised_from_filter.
  - apply length_filter_status.
  - apply length_filter_status.
  - apply length_filter_status.
Qed.

End WithNumber.
End StatsProps.

(** ** Lazy expiry *)

Module ExpiryProps.
Import PresaleDb ExpirySpec.

Section WithNumber.
Context {num : Type} `{Number num}.

Lemma expire_loop_map (now : Z) (ps : list (Presale num)) :
  expire_loop now ps
  = (map (set_status failed) (filter (is_expired now) ps),
     map (expire now) ps).
Proof.
  induction ps as [|p rest IH]; cbn [expire_loop filter map];
    [reflexivity|].
  rewrite IH. unfold expire, is_expired.
  destruct (status_eqb (status p) active && (expires_at p <? now));
    reflexivity.
Qed.

Lemma find_has_id_map (g : Presale num -> Presale num) (i : string)
    (ps : list (Presale num)) :
  (forall p, id (g p) = id p) ->
  find (has_id i) (map g ps) = option_map g (find (has_id i) ps).
Proof.
  intros Hid. induction ps as [|p rest IH]; cbn; [reflexivity|].
  unfold has_id at 1 3. rewrite Hid.
  destruct (String.eqb (id p) i); [reflexivity | exact IH].
Qed.

Lemma id_expire (now : Z) (p : Presale num) : id (expire now p) = id p.
Proof. unfold expire. destruct (is_expired now p); reflexivity. Qed.

Lemma participants_updatePresaleStatus (db : PresaleDatabase num)
    (i : string) (s : PresaleStatus) (d : PresalePatch) :
  participants (snd (updatePresaleStatus db i s d)) = participants db.
Proof.
  unfold updatePresaleStatus.
  destruct (find (has_id i) (presales db)); reflexivity.
Qed.

(** A refund request on a presale that is not both active and unexpired
    never takes the withdrawal branch. *)
Lemma POST_untaxed (env : RefundRoute.Env num) (db : PresaleDatabase num)
    (i wallet : string) (p : Presale num) :
  getPresaleById db i = Some p ->
  status_eqb (status p) active && (RefundRoute.clock env <? expires_at p)
  = false ->
  (forall a b c sig,
      fst (fst (RefundRoute.POST env db i wallet))
      <> RefundRoute.Withdrawal a b c sig)
  /\ (forall l,
         ~ In (RefundRoute.ToTaxWallet l)
              (snd (RefundRoute.POST env db i wallet)))
  /\ (forall l sig,
         fst (fst (RefundRoute.POST env db i wallet)) = RefundRoute.Refund l sig ->
         exists part,
           find (unresolved_of i wallet) (participants db) = Some part
           /\ confirmed part = true
           /\ l = untaxed_refund_lamports (amount_sol part)
           /\ snd (RefundRoute.POST env db i wallet)
              = [RefundRoute.ToRecipient wallet l]).
Proof.
  intros Hp Hact. unfold RefundRoute.POST.
  destruct (String.eqb wallet "") eqn:Ew.
  { cbn. repeat split; try discriminate; auto. }
  rewrite Hp. cbv zeta. rewrite Hact.
  set (db1 := if status_eqb (status p) active
                 && (expires_at p <? RefundRoute.clock env)
              then snd (updatePresaleStatus db i failed no_patch) else db).
  assert (Hparts : participants db1 = participants db).
  { unfold db1.
    destruct (status_eqb (status p) active
              && (expires_at p <? RefundRoute.clock env));
      [apply participants_updatePresaleStatus | reflexivity]. }
  unfold getParticipantByWallet. rewrite Hparts.
  repeat match goal with
         | |- context [match ?x with _ => _ end] =>
             lazymatch x with
             | context [match _ with _ => _ end] => fail
             | _ => destruct x eqn:?
             end
         end; cbn;
    repeat split; try discriminate; try tauto;
    try (intros l [E | []]; discriminate).
  all: intros l sig E; injection E as <- <-; eexists; repeat split;
    try eassumption.
  all: match goal with
       | Hc : negb (confirmed _) = false |- _ =>
           now apply negb_false_iff in Hc
       end.
Qed.

(** C8, amended: [checkExpiredPresales] flips to [failed] exactly the
    presales that are active with [expires_at] earlier than now and leaves
    every other presale and all participants as they are; for a presale [p]
    so flipped, every later refund request, whatever the wallet and the
    environment, stays out of the withdrawal branch: no transfer to the tax
    wallet is made, and a settlement pays [floor(amount * 10^9) - 5000]
    lamports to the wallet.  The refund route treats [p] the same way when
    its own clock reading is past the expiry and the check has not run, and
    the join route, which runs the check first, turns every request for [p]
    away and adds no participant. *)
Theorem checkExpiredPresales_lazy_expiry
    (db : PresaleDatabase num) (now : Z) (i : string) (p : Presale num)
    (Hfound : getPresaleById db i = Some p)
    (Hactive : status p = active)
    (Hpast : expires_at p < now) :
  presales (snd (checkExpiredPresales db now))
  = map (expire now) (presales db)
  /\ fst (checkExpiredPresales db now)
     = map (set_status failed) (filter (is_expired now) (presales db))
  /\ participants (snd (checkExpiredPresales db now)) = participants db
  /\ getPresaleById (snd (checkExpiredPresales db now)) i
     = Some (set_status failed p)
  /\ (forall (env : RefundRoute.Env num) (wallet : string)
             (db0 : PresaleDatabase num),
         db0 = snd (checkExpiredPresales db now)
         \/ (db0 = db /\ expires_at p < RefundRoute.clock env) ->
         (forall a b c sig,
             fst (fst (RefundRoute.POST env db0 i wallet))
             <> RefundRoute.Withdrawal a b c sig)
         /\ (forall l,
                ~ In (RefundRoute.ToTaxWallet l)
                     (snd (RefundRoute.POST env db0 i wallet)))
         /\ (forall l sig,
                fst (fst (RefundRoute.POST env db0 i wallet))
                = RefundRoute.Refund l sig ->
                exists part,
                  find (unresolved_of i wallet) (participants db) = Some part
                  /\ confirmed part = true
                  /\ l = untaxed_refund_lamports (amount_sol part)
                  /\ snd (RefundRoute.POST env db0 i wallet)
                     = [RefundRoute.ToRecipient wallet l]))
  /\ (forall (env : JoinRoute.Env num) (body : JoinRoute.JoinBody num),
         expires_at p < JoinRoute.clock_expiry env ->
         (exists http e,
             fst (fst (JoinRoute.POST env db i body))
             = JoinRoute.Error http e)
         /\ participants (snd (fst (JoinRoute.POST env db i body)))
            = participants db).
Proof.
  assert (Hexp : is_expired now p = true).
  { unfold is_expired. rewrite Hactive. cbn. now apply Z.ltb_lt. }
  assert (Hloop : checkExpiredPresales db now
                  = (map (set_status failed)
                         (filter (is_expired now) (presales db)),
                     with_presales (map (expire now) (presales db)) db)).
  { unfold checkExpiredPresales. now rewrite expire_loop_map. }
  assert (Hfound' : getPresaleById
                      (with_presales (map (expire now) (presales db)) db) i
                    = Some (set_status failed p)).
  { unfold getPresaleById in *. cbn [presales with_presales].
    rewrite find_has_id_map by apply id_expire.
    rewrite Hfound. cbn. unfold expire. now rewrite Hexp. }
  rewrite Hloop at 1 2 3 4.
  cbn [fst snd presales participants with_presales].
  split; [reflexivity|]. split; [reflexivity|]. split; [reflexivity|].
  split; [exact Hfound'|].
  split.
  2: { intros env body Hclock.
       unfold JoinRoute.POST, JoinRoute.precheck.
       destruct (_ || _); [split; [eexists _, _|]; reflexivity|].
       assert (Hj : checkExpiredPresales db (JoinRoute.clock_expiry env)
                    = (map (set_status failed)
                           (filter (is_expired (JoinRoute.clock_expiry env))
                                   (presales db)),
                       with_presales
                         (map (expire (JoinRoute.clock_expiry env))
                              (presales db)) db)).
       { unfold checkExpiredPresales. now rewrite expire_loop_map. }
       rewrite Hj. cbn [snd]. unfold getPresaleById in *.
       cbn [presales with_presales].
       rewrite find_has_id_map by apply id_expire.
       rewrite Hfound. cbn [option_map]. unfold expire, is_expired.
       rewrite Hactive. cbn [status_eqb andb].
       apply Z.ltb_lt in Hclock. rewrite Hclock. cbn.
       split; [eexists _, _|]; reflexivity. }
  intros env wallet db0 Hdb0.
  assert (HP : exists q,
             getPresaleById db0 i = Some q
             /\ status_eqb (status q) active
                && (RefundRoute.clock env <? expires_at q) = false
             /\ participants db0 = participants db).
  { destruct Hdb0 as [-> | [-> Hclock]].
    - exists (set_status failed p). rewrite Hloop.
      repeat split. exact Hfound'.
    - exists p. repeat split; [exact Hfound|].
      rewrite Hactive; cbn; apply Z.ltb_ge; lia. }
  destruct HP as (q & Hq & Hna & Hparts).
  rewrite <- Hparts. apply (POST_untaxed env db0 i wallet q Hq Hna).
Qed.

End WithNumber.
End ExpiryProps.

(** ** Concrete runs on binary64 *)

Module ExpiryWitness.
Import PresaleDb ExpirySpec Scenarios.

(** The presale of [db_one] expires at 601000; the check runs at 700000. *)
Lemma checkExpiredPresales_lazy_expiry_witness :
  exists p,
    getPresaleById db_one PS1 = Some p
    /\ status p = active
    /\ expires_at p < 700000
    /\ getPresaleById (snd (checkExpiredPresales db_one 700000)) PS1
       = Some (set_status failed p).
Proof.
  eexists.
  refine ((fun H1 H2 H3 =>
             conj H1 (conj H2 (conj H3
               (proj1 (proj2 (proj2 (proj2
                  (ExpiryProps.checkExpiredPresales_lazy_expiry
                     db_one 700000 PS1 _ H1 H2 H3)))))))) _ _ _).
  - reflexivity.
  - reflexivity.
  - reflexivity.
Defined.

End ExpiryWitness.

(** ** Fee shares on the participant records *)

Module FeeSharePersistence.
Import PresaleDb Scenarios.

Section WithNumber.
Context {num : Type} `{Number num}.

(** What [calculateFeeShares] leaves on the records: every participant it
    counted holds the floor of its own share, the last one included. *)
Lemma calculateFeeShares_stores_floors (db : PresaleDatabase num)
    (pid : string) (presale : Presale num) (p : PresaleParticipant num) :
  getPresaleById db pid = Some presale ->
  getPresaleParticipants db pid <> [] ->
  In p (getPresaleParticipants (snd (calculateFeeShares db pid)) pid) ->
  fee_share_bps p
  = floor (mul (div (amount_sol p) (total_sol presale))
               (sub (of_int 10000) (of_int 500))).
Proof.
  unfold getPresaleById, getPresaleParticipants, calculateFeeShares.
  intros Hp Hne. rewrite Hp.
  destruct (filter (counted_in pid) (participants db)) as [|x r];
    [now contradiction Hne|].
  cbn [snd participants with_participants]. intros Hin.
  apply filter_In in Hin as [Hin Hc]. apply in_map_iff in Hin as (q & <- & _).
  destruct (counted_in pid q) eqn:Eq; [reflexivity|].
  rewrite Eq in Hc. discriminate Hc.
Qed.

End WithNumber.

(** C2 at three participants with 0.05 SOL each: the list returned gives
    CAROL, the last participant, 3166 + 2 = 3168 bps, while the record
    stored for CAROL keeps the floor value 3166; the remainder is added to
    the entry of the returned list only. *)
Lemma calculateFeeShares_remainder_not_persisted :
  map (fun f => (fs_wallet f, bps f)) (fst (calculateFeeShares db_three PS1))
  = [("CREATOR", of_int 500); ("ALICE", of_int 3166);
     ("BOB", of_int 3166); ("CAROL", of_int 3168)]
  /\ map (fun p => (wallet p, fee_share_bps p))
         (getPresaleParticipants (snd (calculateFeeShares db_three PS1)) PS1)
     = [("ALICE", of_int 3166); ("BOB", of_int 3166);
        ("CAROL", of_int 3166)].
Proof. apply conj; vm_compute; reflexivity. Qed.

End FeeSharePersistence.

(** ** Settling twice *)

Module SettleTwice.
Import PresaleDb Scenarios.

Section WithNumber.
Context {num : Type} `{Number num}.

(** The record handed to the refund route by [getParticipantByWallet] is
    never refunded and never withdrawn, so the route never answers
    "Already refunded" or "Already withdrawn". *)
Lemma POST_never_already_resolved (env : RefundRoute.Env num)
    (db : PresaleDatabase num) (i wallet : string) (http : Z)
    (sig : option string) :
  fst (fst (RefundRoute.POST env db i wallet))
  <> RefundRoute.Error http (RefundRoute.AlreadyRefunded sig)
  /\ fst (fst (RefundRoute.POST env db i wallet))
     <> RefundRoute.Error http (RefundRoute.AlreadyWithdrawn sig).
Proof.
  unfold RefundRoute.POST.
  destruct (String.eqb wallet ""); [split; discriminate|].
  destruct (getPresaleById db i) as [p|]; [|split; discriminate].
  cbv zeta.
  match goal with
  | |- context [getParticipantByWallet ?d i wallet] =>
      destruct (getParticipantByWallet d i wallet) as [part|] eqn:Epart
  end.
  2: { destruct (negb _ && negb _); split; discriminate. }
  apply find_some_true in Epart. unfold unresolved_of in Epart.
  apply andb_prop in Epart as [Epart Hw].
  apply andb_prop in Epart as [_ Hr].
  apply negb_true_iff in Hw, Hr. rewrite Hw, Hr.
  repeat match goal with
         | |- context [match ?x with _ => _ end] =>
             lazymatch x with
             | context [match _ with _ => _ end] => fail
             | _ => destruct x eqn:?
             end
         end; split; discriminate.
Qed.

End WithNumber.

(** C5 on a failed presale and on an active one: the first request settles
    ALICE's 0.05 SOL, and the same request made again is answered 404
    "Wallet did not participate in this presale", without the signature of
    the first settlement.  Nothing is paid the second time and the totals
    have gone down once. *)
Lemma settle_twice_second_answer :
  let refund1 := RefundRoute.POST (refund_env 700000 "SIG1") db_one PS1 "ALICE" in
  let refund2 :=
    RefundRoute.POST (refund_env 800000 "SIG2") (snd (fst refund1)) PS1 "ALICE" in
  let withdraw1 := RefundRoute.POST (refund_env 5000 "SIG3") db_one PS1 "ALICE" in
  let withdraw2 :=
    RefundRoute.POST (refund_env 6000 "SIG4") (snd (fst withdraw1)) PS1 "ALICE" in
  fst (fst refund1) = RefundRoute.Refund (of_int 49995000) "SIG1"
  /\ refund2 = (RefundRoute.Error 404 RefundRoute.NotParticipant,
                snd (fst refund1), [])
  /\ option_map (fun p => (participant_count p, total_sol p))
                (getPresaleById (snd (fst refund2)) PS1)
     = Some (0, of_int 0)
  /\ fst (fst withdraw1)
     = RefundRoute.Withdrawal
         (decimal 5 100)
         (Constants.taxAmount (Constants.calculateWithdrawalTax (decimal 5 100)))
         (of_int 47490000) "SIG3"
  /\ withdraw2 = (RefundRoute.Error 404 RefundRoute.NotParticipant,
                  snd (fst withdraw1), [])
  /\ option_map (fun p => (participant_count p, total_sol p))
                (getPresaleById (snd (fst withdraw2)) PS1)
     = Some (0, of_int 0).
Proof. cbv zeta. repeat apply conj; vm_compute; reflexivity. Qed.

End SettleTwice.

(** ** Launch orchestrator *)

Module LaunchProps.
Import PresaleDb Scenarios.

Section WithNumber.
Context {num : Type} `{Number num}.

Lemma presales_calculateFeeShares (db : PresaleDatabase num) (i : string) :
  presales (snd (calculateFeeShares db i)) = presales db.
Proof.
  unfold calculateFeeShares.
  destruct (find (has_id i) (presales db)); [|reflexivity].
  destruct (filter (counted_in i) (participants db)); reflexivity.
Qed.

Lemma find_update_first (i : string) (q p : Presale num)
    (ps : list (Presale num)) :
  find (has_id i) ps = Some p -> id q = i ->
  find (has_id i) (update_first (has_id i) (fun _ => q) ps) = Some q.
Proof.
  intros Hf Hq. induction ps as [|x rest IH]; [discriminate|].
  cbn in *. destruct (has_id i x) eqn:E.
  - cbn. unfold has_id. rewrite Hq, String.eqb_refl. reflexivity.
  - cbn. rewrite E. now apply IH.
Qed.

Lemma find_has_id (i : string) (p : Presale num) (ps : list (Presale num)) :
  find (has_id i) ps = Some p -> id p = i.
Proof.
  intros E. apply find_some in E as [_ E]. now apply String.eqb_eq in E.
Qed.

(** What [updatePresaleStatus] leaves in the store for a presale that is
    there. *)
Lemma getPresaleById_updatePresaleStatus (db : PresaleDatabase num)
    (i : string) (s : PresaleStatus) (d : PresalePatch) (p : Presale num) :
  getPresaleById db i = Some p ->
  getPresaleById (snd (updatePresaleStatus db i s d)) i
  = Some (object_assign d (set_status s p)).
Proof.
  unfold getPresaleById, updatePresaleStatus. intros E. rewrite E.
  cbn [snd presales with_presales].
  apply (find_update_first i _ p); [exact E|].
  cbn. now apply find_has_id in E.
Qed.

(** The launch step, the last of the sequence. *)
Lemma launch_step_outcome (env : LaunchPresale.Env) (db : PresaleDatabase num)
    (i launcher mint key : string) (presale q : Presale num)
    (meta : option string) (trace : list (LaunchPresale.ExternalCall num)) :
  getPresaleById db i = Some q ->
  let out :=
    LaunchPresale.launch_step env db i presale launcher mint meta key trace in
  LaunchPresale.step (fst (fst out)) <> Some "fee_share"
  /\ (LaunchPresale.step (fst (fst out)) = Some "launch_tx"
      \/ LaunchPresale.step (fst (fst out)) = Some "launch_send" ->
      LaunchPresale.success (fst (fst out)) = false
      /\ LaunchPresale.token_mint (fst (fst out)) = Some mint
      /\ LaunchPresale.meteora_config_key (fst (fst out)) = Some key
      /\ exists q',
          getPresaleById (snd (fst out)) i = Some q'
          /\ status q' = active
          /\ token_mint q' = Some mint
          /\ meteora_config_key q' = Some key)
  /\ exists rest, snd out = trace ++ rest.
Proof.
  intros Hq out. subst out. unfold LaunchPresale.launch_step. cbv zeta.
  destruct (LaunchPresale.create_launch_transaction env) as [m|r].
  { cbn. split; [discriminate|]. split; [intros [E|E]; discriminate|].
    eexists; reflexivity. }
  destruct (LaunchPresale.launchtx_success r); cbn [negb].
  2: { cbn [fst snd LaunchPresale.failure_at LaunchPresale.step
              LaunchPresale.success LaunchPresale.token_mint
              LaunchPresale.meteora_config_key].
       split; [discriminate|]. split; [|eexists; reflexivity].
       intros _. repeat apply conj; try reflexivity.
       eexists. split; [exact (getPresaleById_updatePresaleStatus _ _ _ _ _ Hq)|].
       repeat apply conj; reflexivity. }
  destruct (LaunchPresale.launchtx_payload r) as [tx|].
  - destruct (LaunchPresale.launch_send env) as [m|sig];
      cbn [fst snd LaunchPresale.failure_at LaunchPresale.step
             LaunchPresale.success LaunchPresale.token_mint
             LaunchPresale.meteora_config_key].
    + split; [discriminate|]. split.
      * intros _. repeat apply conj; try reflexivity.
        eexists. split; [exact (getPresaleById_updatePresaleStatus _ _ _ _ _ Hq)|].
        repeat apply conj; reflexivity.
      * rewrite <- app_assoc. eexists; reflexivity.
    + split; [discriminate|]. split; [intros [E|E]; discriminate|].
      rewrite <- app_assoc. eexists; reflexivity.
  - cbn [fst snd LaunchPresale.failure_at LaunchPresale.step
           LaunchPresale.success LaunchPresale.token_mint
           LaunchPresale.meteora_config_key].
    split; [discriminate|]. split; [|eexists; reflexivity].
    intros _. repeat apply conj; try reflexivity.
    eexists. split; [exact (getPresaleById_updatePresaleStatus _ _ _ _ _ Hq)|].
    repeat apply conj; reflexivity.
Qed.

(** The fee-share step and what follows it. *)
Lemma fee_share_step_outcome (env : LaunchPresale.Env)
    (db : PresaleDatabase num) (i launcher mint : string)
    (presale q : Presale num) (meta : option string)
    (feeShares : list (FeeShare num))
    (trace : list (LaunchPresale.ExternalCall num)) :
  getPresaleById db i = Some q ->
  let out :=
    LaunchPresale.fee_share_step env db i presale launcher mint meta
                                 feeShares trace in
  (LaunchPresale.step (fst (fst out)) = Some "launch_tx"
   \/ LaunchPresale.step (fst (fst out)) = Some "launch_send" ->
   LaunchPresale.success (fst (fst out)) = false
   /\ LaunchPresale.token_mint (fst (fst out)) = Some mint
   /\ exists key q',
       LaunchPresale.meteora_config_key (fst (fst out)) = Some key
       /\ getPresaleById (snd (fst out)) i = Some q'
       /\ status q' = active
       /\ token_mint q' = Some mint
       /\ meteora_config_key q' = Some key)
  /\ (LaunchPresale.step (fst (fst out)) = Some "fee_share" ->
      LaunchPresale.success (fst (fst out)) = false
      /\ LaunchPresale.token_mint (fst (fst out)) = Some mint
      /\ snd (fst out) = db)
  /\ exists rest, snd out = trace ++ rest.
Proof.
  intros Hq out. subst out. unfold LaunchPresale.fee_share_step. cbv zeta.
  assert (Hlaunch : forall key cfg tr,
    let out :=
      (let '(calls, _) :=
         LaunchPresale.sign_config_transactions
           (LaunchPresale.config_transactions cfg) in
       LaunchPresale.launch_step env db i presale launcher mint meta key
                                 (tr ++ calls)) in
    (LaunchPresale.step (fst (fst out)) = Some "launch_tx"
     \/ LaunchPresale.step (fst (fst out)) = Some "launch_send" ->
     LaunchPresale.success (fst (fst out)) = false
     /\ LaunchPresale.token_mint (fst (fst out)) = Some mint
     /\ exists key q',
         LaunchPresale.meteora_config_key (fst (fst out)) = Some key
         /\ getPresaleById (snd (fst out)) i = Some q'
         /\ status q' = active
         /\ token_mint q' = Some mint
         /\ meteora_config_key q' = Some key)
    /\ (LaunchPresale.step (fst (fst out)) = Some "fee_share" ->
        LaunchPresale.success (fst (fst out)) = false
        /\ LaunchPresale.token_mint (fst (fst out)) = Some mint
        /\ snd (fst out) = db)
    /\ exists rest, snd out = tr ++ rest).
  { intros key cfg tr.
    destruct (LaunchPresale.sign_config_transactions
                (LaunchPresale.config_transactions cfg)) as [calls ok].
    cbv zeta.
    destruct (launch_step_outcome env db i launcher mint key presale q meta
                                  (tr ++ calls) Hq) as (Hn & Hl & rest & Ht).
    split; [|split].
    - intros Hs. destruct (Hl Hs) as (S1 & S2 & S3 & q' & S4).
      split; [exact S1|]. split; [exact S2|]. exists key, q'. now split.
    - intros Hs. contradiction.
    - exists (calls ++ rest). rewrite Ht. now rewrite app_assoc. }
  destruct (LaunchPresale.fee_share_config env) as [m|first].
  { cbn. split; [intros [E|E]; discriminate|]. split; [discriminate|].
    eexists; reflexivity. }
  destruct (LaunchPresale.config_key first) as [key|].
  { destruct (Hlaunch key first
                (trace ++ [LaunchPresale.FeeShareConfig true launcher mint
                             (map fs_wallet feeShares) (map bps feeShares)]))
      as (A & B & rest & C).
    split; [exact A|]. split; [exact B|].
    exists ([LaunchPresale.FeeShareConfig true launcher mint
               (map fs_wallet feeShares) (map bps feeShares)] ++ rest).
    rewrite C. now rewrite app_assoc. }
  destruct (LaunchPresale.fee_share_config_basic env) as [m|second].
  { cbn. split; [intros [E|E]; discriminate|]. split; [discriminate|].
    rewrite <- app_assoc. eexists; reflexivity. }
  destruct (LaunchPresale.config_key second) as [key|].
  { destruct (Hlaunch key second
                ((trace ++ [LaunchPresale.FeeShareConfig true launcher mint
                              (map fs_wallet feeShares) (map bps feeShares)])
                 ++ [LaunchPresale.FeeShareConfig false launcher mint
                       (map fs_wallet feeShares) (map bps feeShares)]))
      as (A & B & rest & C).
    split; [exact A|]. split; [exact B|].
    rewrite C. rewrite <- !app_assoc. eexists; reflexivity. }
  cbn. split; [intros [E|E]; discriminate|].
  split; [intros _; repeat apply conj; reflexivity|].
  rewrite <- app_assoc. eexists; reflexivity.
Qed.

Ltac early_failure :=
  cbn; split; [intros [E|E]; discriminate|];
  split; [discriminate|]; intros ? _ E; now contradiction E.

(** C7, amended.  (a) When the sequence fails at the launch transaction,
    whether the service refuses to create it ([launch_tx]) or signing and
    sending it fails ([launch_send]), the presale is left in status
    [active] with the token id and the configuration key of this attempt
    stored on its record, and the result carries both.  (b) When it fails at
    the fee-share configuration ([fee_share]) the result carries the token
    id and the status of the presale is what it was before.  (c) Every
    attempt that reaches the launch service starts by registering the
    metadata again, whatever [token_mint] the record already holds: there
    is no resumption. *)
Theorem launch_failure_recovery (env : LaunchPresale.Env)
    (db : PresaleDatabase num) (i : string) (force : bool) :
  let out := LaunchPresale.launchPresaleToken env db i force in
  (LaunchPresale.step (fst (fst out)) = Some "launch_tx"
   \/ LaunchPresale.step (fst (fst out)) = Some "launch_send" ->
   LaunchPresale.success (fst (fst out)) = false
   /\ exists mint key q',
       LaunchPresale.token_mint (fst (fst out)) = Some mint
       /\ LaunchPresale.meteora_config_key (fst (fst out)) = Some key
       /\ getPresaleById (snd (fst out)) i = Some q'
       /\ status q' = active
       /\ token_mint q' = Some mint
       /\ meteora_config_key q' = Some key)
  /\ (LaunchPresale.step (fst (fst out)) = Some "fee_share" ->
      LaunchPresale.success (fst (fst out)) = false
      /\ (exists mint, LaunchPresale.token_mint (fst (fst out)) = Some mint)
      /\ option_map status (getPresaleById (snd (fst out)) i)
         = option_map status (getPresaleById db i))
  /\ (forall p, getPresaleById db i = Some p -> snd out <> [] ->
      exists rest,
        snd out
        = LaunchPresale.CreateTokenInfo (token_name p) (token_symbol p)
            :: rest).
Proof.
  intros out. subst out. unfold LaunchPresale.launchPresaleToken.
  destruct (LaunchPresale.BAGS_API_KEY env); cbn [negb]; [|early_failure].
  destruct (LaunchPresale.LAUNCHER_PRIVATE_KEY env) as [key|];
    [|early_failure].
  destruct (getPresaleById db i) as [p|] eqn:Hp; [|early_failure].
  destruct (status_eqb (status p) launched); [early_failure|].
  destruct (negb force && (participant_count p <? target_participants p));
    [early_failure|].
  destruct (getPresaleParticipants db i) as [|part parts]; [early_failure|].
  pose proof (presales_calculateFeeShares db i) as Hps.
  destruct (calculateFeeShares db i) as [feeShares db1]. cbn [snd] in Hps.
  assert (Hp1 : getPresaleById db1 i = Some p).
  { unfold getPresaleById in *. now rewrite Hps. }
  destruct (neqb (sum (map bps feeShares)) (of_int 10000)); [early_failure|].
  destruct key as [m|launcher]; [early_failure|].
  destruct (LaunchPresale.create_token_info env) as [m|r].
  { cbn. split; [intros [E|E]; discriminate|]. split; [discriminate|].
    intros p0 E _. injection E as <-. eexists; reflexivity. }
  destruct (if LaunchPresale.metadata_success r
            then LaunchPresale.metadata_tokenMint r else None) as [mint|].
  2: { cbn. split; [intros [E|E]; discriminate|]. split; [discriminate|].
       intros p0 E _. injection E as <-. eexists; reflexivity. }
  destruct (fee_share_step_outcome env db1 i launcher mint p p
              (LaunchPresale.metadata_tokenMetadata r) feeShares
              [LaunchPresale.CreateTokenInfo (token_name p) (token_symbol p)]
              Hp1) as (A & B & rest & C).
  split; [|split].
  - intros Hs. destruct (A Hs) as (S1 & S2 & key & q' & S3).
    split; [exact S1|]. exists mint, key, q'. now split.
  - intros Hs. destruct (B Hs) as (S1 & S2 & S3).
    split; [exact S1|]. split; [now exists mint|].
    rewrite S3, Hp1. reflexivity.
  - intros p0 E _. injection E as <-. exists rest. exact C.
Qed.

(** C6, amended.  For a presale whose status is [launched] the call fails
    whatever the [force] flag, changes nothing in the store and calls no
    service; when the API key and the launcher key are configured the
    failure is "Presale already launched" and carries the stored
    [token_mint] and [launch_signature]; when one of them is missing the
    failure is the configuration error, which carries neither.  The flag
    matters to the fullness check alone: a presale that is not launched
    and not full is refused without it, and for a full presale the call
    does the same with and without it. *)
Theorem launched_presale_never_relaunched (env : LaunchPresale.Env)
    (db : PresaleDatabase num) (i : string) (force : bool) (p : Presale num)
    (Hfound : getPresaleById db i = Some p)
    (Hlaunched : status p = launched) :
  let out := LaunchPresale.launchPresaleToken env db i force in
  LaunchPresale.success (fst (fst out)) = false
  /\ snd (fst out) = db
  /\ snd out = []
  /\ out = LaunchPresale.launchPresaleToken env db i (negb force)
  /\ (LaunchPresale.BAGS_API_KEY env = true ->
      LaunchPresale.LAUNCHER_PRIVATE_KEY env <> None ->
      LaunchPresale.error (fst (fst out))
      = Some LaunchPresale.PresaleAlreadyLaunched
      /\ LaunchPresale.token_mint (fst (fst out)) = token_mint p
      /\ LaunchPresale.launch_signature (fst (fst out)) = launch_signature p)
  /\ (LaunchPresale.BAGS_API_KEY env = false
      \/ LaunchPresale.LAUNCHER_PRIVATE_KEY env = None ->
      (LaunchPresale.error (fst (fst out))
       = Some LaunchPresale.ApiKeyNotConfigured
       \/ LaunchPresale.error (fst (fst out))
          = Some LaunchPresale.LauncherKeyNotConfigured)
      /\ LaunchPresale.token_mint (fst (fst out)) = None
      /\ LaunchPresale.launch_signature (fst (fst out)) = None)
  /\ (forall (j : string) (q : Presale num),
         getPresaleById db j = Some q ->
         status q <> launched ->
         LaunchPresale.BAGS_API_KEY env = true ->
         LaunchPresale.LAUNCHER_PRIVATE_KEY env <> None ->
         (participant_count q < target_participants q ->
          LaunchPresale.launchPresaleToken env db j false
          = (LaunchPresale.failure
               (LaunchPresale.PresaleNotFull (participant_count q)
                                             (target_participants q)),
             db, []))
         /\ (target_participants q <= participant_count q ->
             LaunchPresale.launchPresaleToken env db j true
             = LaunchPresale.launchPresaleToken env db j false)).
Proof.
  intros out. subst out. unfold LaunchPresale.launchPresaleToken.
  destruct (LaunchPresale.BAGS_API_KEY env); cbn [negb].
  2: { cbn. repeat apply conj; try reflexivity.
       all: try (intros E; discriminate E).
       all: try (intros j q _ _ E; discriminate E).
       intros _. repeat apply conj; auto. }
  destruct (LaunchPresale.LAUNCHER_PRIVATE_KEY env) as [key|].
  2: { cbn. repeat apply conj; try reflexivity.
       all: try (intros _ E; now contradiction E).
       all: try (intros j q _ _ _ E; now contradiction E).
       intros _. repeat apply conj; auto. }
  rewrite Hfound, Hlaunched. cbn [status_eqb fst snd
    LaunchPresale.success LaunchPresale.error LaunchPresale.token_mint
    LaunchPresale.launch_signature].
  repeat apply conj; try reflexivity.
  - intros _ _. repeat apply conj; reflexivity.
  - intros [E | E]; discriminate.
  - intros j q Hq Hs _ _. rewrite Hq.
    assert (Es : status_eqb (status q) launched = false).
    { destruct (status q); try reflexivity. now contradiction Hs. }
    rewrite Es. split.
    + intros Hlt. apply Z.ltb_lt in Hlt. rewrite Hlt. reflexivity.
    + intros Hge. apply Z.ltb_ge in Hge. rewrite Hge. reflexivity.
Qed.

End WithNumber.
End LaunchProps.

(** ** Launch orchestrator on concrete stores *)

Module LaunchRuns.
Import PresaleDb Scenarios.

(** C6, as stated, fails when [BAGS_API_KEY] is not set: the launched
    presale of [db_launched] holds the token id MINT1, and a forced launch
    returns the configuration error with no token id. *)
Lemma launched_without_api_key_carries_nothing :
  ~ (forall (env : LaunchPresale.Env) (db : PresaleDatabase float)
            (i : string) (force : bool) (p : Presale float),
        getPresaleById db i = Some p ->
        status p = launched ->
        LaunchPresale.success
          (fst (fst (LaunchPresale.launchPresaleToken env db i force)))
        = false
        /\ LaunchPresale.token_mint
             (fst (fst (LaunchPresale.launchPresaleToken env db i force)))
           = token_mint p
        /\ LaunchPresale.launch_signature
             (fst (fst (LaunchPresale.launchPresaleToken env db i force)))
           = launch_signature p).
Proof.
  intros Hclaim.
  assert (E : exists p, getPresaleById db_launched PS1 = Some p
                        /\ status p = launched
                        /\ token_mint p = Some "MINT1").
  { eexists. repeat apply conj; reflexivity. }
  destruct E as (p & E1 & E2 & E3).
  destruct (Hclaim (launch_env false "MINT1" config_ok launchtx_ok)
                   db_launched PS1 true p E1 E2) as (_ & Hmint & _).
  rewrite E3 in Hmint. vm_compute in Hmint. discriminate Hmint.
Qed.

(** A forced launch of the launched presale of [db_launched], with both
    keys configured. *)
Lemma launched_presale_never_relaunched_witness :
  exists p,
    getPresaleById db_launched PS1 = Some p
    /\ status p = launched
    /\ token_mint p = Some "MINT1"
    /\ LaunchPresale.token_mint
         (fst (fst (LaunchPresale.launchPresaleToken
                      launch_ok db_launched PS1 true)))
       = token_mint p.
Proof.
  assert (E : exists p, getPresaleById db_launched PS1 = Some p
                        /\ status p = launched
                        /\ token_mint p = Some "MINT1").
  { eexists. repeat apply conj; reflexivity. }
  destruct E as (p & E1 & E2 & E3).
  exists p. split; [exact E1|]. split; [exact E2|]. split; [exact E3|].
  destruct (LaunchProps.launched_presale_never_relaunched
              launch_ok db_launched PS1 true p E1 E2)
    as (_ & _ & _ & _ & Hconfigured & _).
  destruct Hconfigured as (_ & Hmint & _);
    [reflexivity | discriminate | exact Hmint].
Defined.

(** C7, as stated, fails in two places.  When the fee-share configuration
    is refused, the result names the token id MINT1 but the record is left
    without it.  And a presale that is active with MINT1 stored, after a
    launch whose transaction was refused, is launched again by registering
    the metadata anew, first of all the calls, and ends up with MINT2. *)
Lemma retry_registers_metadata_again :
  let refused :=
    LaunchPresale.launchPresaleToken
      (launch_env true "MINT1" config_refused launchtx_ok)
      db_full PS1 false in
  let retry :=
    LaunchPresale.launchPresaleToken
      (launch_env true "MINT2" config_ok launchtx_ok)
      db_after_refusal PS1 false in
  (LaunchPresale.step (fst (fst refused)) = Some "fee_share"
   /\ LaunchPresale.token_mint (fst (fst refused)) = Some "MINT1"
   /\ option_map (fun p => (status p, token_mint p))
                 (getPresaleById (snd (fst refused)) PS1)
      = Some (active, None))
  /\ (option_map (fun p => (status p, token_mint p))
                 (getPresaleById db_after_refusal PS1)
      = Some (active, Some "MINT1")
      /\ hd_error (snd retry)
         = Some (LaunchPresale.CreateTokenInfo "Sixty Nine" "NICE")
      /\ LaunchPresale.token_mint (fst (fst retry)) = Some "MINT2").
Proof. cbv zeta. repeat apply conj; vm_compute; reflexivity. Qed.

(** C8, as stated, fails when the next operation is a launch: the presale
    of [db_full] is active and expired since 601000; launched at 700000 it
    is not treated as failed, the launch goes through and the status
    becomes [launched]. *)
Lemma expired_presale_still_launches :
  option_map (fun p => (status p, expires_at p))
             (getPresaleById db_full PS1)
  = Some (active, 601000)
  /\ LaunchPresale.success
       (fst (fst (LaunchPresale.launchPresaleToken
                    launch_late db_full PS1 false)))
     = true
  /\ option_map (fun p => (status p, launched_at p))
                (getPresaleById
                   (snd (fst (LaunchPresale.launchPresaleToken
                                launch_late db_full PS1 false)))
                   PS1)
     = Some (launched, Some 700000).
Proof. repeat apply conj; vm_compute; reflexivity. Qed.

(** The launch of [db_full] in which the launch transaction is refused. *)
Lemma launch_failure_recovery_witness :
  let out :=
    LaunchPresale.launchPresaleToken
      (launch_env true "MINT1" config_ok launchtx_refused)
      db_full PS1 false in
  LaunchPresale.step (fst (fst out)) = Some "launch_tx"
  /\ exists mint key q',
      LaunchPresale.token_mint (fst (fst out)) = Some mint
      /\ LaunchPresale.meteora_config_key (fst (fst out)) = Some key
      /\ getPresaleById (snd (fst out)) PS1 = Some q'
      /\ status q' = active
      /\ token_mint q' = Some mint
      /\ meteora_config_key q' = Some key.
Proof.
  intros out.
  assert (S : LaunchPresale.step (fst (fst out)) = Some "launch_tx")
    by reflexivity.
  split; [exact S|].
  exact (proj2 (proj1 (LaunchProps.launch_failure_recovery
                         (launch_env true "MINT1" config_ok launchtx_refused)
                         db_full PS1 false)
                      (or_introl S))).
Defined.

End LaunchRuns.

(** ** The participant cap *)

Module ParticipantCap.
Import PresaleDb LedgerSpec Scenarios.

Section WithNumber.
Context {num : Type} `{Number num}.

Lemma pick_split (k : nat) (l before after : list (JoinRoute.Request num))
    (r : JoinRoute.Request num) :
  JoinRoute.pick k l = Some (before, r, after) -> l = before ++ r :: after.
Proof.
  revert k before. induction l as [|x rest IH]; intros k before E.
  - destruct k; discriminate.
  - destruct k as [|k]; cbn in E.
    + injection E as <- <- <-. reflexivity.
    + destruct (JoinRoute.pick k rest) as [[[b y] a]|] eqn:Ep;
        [|discriminate].
      injection E as <- <- <-. cbn. f_equal. now apply (IH k).
Qed.

(** Every schedule is a run of the event loop. *)
Lemma run_steps (schedule : list nat)
    (s : PresaleDatabase num * list (JoinRoute.Request num)) :
  JoinRoute.steps s (JoinRoute.run schedule s).
Proof.
  revert s. induction schedule as [|k later IH]; intros [db reqs]; cbn.
  - apply JoinRoute.steps_refl.
  - destruct (JoinRoute.pick k reqs) as [[[before r] after]|] eqn:Ep.
    + apply pick_split in Ep. subst reqs.
      eapply JoinRoute.steps_cons; [apply JoinRoute.step_turn | apply IH].
    + apply IH.
Qed.

Lemma counters_update_first (f : Presale num -> bool) (p q : Presale num)
    (ps : list (Presale num)) :
  find f ps = Some p -> counters q = counters p ->
  map counters (update_first f (fun _ => q) ps) = map counters ps.
Proof.
  intros Hf Hq. induction ps as [|y r IH]; [reflexivity|].
  cbn in Hf |- *. destruct (f y).
  - injection Hf as ->. cbn. now rewrite Hq.
  - cbn. now rewrite IH.
Qed.

Lemma counters_updatePresaleStatus (db : PresaleDatabase num) (i : string)
    (s : PresaleStatus) (d : PresalePatch) :
  map counters (presales (snd (updatePresaleStatus db i s d)))
  = map counters (presales db).
Proof.
  unfold updatePresaleStatus.
  destruct (find (has_id i) (presales db)) as [p|] eqn:E; [|reflexivity].
  cbn [snd presales with_presales].
  now apply (counters_update_first _ p).
Qed.

Lemma counters_checkExpiredPresales (db : PresaleDatabase num) (now : Z) :
  map counters (presales (snd (checkExpiredPresales db now)))
  = map counters (presales db).
Proof.
  unfold checkExpiredPresales. rewrite ExpiryProps.expire_loop_map.
  cbn [snd presales with_presales]. rewrite map_map.
  apply map_ext. intros p. unfold ExpirySpec.expire.
  destruct (ExpirySpec.is_expired now p); reflexivity.
Qed.

(** The launch changes status and token fields only. *)
Lemma counters_launchPresaleToken (env : LaunchPresale.Env)
    (db : PresaleDatabase num) (i : string) (force : bool) :
  map counters
      (presales (snd (fst (LaunchPresale.launchPresaleToken env db i force))))
  = map counters (presales db).
Proof.
  unfold LaunchPresale.launchPresaleToken.
  pose proof (LaunchProps.presales_calculateFeeShares db i) as Hps.
  destruct (calculateFeeShares db i) as [feeShares db1]. cbn [snd] in Hps.
  rewrite <- Hps.
  unfold LaunchPresale.fee_share_step, LaunchPresale.launch_step.
  repeat match goal with
         | |- context [match ?x with _ => _ end] =>
             lazymatch x with
             | context [match _ with _ => _ end] => fail
             | _ => destruct x eqn:?
             end
         end;
    cbn [fst snd]; try reflexivity; try (now rewrite Hps);
    apply counters_updatePresaleStatus.
Qed.

Lemma capped_counters (ps qs : list (Presale num)) :
  map counters qs = map counters ps -> Forall capped ps -> Forall capped qs.
Proof.
  revert qs. induction ps as [|p r IH]; intros [|q s] E Hc;
    try discriminate; [constructor|].
  cbn in E. injection E as E1 E2 E3. inversion Hc; subst.
  constructor; [|now apply IH].
  unfold capped in *. now rewrite E1, E2.
Qed.

(** A request that finds the presale full is turned away, and the store
    keeps its participants. *)
Lemma full_presale_rejects (env : JoinRoute.Env num)
    (db : PresaleDatabase num) (i : string) (body : JoinRoute.JoinBody num)
    (p : Presale num) :
  getPresaleById db i = Some p ->
  target_participants p <= participant_count p ->
  (exists http e,
      fst (fst (JoinRoute.POST env db i body)) = JoinRoute.Error http e)
  /\ participants (snd (fst (JoinRoute.POST env db i body)))
     = participants db.
Proof.
  intros Hp Hfull. unfold JoinRoute.POST, JoinRoute.precheck.
  destruct (_ || _); [split; [eexists _, _|]; reflexivity|].
  assert (Hp' : getPresaleById
                  (snd (checkExpiredPresales db (JoinRoute.clock_expiry env)))
                  i
                = Some (ExpirySpec.expire (JoinRoute.clock_expiry env) p)).
  { unfold getPresaleById, checkExpiredPresales in *.
    rewrite ExpiryProps.expire_loop_map. cbn [snd presales with_presales].
    rewrite ExpiryProps.find_has_id_map by apply ExpiryProps.id_expire.
    now rewrite Hp. }
  assert (Hparts : participants
                     (snd (checkExpiredPresales db (JoinRoute.clock_expiry env)))
                   = participants db).
  { unfold checkExpiredPresales. rewrite ExpiryProps.expire_loop_map.
    reflexivity. }
  rewrite Hp'.
  set (q := ExpirySpec.expire (JoinRoute.clock_expiry env) p).
  assert (Hq : (target_participants q <=? participant_count q) = true).
  { apply Z.leb_le. unfold q, ExpirySpec.expire.
    destruct (ExpirySpec.is_expired _ p); exact Hfull. }
  destruct (negb (status_eqb (status q) active));
    [split; [eexists _, _; reflexivity | exact Hparts]|].
  destruct (expires_at q <? JoinRoute.clock_check env).
  { split; [eexists _, _; reflexivity|]. cbn [fst snd].
    rewrite ExpiryProps.participants_updatePresaleStatus. exact Hparts. }
  rewrite Hq. split; [eexists _, _; reflexivity | exact Hparts].
Qed.

(** Served from start to end with no other request in between, a join
    keeps every presale within its target. *)
Lemma POST_keeps_cap (env : JoinRoute.Env num) (db : PresaleDatabase num)
    (i : string) (body : JoinRoute.JoinBody num) :
  Forall capped (presales db) ->
  Forall capped (presales (snd (fst (JoinRoute.POST env db i body)))).
Proof.
  intros Hcap. unfold JoinRoute.POST.
  assert (Hexp : Forall capped
                   (presales (snd (checkExpiredPresales
                                     db (JoinRoute.clock_expiry env))))).
  { apply (capped_counters (presales db));
      [apply counters_checkExpiredPresales | exact Hcap]. }
  destruct (JoinRoute.precheck env db i body) as [[r|] db1] eqn:Epre.
  { (* rejected before the look-up *)
    cbn [fst snd]. unfold JoinRoute.precheck in Epre.
    repeat match type of Epre with
           | context [match ?x with _ => _ end] =>
               lazymatch x with
               | context [match _ with _ => _ end] => fail
               | _ => destruct x eqn:?
               end
           end;
      inversion Epre; subst; try assumption.
    apply (capped_counters
             (presales (snd (checkExpiredPresales
                               db (JoinRoute.clock_expiry env)))));
      [apply counters_updatePresaleStatus | exact Hexp]. }
  (* admitted: the presale found has room *)
  assert (Hroom : Forall capped (presales db1)
                  /\ exists p, getPresaleById db1 i = Some p
                               /\ participant_count p < target_participants p).
  { unfold JoinRoute.precheck in Epre.
    repeat match type of Epre with
           | context [match ?x with _ => _ end] =>
               lazymatch x with
               | context [match _ with _ => _ end] => fail
               | _ => destruct x eqn:?
               end
           end;
      try discriminate Epre.
    all: inversion Epre; subst; split; [exact Hexp|].
    all: eexists; split; [eassumption|].
    all: match goal with
         | E : (_ <=? _) = false |- _ => apply Z.leb_gt in E; exact E
         end. }
  destruct Hroom as (Hcap1 & p & Hp & Hlt).
  destruct (JoinRoute.verify env body); [exact Hcap1|].
  unfold JoinRoute.commit.
  destruct (addParticipant db1 _ _) as [[added|] db2] eqn:Eadd.
  2: { cbn [fst snd]. unfold addParticipant in Eadd.
       repeat match type of Eadd with
              | context [match ?x with _ => _ end] => destruct x
              end; try discriminate Eadd; inversion Eadd; subst;
         exact Hcap1. }
  assert (Hps2 : presales db2 = presales db1).
  { unfold addParticipant in Eadd.
    repeat match type of Eadd with
           | context [match ?x with _ => _ end] => destruct x
           end; try discriminate Eadd.
    inversion Eadd; subst. reflexivity. }
  destruct (confirmParticipant db2 i (JoinRoute.body_wallet body))
    as [[[confirmed updated]|] db3] eqn:Econf.
  2: { cbn [fst snd]. unfold confirmParticipant in Econf.
       repeat match type of Econf with
              | context [match ?x with _ => _ end] => destruct x
              end; try discriminate Econf.
       all: inversion Econf; subst; now rewrite Hps2. }
  assert (Hcap3 : Forall capped (presales db3)).
  { unfold confirmParticipant in Econf.
    destruct (find (pending_of i (JoinRoute.body_wallet body))
                   (participants db2)) as [x|]; [|discriminate Econf].
    unfold getPresaleById in Hp. rewrite <- Hps2 in Hp. rewrite Hp in Econf.
    inversion Econf; subst. cbn [presales]. rewrite Hps2.
    rewrite Hps2 in Hp. clear - Hcap1 Hp Hlt.
    induction (presales db1) as [|y r IH]; [discriminate|].
    cbn in Hp |- *. inversion Hcap1; subst.
    destruct (has_id i y).
    - injection Hp as ->. constructor; [|assumption].
      unfold capped. cbn. lia.
    - constructor; [assumption | now apply IH]. }
  cbv zeta.
  destruct (_ && _).
  - pose proof (counters_launchPresaleToken
                  (JoinRoute.launch_env env) db3 i false) as Hl.
    destruct (LaunchPresale.launchPresaleToken
                (JoinRoute.launch_env env) db3 i false) as [[r db4] tr].
    cbn [fst snd] in *. now apply (capped_counters (presales db3)).
  - exact Hcap3.
Qed.

End WithNumber.

(** C4 with two requests for the one place of a presale: ALICE and BOB both
    pass the check "participant_count >= target_participants" while the
    count is 0, both wait for the chain, and both are confirmed.  The event
    loop reaches a store in which the presale, launched by ALICE's join, has
    2 participants for a target of 1.  Served one after the other, BOB is
    turned away and the count stays at 1. *)
Lemma racing_joins_exceed_target :
  JoinRoute.steps racing (JoinRoute.run interleaved racing)
  /\ snd (JoinRoute.run interleaved racing) = []
  /\ option_map (fun p => (participant_count p, target_participants p))
                (getPresaleById (fst racing) PS1)
     = Some (0, 1)
  /\ option_map (fun p => (participant_count p, target_participants p))
                (getPresaleById (fst (JoinRoute.run interleaved racing)) PS1)
     = Some (2, 1)
  /\ option_map (fun p => (participant_count p, target_participants p))
                (getPresaleById
                   (fst (JoinRoute.run one_after_the_other racing)) PS1)
     = Some (1, 1).
Proof.
  split; [apply run_steps|]. repeat apply conj; vm_compute; reflexivity.
Qed.

End ParticipantCap.

(** ** The ledger invariant *)

Module LedgerProps.
Import PresaleDb LedgerSpec Scenarios.

Section Lists.
Context {A : Type}.

(** The element found by [f] was not kept by [g], its replacement is: the
    filtered list gains the replacement at the place of the element. *)
Lemma filter_update_first_insert (f g : A -> bool) (h : A -> A)
    (l : list A) (x : A) :
  find f l = Some x -> g x = false -> g (h x) = true ->
  exists l1 l2,
    filter g l = l1 ++ l2
    /\ filter g (update_first f h l) = l1 ++ h x :: l2.
Proof.
  intros Hf Hx Hhx. induction l as [|y r IH]; [discriminate|].
  cbn in Hf |- *. destruct (f y) eqn:Ef.
  - injection Hf as ->. cbn. rewrite Hx, Hhx.
    exists [], (filter g r). split; reflexivity.
  - destruct (IH Hf) as (l1 & l2 & E1 & E2). cbn. rewrite E1, E2.
    destruct (g y).
    + exists (y :: l1), l2. split; reflexivity.
    + exists l1, l2. split; reflexivity.
Qed.

(** The element found by [f] was kept by [g], its replacement is not: the
    filtered list loses the element. *)
Lemma filter_update_first_remove (f g : A -> bool) (h : A -> A)
    (l : list A) (x : A) :
  find f l = Some x -> g x = true -> g (h x) = false ->
  exists l1 l2,
    filter g l = l1 ++ x :: l2
    /\ filter g (update_first f h l) = l1 ++ l2.
Proof.
  intros Hf Hx Hhx. induction l as [|y r IH]; [discriminate|].
  cbn in Hf |- *. destruct (f y) eqn:Ef.
  - injection Hf as ->. cbn. rewrite Hx, Hhx.
    exists [], (filter g r). split; reflexivity.
  - destruct (IH Hf) as (l1 & l2 & E1 & E2). cbn. rewrite E1, E2.
    destruct (g y).
    + exists (y :: l1), l2. split; reflexivity.
    + exists l1, l2. split; reflexivity.
Qed.

(** Neither the element found nor its replacement is kept by [g]. *)
Lemma filter_update_first_same (f g : A -> bool) (h : A -> A)
    (l : list A) (x : A) :
  find f l = Some x -> g x = false -> g (h x) = false ->
  filter g (update_first f h l) = filter g l.
Proof.
  intros Hf Hx Hhx. induction l as [|y r IH]; [discriminate|].
  cbn in Hf |- *. destruct (f y) eqn:Ef.
  - injection Hf as ->. cbn. now rewrite Hx, Hhx.
  - cbn. now rewrite (IH Hf).
Qed.

End Lists.

Section WithNumber.
Context {num : Type} `{Number num}.

Lemma map_id_update_first (i : string) (p' : Presale num)
    (ps : list (Presale num)) :
  id p' = i ->
  map id (update_first (has_id i) (fun _ => p') ps) = map id ps.
Proof.
  intros Hid. induction ps as [|y r IH]; [reflexivity|].
  cbn. destruct (has_id i y) eqn:E; cbn.
  - f_equal. unfold has_id in E. apply String.eqb_eq in E. congruence.
  - now rewrite IH.
Qed.

(** With unique ids, replacing the presale found under [i] leaves every
    other presale in place, and none of the others has the id [i]. *)
Lemma update_first_unique (i : string) (p p' : Presale num)
    (ps : list (Presale num)) :
  NoDup (map id ps) -> find (has_id i) ps = Some p ->
  forall q, In q (update_first (has_id i) (fun _ => p') ps) ->
            q = p' \/ (In q ps /\ id q <> i).
Proof.
  intros Hnd Hf q. induction ps as [|y r IH]; [discriminate|].
  cbn in Hf |- *. inversion Hnd as [|? ? Hnotin Hnd']; subst.
  destruct (has_id i y) eqn:E.
  - unfold has_id in E. apply String.eqb_eq in E.
    intros [<- | Hin]; [now left|]. right. split; [now right|].
    intros Eq. apply Hnotin. rewrite E, <- Eq. now apply in_map.
  - intros [<- | Hin].
    + right. split; [now left|]. unfold has_id in E.
      now apply String.eqb_neq in E.
    + destruct (IH Hnd' Hf Hin) as [-> | [Hq Hne]]; [now left|].
      right. split; [now right | exact Hne].
Qed.

Lemma find_none_ids (i : string) (ps : list (Presale num)) :
  find (has_id i) ps = None -> forall q, In q ps -> id q <> i.
Proof.
  intros Hf q Hin Eq. apply (find_none _ _ Hf) in Hin.
  unfold has_id in Hin. rewrite Eq, String.eqb_refl in Hin. discriminate.
Qed.

Lemma counted_in_other (j pid : string) (x : PresaleParticipant num) :
  presale_id x = pid -> j <> pid -> counted_in j x = false.
Proof.
  intros E Hne. unfold counted_in. rewrite E.
  assert (En : String.eqb pid j = false).
  { apply String.eqb_neq. congruence. }
  now rewrite En.
Qed.

Lemma pending_facts (pid w : string) (x : PresaleParticipant num) :
  pending_of pid w x = true ->
  presale_id x = pid /\ confirmed x = false
  /\ refunded x = false /\ withdrawn x = false.
Proof.
  unfold pending_of. intros E.
  repeat (apply andb_prop in E as [E ?]).
  apply String.eqb_eq in E.
  repeat split; try assumption; now apply negb_true_iff.
Qed.

Lemma unresolved_facts (pid w : string) (x : PresaleParticipant num) :
  unresolved_of pid w x = true ->
  presale_id x = pid /\ refunded x = false /\ withdrawn x = false.
Proof.
  unfold unresolved_of. intros E.
  repeat (apply andb_prop in E as [E ?]).
  apply String.eqb_eq in E.
  repeat split; try assumption; now apply negb_true_iff.
Qed.

Lemma confirmParticipant_change (db : PresaleDatabase num) (pid w : string) :
  change db (snd (confirmParticipant db pid w)) pid.
Proof.
  unfold confirmParticipant.
  destruct (find (pending_of pid w) (participants db)) as [x|] eqn:Ex;
    [|now apply change_none].
  destruct (find (has_id pid) (presales db)) as [presale|] eqn:Ep;
    [|now apply change_none].
  cbn [snd].
  destruct (pending_facts pid w x (find_some_true _ _ _ Ex))
    as (Hpid & Hc & Hr & Hw).
  assert (Hold : counted_in pid x = false).
  { unfold counted_in. now rewrite Hc, andb_false_r. }
  assert (Hnew : counted_in pid (set_confirmed x) = true).
  { unfold counted_in. cbn. rewrite Hpid, String.eqb_refl, Hr, Hw.
    reflexivity. }
  destruct (filter_update_first_insert
              (pending_of pid w) (counted_in pid) (fun _ => set_confirmed x)
              (participants db) x Ex Hold Hnew) as (l1 & l2 & E1 & E2).
  apply (change_enter db _ pid x (set_confirmed x) presale l1 l2);
    try assumption; try reflexivity.
  intros j Hj. unfold counted. cbn [participants].
  apply (filter_update_first_same _ _ _ _ x Ex);
    apply counted_in_other with (pid := pid); auto.
Qed.

Lemma settle_change (mark : PresaleParticipant num -> PresaleParticipant num)
    (db : PresaleDatabase num) (pid w : string) :
  resolves mark -> change db (snd (settle mark db pid w)) pid.
Proof.
  intros Hmark. unfold settle.
  destruct (find (unresolved_of pid w) (participants db)) as [x|] eqn:Ex;
    [|now apply change_none].
  cbn [snd].
  destruct (unresolved_facts pid w x (find_some_true _ _ _ Ex))
    as (Hpid & Hr & Hw).
  assert (Hother : forall j, j <> pid ->
            filter (counted_in j)
                   (update_first (unresolved_of pid w) mark (participants db))
            = filter (counted_in j) (participants db)).
  { intros j Hj. apply (filter_update_first_same _ _ _ _ x Ex);
      [now apply counted_in_other with (pid := pid) | apply Hmark]. }
  destruct (confirmed x) eqn:Hc.
  - assert (Hold : counted_in pid x = true).
    { unfold counted_in. rewrite Hpid, String.eqb_refl, Hc, Hr, Hw.
      reflexivity. }
    destruct (filter_update_first_remove
                (unresolved_of pid w) (counted_in pid) mark
                (participants db) x Ex Hold (Hmark x pid))
      as (l1 & l2 & E1 & E2).
    destruct (find (has_id pid) (presales db)) as [presale|] eqn:Ep.
    + apply (change_leave db _ pid x presale l1 l2);
        try assumption; reflexivity.
    + apply change_orphan; try assumption; reflexivity.
  - assert (Hsame : forall j,
              filter (counted_in j)
                     (update_first (unresolved_of pid w) mark
                                   (participants db))
              = filter (counted_in j) (participants db)).
    { intros j. apply (filter_update_first_same _ _ _ _ x Ex);
        [|apply Hmark].
      unfold counted_in. now rewrite Hc, andb_false_r. }
    apply change_none; [exact Hsame|].
    destruct (find (has_id pid) (presales db)); reflexivity.
Qed.

Lemma resolves_refunded (sig : string) :
  resolves (set_refunded (num := num) sig).
Proof.
  intros x j. unfold counted_in. cbn.
  now rewrite andb_false_r.
Qed.

Lemma resolves_withdrawn (sig : string) (tax : num) :
  resolves (set_withdrawn sig tax).
Proof.
  intros x j. unfold counted_in. cbn. now rewrite andb_false_r.
Qed.

Lemma change_unique (db db' : PresaleDatabase num) (pid : string) :
  change db db' pid -> unique_ids db -> unique_ids db'.
Proof.
  unfold unique_ids.
  intros [Hc Hp | x x' presale l1 l2 _ _ _ _ Hf Hp
         | x presale l1 l2 _ _ _ Hf Hp | _ _ Hp] Hu;
    rewrite Hp; try exact Hu.
  all: rewrite map_id_update_first; [exact Hu|].
  all: cbn; now apply LaunchProps.find_has_id in Hf.
Qed.

(** The shape shared by the two invariants: [fits db p] relates the record
    [p] to the counted set of its presale. *)
Lemma change_preserves
    (fits : PresaleDatabase num -> Presale num -> Prop)
    (db db' : PresaleDatabase num) (pid : string) :
  (forall q, counted db' (id q) = counted db (id q) ->
             fits db q -> fits db' q) ->
  (forall x x' presale l1 l2,
      counted db pid = l1 ++ l2 -> counted db' pid = l1 ++ x' :: l2 ->
      amount_sol x' = amount_sol x -> id presale = pid ->
      fits db presale ->
      fits db' (set_totals (add (total_sol presale) (amount_sol x))
                           (participant_count presale + 1) presale)) ->
  (forall x presale l1 l2,
      counted db pid = l1 ++ x :: l2 -> counted db' pid = l1 ++ l2 ->
      id presale = pid -> fits db presale ->
      fits db' (set_totals (sub (total_sol presale) (amount_sol x))
                           (participant_count presale - 1) presale)) ->
  unique_ids db -> change db db' pid ->
  Forall (fits db) (presales db) -> Forall (fits db') (presales db').
Proof.
  intros Hsame Henter Hleave Hu Hch Hinv.
  rewrite Forall_forall in *.
  destruct Hch as [Hc Hp | x x' presale l1 l2 E1 E2 Ea Ho Hf Hp
                  | x presale l1 l2 E1 E2 Ho Hf Hp | Ho Hf Hp].
  - intros q Hq. rewrite Hp in Hq. apply Hsame; [apply Hc | now apply Hinv].
  - intros q Hq. rewrite Hp in Hq.
    destruct (update_first_unique pid presale _ _ Hu Hf q Hq)
      as [-> | [Hin Hne]].
    + apply (Henter x x' presale l1 l2); try assumption.
      * now apply LaunchProps.find_has_id in Hf.
      * apply Hinv. now apply find_some in Hf.
    + apply Hsame; [now apply Ho | now apply Hinv].
  - intros q Hq. rewrite Hp in Hq.
    destruct (update_first_unique pid presale _ _ Hu Hf q Hq)
      as [-> | [Hin Hne]].
    + apply (Hleave x presale l1 l2); try assumption.
      * now apply LaunchProps.find_has_id in Hf.
      * apply Hinv. now apply find_some in Hf.
    + apply Hsame; [now apply Ho | now apply Hinv].
  - intros q Hq. rewrite Hp in Hq.
    apply Hsame; [|now apply Hinv].
    apply Ho. now apply (find_none_ids pid (presales db)).
Qed.

Lemma change_count (db db' : PresaleDatabase num) (pid : string) :
  unique_ids db -> change db db' pid ->
  CountInvariant db -> CountInvariant db'.
Proof.
  apply change_preserves; unfold count_consistent.
  - intros q E Hq. now rewrite E.
  - intros x x' presale l1 l2 E1 E2 _ Hid Hq. cbn.
    rewrite Hid in *. rewrite Hq, E1, E2. rewrite !length_app. cbn. lia.
  - intros x presale l1 l2 E1 E2 Hid Hq. cbn.
    rewrite Hid in *. rewrite Hq, E1, E2. rewrite !length_app. cbn. lia.
Qed.

Lemma change_total (db db' : PresaleDatabase num) (pid : string) :
  ExactSums num -> unique_ids db -> change db db' pid ->
  TotalInvariant db -> TotalInvariant db'.
Proof.
  intros [Hins Hrem]. apply change_preserves; unfold total_consistent.
  - intros q E Hq. now rewrite E.
  - intros x x' presale l1 l2 E1 E2 Ea Hid Hq. cbn.
    rewrite Hid in *. rewrite Hq, E1, E2. rewrite !map_app. cbn [map].
    rewrite Ea. symmetry. apply Hins.
  - intros x presale l1 l2 E1 E2 Hid Hq. cbn.
    rewrite Hid in *. rewrite Hq, E1, E2. rewrite !map_app. cbn [map].
    apply Hrem.
Qed.

(** What [createPresale] adds to the store. *)
Lemma createPresale_new (db db' : PresaleDatabase num)
    (data : CreatePresaleData num) (now : Z) (suffix : string)
    (p : Presale num) :
  createPresale db data now suffix = (inr p, db') ->
  total_sol p = of_int 0 /\ participant_count p = 0 /\ status p = active
  /\ presales db' = p :: presales db
  /\ participants db' = participants db.
Proof.
  unfold createPresale.
  destruct (negb _); [discriminate|].
  destruct (_ || _); [discriminate|].
  destruct (String.eqb _ _); [discriminate|].
  intros E. injection E as <- <-. repeat split.
Qed.

Lemma createPresale_invariant
    (fits : PresaleDatabase num -> Presale num -> Prop)
    (db db' : PresaleDatabase num) (p : Presale num) :
  (forall a b q, participants a = participants b -> fits a q -> fits b q) ->
  (counted db (id p) = [] -> fits db p) ->
  presales db' = p :: presales db ->
  participants db' = participants db ->
  unreferenced db (id p) ->
  Forall (fits db) (presales db) -> Forall (fits db') (presales db').
Proof.
  intros Hext Hnew Hp Hparts Hfresh Hinv. rewrite Hp. constructor.
  - apply (Hext db); [now symmetry|]. apply Hnew.
    unfold counted.
    assert (G : forall l : list (PresaleParticipant num),
               (forall x, In x l -> presale_id x <> id p) ->
               filter (counted_in (id p)) l = []).
    { induction l as [|y r IH]; intros Hl; [reflexivity|]. cbn.
      rewrite (counted_in_other (id p) (presale_id y) y eq_refl).
      - apply IH. intros x Hx. apply Hl. now right.
      - intros E. apply (Hl y); [now left | now symmetry]. }
    apply G. exact Hfresh.
  - rewrite Forall_forall in *. intros q Hq.
    apply (Hext db); [now symmetry | now apply Hinv].
Qed.

(** C3, amended.  In every arithmetic: a presale is created with
    [total_sol] 0 and [participant_count] 0, which satisfies both parts of
    the invariant when no participant record refers to the new id; and in a
    store with unique presale ids, [confirmParticipant],
    [markParticipantRefunded] and [markParticipantWithdrawn] preserve
    "[participant_count] is the number of confirmed, unresolved
    participants of the presale".  They preserve "[total_sol] is the sum of
    their amounts" when the arithmetic adds and subtracts without rounding,
    as exact rationals do. *)
Theorem ledger_invariant_preserved (db : PresaleDatabase num) :
  (forall data now suffix p db',
      createPresale db data now suffix = (inr p, db') ->
      total_sol p = of_int 0
      /\ participant_count p = 0
      /\ (unreferenced db (id p) ->
          (CountInvariant db -> CountInvariant db')
          /\ (TotalInvariant db -> TotalInvariant db')))
  /\ (unique_ids db -> CountInvariant db ->
      forall (pid w sig : string) (tax : num),
        CountInvariant (snd (confirmParticipant db pid w))
        /\ CountInvariant (snd (markParticipantRefunded db pid w sig))
        /\ CountInvariant (snd (markParticipantWithdrawn db pid w sig tax))
        /\ unique_ids (snd (confirmParticipant db pid w))
        /\ unique_ids (snd (markParticipantRefunded db pid w sig))
        /\ unique_ids (snd (markParticipantWithdrawn db pid w sig tax)))
  /\ (ExactSums num -> unique_ids db -> TotalInvariant db ->
      forall (pid w sig : string) (tax : num),
        TotalInvariant (snd (confirmParticipant db pid w))
        /\ TotalInvariant (snd (markParticipantRefunded db pid w sig))
        /\ TotalInvariant (snd (markParticipantWithdrawn db pid w sig tax))).
Proof.
  split; [|split].
  - intros data now suffix p db' E.
    destruct (createPresale_new _ _ _ _ _ _ E) as (Ht & Hc & _ & Hp & Hparts).
    split; [exact Ht|]. split; [exact Hc|]. intros Hfresh. split.
    + apply (createPresale_invariant count_consistent db db' p);
        try assumption.
      * intros a b q Eab. unfold count_consistent, counted. now rewrite Eab.
      * intros Ec. unfold count_consistent. now rewrite Ec, Hc.
    + apply (createPresale_invariant total_consistent db db' p);
        try assumption.
      * intros a b q Eab. unfold total_consistent, counted. now rewrite Eab.
      * intros Ec. unfold total_consistent. now rewrite Ec, Ht.
  - intros Hu Hinv pid w sig tax.
    pose proof (confirmParticipant_change db pid w) as C1.
    pose proof (settle_change _ db pid w (resolves_refunded sig)) as C2.
    pose proof (settle_change _ db pid w (resolves_withdrawn sig tax)) as C3.
    repeat apply conj.
    + exact (change_count _ _ _ Hu C1 Hinv).
    + exact (change_count _ _ _ Hu C2 Hinv).
    + exact (change_count _ _ _ Hu C3 Hinv).
    + exact (change_unique _ _ _ C1 Hu).
    + exact (change_unique _ _ _ C2 Hu).
    + exact (change_unique _ _ _ C3 Hu).
  - intros Hex Hu Hinv pid w sig tax.
    pose proof (confirmParticipant_change db pid w) as C1.
    pose proof (settle_change _ db pid w (resolves_refunded sig)) as C2.
    pose proof (settle_change _ db pid w (resolves_withdrawn sig tax)) as C3.
    repeat apply conj.
    + exact (change_total _ _ _ Hex Hu C1 Hinv).
    + exact (change_total _ _ _ Hex Hu C2 Hinv).
    + exact (change_total _ _ _ Hex Hu C3 Hinv).
Qed.

End WithNumber.

(** Exact rationals add without rounding. *)
Lemma Qc_fold_left_plus (l : list Qc) (acc : Qc) :
  fold_left Qcplus l acc = (acc + fold_left Qcplus l (Q2Qc 0))%Qc.
Proof.
  revert acc. induction l as [|a r IH]; intros acc; cbn.
  - ring.
  - rewrite (IH (acc + a)%Qc), (IH (Q2Qc 0 + a)%Qc). ring.
Qed.

Lemma Qc_sum_app (l1 l2 : list Qc) : sum (l1 ++ l2) = (sum l1 + sum l2)%Qc.
Proof.
  unfold sum. cbn [add of_int Exact.Qc_Number].
  change (Q2Qc (inject_Z 0)) with (Q2Qc 0).
  rewrite fold_left_app. apply Qc_fold_left_plus.
Qed.

Lemma Qc_sum_cons (a : Qc) (l : list Qc) : sum (a :: l) = (a + sum l)%Qc.
Proof.
  unfold sum. cbn [add of_int Exact.Qc_Number fold_left].
  change (Q2Qc (inject_Z 0)) with (Q2Qc 0).
  rewrite Qc_fold_left_plus. ring.
Qed.

Lemma Qc_exact_sums : ExactSums Qc.
Proof.
  split; intros l1 l2 a; rewrite !Qc_sum_app, Qc_sum_cons;
    cbn [add sub Exact.Qc_Number]; ring.
Qed.

(** C3, as stated, fails in binary64.  With ALICE at 0.01 SOL and BOB at
    0.02 SOL the invariant holds ([total_sol] is 0.03); after BOB withdraws,
    [total_sol] is 0.03 - 0.02 = 0.009999999999999998 while the one
    remaining amount is 0.01. *)
Lemma total_sol_drifts_in_binary64 :
  unique_ids db_two
  /\ CountInvariant db_two
  /\ TotalInvariant db_two
  /\ ~ TotalInvariant
         (snd (markParticipantWithdrawn db_two PS1 "BOB" "W1"
                 (Constants.taxAmount
                    (Constants.calculateWithdrawalTax (decimal 2 100))))).
Proof.
  repeat apply conj.
  - repeat constructor. intros [].
  - repeat constructor.
  - repeat constructor.
  - intros Hinv. vm_compute in Hinv. apply Forall_inv in Hinv.
    revert Hinv. apply float_neq_of_eqb; vm_compute; reflexivity.
Qed.

(** The same two participants in exact arithmetic, BOB withdrawing. *)
Lemma ledger_invariant_preserved_witness :
  ExactSums Qc
  /\ unique_ids exact_two
  /\ TotalInvariant exact_two
  /\ TotalInvariant
       (snd (markParticipantWithdrawn exact_two PS1 "BOB" "W1"
               (Constants.taxAmount
                  (Constants.calculateWithdrawalTax (decimal 2 100))))).
Proof.
  assert (Hu : unique_ids exact_two) by (repeat constructor; intros []).
  assert (Hi : TotalInvariant exact_two) by (repeat constructor).
  split; [exact Qc_exact_sums|]. split; [exact Hu|]. split; [exact Hi|].
  exact (proj2 (proj2
           (proj2 (proj2 (ledger_invariant_preserved exact_two))
                  Qc_exact_sums Hu Hi PS1 "BOB" "W1" _))).
Defined.

End LedgerProps.

(** ** The fee split *)

Module FeeShareProps.
Import PresaleDb FeeShareSpec Scenarios.

Section Generic.
Context {num : Type} `{Number num}.

Lemma add_to_last_app (extra : num) (l : list (FeeShare num))
    (x : FeeShare num) :
  add_to_last extra (l ++ [x]) = l ++ [with_remainder extra x].
Proof.
  induction l as [|y r IH]; [reflexivity|].
  cbn [app add_to_last]. rewrite IH.
  destruct r; reflexivity.
Qed.

End Generic.

(** Orders on exact rationals are decided on their representatives. *)
Ltac qc_order :=
  unfold Qcle, Qclt, Qcminus in *;
  unfold Qcopp, Qcplus, Qcmult, Q2Qc in *;
  cbn [this] in *; rewrite ?Qred_correct in *; unfold inject_Z in *; lra.

Lemma Qc_floor_le (x : Qc) : (Exact.Qc_floor x <= x)%Qc.
Proof.
  unfold Exact.Qc_floor, Qcle, Q2Qc. cbn [this]. rewrite Qred_correct.
  apply Qfloor_le.
Qed.

Lemma Qc_lt_floor (x : Qc) : (x < Exact.Qc_floor x + Q2Qc 1)%Qc.
Proof.
  pose proof (Qlt_floor x) as Hx. rewrite inject_Z_plus in Hx.
  unfold Exact.Qc_floor, Qclt, Qcplus, Q2Qc. cbn [this].
  rewrite !Qred_correct. exact Hx.
Qed.

Lemma Qc_of_nat_succ (n : nat) :
  (of_int (Z.of_nat (S n)) : Qc) = (Q2Qc 1 + of_int (Z.of_nat n))%Qc.
Proof.
  cbn [of_int Exact.Qc_Number]. apply Qc_is_canon.
  unfold Qcplus, Q2Qc. cbn [this]. rewrite !Qred_correct.
  rewrite Nat2Z.inj_succ, <- Z.add_1_l, inject_Z_plus. reflexivity.
Qed.

Lemma Qc_ltb_lt (x y : Qc) : ltb x y = true <-> (x < y)%Qc.
Proof.
  cbn [ltb Exact.Qc_Number]. unfold Exact.Qc_ltb, Qclt.
  rewrite negb_true_iff. split.
  - intros E. apply Qnot_le_lt. intros Hle.
    apply Qle_bool_iff in Hle. congruence.
  - intros Hlt. destruct (Qle_bool y x) eqn:E; [|reflexivity].
    apply Qle_bool_iff in E. now apply Qlt_not_le in Hlt.
Qed.

(** The floors never exceed the raw shares, and fall short of them by
    less than one basis point each. *)
Lemma floors_bound (T : Qc) (parts : list (PresaleParticipant Qc)) :
  (sum (map (fun p => bps (share_of T p)) parts)
   <= sum (map (raw_share T) parts))%Qc
  /\ (parts <> [] ->
      (sum (map (raw_share T) parts)
       < sum (map (fun p => bps (share_of T p)) parts)
         + of_int (Z.of_nat (List.length parts)))%Qc).
Proof.
  induction parts as [|p r [IHle IHlt]].
  - split; [apply Qcle_refl | intros E; now contradiction E].
  - cbn [map List.length]. rewrite !LedgerProps.Qc_sum_cons.
    pose proof (Qc_floor_le (raw_share T p)) as Hle.
    pose proof (Qc_lt_floor (raw_share T p)) as Hlt.
    change (bps (share_of T p)) with (Exact.Qc_floor (raw_share T p)).
    split.
    + now apply Qcplus_le_compat.
    + intros _. rewrite Qc_of_nat_succ.
      destruct r as [|q r'].
      * cbn [map List.length Z.of_nat]. unfold sum. cbn [fold_left].
        cbn [of_int Exact.Qc_Number]. qc_order.
      * assert (Hr : q :: r' <> []) by discriminate.
        specialize (IHlt Hr). clear Hr.
        set (F := sum (map (fun p0 => bps (share_of T p0)) (q :: r'))) in *.
        set (X := sum (map (raw_share T) (q :: r'))) in *.
        set (N := (of_int (Z.of_nat (List.length (q :: r'))) : Qc)) in *.
        clearbody F X N. qc_order.
Qed.

(** The raw shares are the 9500 bps scaled by the sum of the amounts over
    the total. *)
Lemma raw_shares_sum (T : Qc) (parts : list (PresaleParticipant Qc)) :
  T <> Q2Qc 0 ->
  sum (map (raw_share T) parts)
  = (sum (map amount_sol parts) / T * of_int 9500)%Qc.
Proof.
  intros HT. induction parts as [|p r IH].
  - unfold sum. cbn [map fold_left of_int Exact.Qc_Number].
    change (Q2Qc (inject_Z 0)) with (Q2Qc 0).
    set (c := Q2Qc (inject_Z 9500)). field. exact HT.
  - cbn [map]. rewrite !LedgerProps.Qc_sum_cons, IH. unfold raw_share.
    cbn [mul div of_int Exact.Qc_Number].
    set (c := Q2Qc (inject_Z 9500)). field. exact HT.
Qed.

Lemma Qc_sum_snoc (l : list Qc) (a : Qc) : sum (l ++ [a]) = (sum l + a)%Qc.
Proof.
  rewrite LedgerProps.Qc_sum_app, LedgerProps.Qc_sum_cons.
  change (sum (@nil Qc)) with (Q2Qc 0). ring.
Qed.

Lemma remaining_bps :
  sub (of_int 10000) (of_int Constants.PRESALE_CONFIG.CREATOR_ALLOCATION_BPS)
  = (of_int 9500 : Qc).
Proof. apply Qc_is_canon. vm_compute. reflexivity. Qed.



(** The same split computed in binary64, for every presale of one to four
    participants contributing whole hundredths of a SOL between 0.01 and
    0.10: all 11110 of them come out as specified.  The shortfall can reach
    the number of participants there (0.01 and 0.04 SOL give 1899 and
    7599 + 2), because [total_sol] is the rounded sum of the amounts. *)
Lemma binary64_small_presales_split :
  forallb (fun n => forallb split_as_specified (choices n))
          [1; 2; 3; 4]%nat
  = true.
Proof. vm_compute. reflexivity. Qed.

End FeeShareProps.

(* ================================================================== *)
(** ** The store under its own operations *)

Module StoreProps.
Import PresaleDb PresaleQueries Store StoreSpec.

Section Lists.
Context {A : Type}.

Lemma Forall2_same (R : A -> A -> Prop) (l : list A) :
  (forall x, R x x) -> Forall2 R l l.
Proof. intros HR. induction l; constructor; auto. Qed.

Lemma Forall2_update_first (R : A -> A -> Prop) (f : A -> bool)
    (g : A -> A) (l : list A) :
  (forall x, R x x) -> (forall x, f x = true -> R x (g x)) ->
  Forall2 R l (update_first f g l).
Proof.
  intros HR Hg. induction l as [|y r IH]; cbn; [constructor|].
  destruct (f y) eqn:E; constructor; auto using Forall2_same.
Qed.

Lemma Forall2_replace_found (R : A -> A -> Prop) (f : A -> bool)
    (x y : A) (l : list A) :
  (forall z, R z z) -> find f l = Some x -> R x y ->
  Forall2 R l (update_first f (fun _ => y) l).
Proof.
  intros HR Hf Hxy. induction l as [|z r IH]; [discriminate|].
  cbn in Hf |- *. destruct (f z).
  - injection Hf as ->. constructor; auto using Forall2_same.
  - constructor; auto.
Qed.

Lemma Forall2_map_self (R : A -> A -> Prop) (g : A -> A) (l : list A) :
  (forall x, R x (g x)) -> Forall2 R l (map g l).
Proof. intros Hg. induction l; cbn; constructor; auto. Qed.

Lemma Forall2_compose (R : A -> A -> Prop) (l1 l2 l3 : list A) :
  (forall x y z, R x y -> R y z -> R x z) ->
  Forall2 R l1 l2 -> Forall2 R l2 l3 -> Forall2 R l1 l3.
Proof.
  intros HR H12. revert l3.
  induction H12 as [|x y r1 r2 Hxy _ IH]; intros l3 H23;
    inversion H23; subst; constructor; eauto.
Qed.

Lemma Forall2_weaken (R S : A -> A -> Prop) (l1 l2 : list A) :
  (forall x y, R x y -> S x y) -> Forall2 R l1 l2 -> Forall2 S l1 l2.
Proof. intros HRS F. induction F; constructor; auto. Qed.

(** A property carried over by [R] from every element to its image. *)
Lemma Forall2_carries (R : A -> A -> Prop) (P Q : A -> Prop)
    (l1 l2 : list A) :
  (forall x y, R x y -> P x -> Q y) ->
  Forall2 R l1 l2 -> Forall P l1 -> Forall Q l2.
Proof.
  intros HR F. induction F; intros HP; inversion HP; subst;
    constructor; eauto.
Qed.

Lemma Forall2_map_eq {B : Type} (R : A -> A -> Prop) (h : A -> B)
    (l1 l2 : list A) :
  (forall x y, R x y -> h y = h x) ->
  Forall2 R l1 l2 -> map h l2 = map h l1.
Proof.
  intros HR F. induction F; cbn; [reflexivity|].
  f_equal; auto.
Qed.

(** Fewer images pass a test than originals, when passing it is inherited
    from the image by the original. *)
Lemma Forall2_filter_length (R : A -> A -> Prop) (f : A -> bool)
    (l1 l2 : list A) :
  (forall x y, R x y -> f y = true -> f x = true) ->
  Forall2 R l1 l2 ->
  (List.length (filter f l2) <= List.length (filter f l1))%nat.
Proof.
  intros HR F. induction F as [|x y r1 r2 Hxy _ IH]; cbn; [lia|].
  destruct (f y) eqn:Ey.
  - rewrite (HR x y Hxy Ey). cbn. lia.
  - destruct (f x); cbn; lia.
Qed.

End Lists.

Section WithNumber.
Context {num : Type} `{Number num}.

#[local] Abbreviation Presale := (Presale num).
#[local] Abbreviation PresaleParticipant := (PresaleParticipant num).
#[local] Abbreviation PresaleDatabase := (PresaleDatabase num).

Lemma later_same (x : PresaleParticipant) : later x x.
Proof. repeat split; auto. Qed.

Lemma later_compose (x y z : PresaleParticipant) :
  later x y -> later y z -> later x z.
Proof.
  intros (D1 & C1 & S1) (D2 & C2 & S2). repeat split.
  - congruence.
  - auto.
  - intros Hs. pose proof (S1 Hs) as ->. auto.
Qed.

Lemma unsettled_unresolved (pid w : string) (x : PresaleParticipant) :
  unresolved_of pid w x = true -> settled x = false.
Proof.
  unfold unresolved_of, settled. intros E.
  apply andb_prop in E as [E Hw]. apply andb_prop in E as [_ Hr].
  apply negb_true_iff in Hw, Hr. now rewrite Hw, Hr.
Qed.

Lemma unsettled_pending (pid w : string) (x : PresaleParticipant) :
  pending_of pid w x = true -> settled x = false.
Proof.
  unfold pending_of, settled. intros E.
  apply andb_prop in E as [E Hw]. apply andb_prop in E as [_ Hr].
  apply negb_true_iff in Hw, Hr. now rewrite Hw, Hr.
Qed.

Lemma unsettled_counted (pid : string) (x : PresaleParticipant) :
  counted_in pid x = true -> settled x = false.
Proof.
  unfold counted_in, settled. intros E.
  apply andb_prop in E as [E Hw]. apply andb_prop in E as [_ Hr].
  apply negb_true_iff in Hw, Hr. now rewrite Hw, Hr.
Qed.

Lemma touched_later (x x' : PresaleParticipant) :
  touched x x' -> later x x'.
Proof.
  intros [ | pid w E | pid w s E | pid w s tax E | pid b E];
    [apply later_same | | | | ].
  - apply unsettled_pending in E.
    repeat split; auto. congruence.
  - apply unsettled_unresolved in E.
    repeat split; auto. congruence.
  - apply unsettled_unresolved in E.
    repeat split; auto. congruence.
  - apply unsettled_counted in E.
    repeat split; auto. congruence.
Qed.

Lemma updated_same (p : Presale) : updated p p.
Proof. repeat split; auto. Qed.

Lemma updated_compose (p q r : Presale) :
  updated p q -> updated q r -> updated p r.
Proof.
  intros (T1 & F1 & S1) (T2 & F2 & S2). repeat split; auto. congruence.
Qed.

Lemma updated_all_same (ps : list Presale) : Forall2 updated ps ps.
Proof. apply Forall2_same, updated_same. Qed.

Lemma touched_all_same (xs : list PresaleParticipant) :
  Forall2 touched xs xs.
Proof. apply Forall2_same. constructor. Qed.

#[local] Hint Resolve updated_same later_same updated_all_same
  touched_all_same : core.
#[local] Hint Extern 1 (updated _ _) =>
  (repeat split; cbn; auto; congruence) : core.

Lemma in_place_same (db : PresaleDatabase) : in_place db db.
Proof. repeat split; auto. Qed.

Lemma ledger_kept_same (db : PresaleDatabase) : ledger_kept db db.
Proof. split; [|reflexivity]. apply Forall2_same. auto. Qed.

Lemma step_same (db : PresaleDatabase) : step db db.
Proof. apply step_update; [apply in_place_same | apply ledger_kept_same]. Qed.

(** The presales change, the participants do not. *)
Lemma step_presales (db : PresaleDatabase) (ps : list Presale) :
  Forall2 (fun p p' =>
             updated p p'
             /\ participant_count p' = participant_count p
             /\ total_sol p' = total_sol p)
          (presales db) ps ->
  step db (with_presales ps db).
Proof.
  intros F. apply step_update.
  - repeat split; cbn; auto.
    apply (Forall2_weaken _ _ _ _ (fun p p' HR => proj1 HR) F).
  - split; cbn; [|reflexivity].
    apply (Forall2_weaken _ _ _ _
             (fun p p' HR => conj (f_equal fst
                                     (f_equal fst
                                        (f_equal fst
                                           (f_equal fst
                                              (f_equal fst
                                                 (f_equal fst
                                                    (proj1 (proj1 HR))))))))
                                  (proj2 HR)) F).
Qed.

Lemma step_createPresale (db : PresaleDatabase)
    (data : CreatePresaleData num) (now : Z) (suffix : string) :
  String.length suffix = 4%nat ->
  step db (snd (createPresale db data now suffix)).
Proof.
  intros Hs. unfold createPresale.
  destruct (negb _) eqn:Ed; [apply step_same|].
  destruct (_ || _) eqn:Et; [apply step_same|].
  destruct (String.eqb _ _); [apply step_same|].
  cbn [snd]. eapply step_create; cbn; try reflexivity; [exact Hs|].
  apply negb_false_iff in Ed. apply orb_false_iff in Et as [Et1 Et2].
  apply Z.ltb_ge in Et1, Et2.
  repeat split; try assumption; [|discriminate].
  unfold Constants.isValidDuration in Ed.
  apply existsb_exists in Ed as (x & Hx & Ex).
  apply Z.eqb_eq in Ex. now rewrite Ex.
Qed.

Lemma step_updatePresaleStatus (db : PresaleDatabase) (i : string)
    (s : PresaleStatus) (d : PresalePatch) :
  step db (snd (updatePresaleStatus db i s d)).
Proof.
  unfold updatePresaleStatus.
  destruct (find (has_id i) (presales db)) as [p|] eqn:E;
    [|apply step_same].
  apply step_presales. apply (Forall2_replace_found _ _ p); auto.
Qed.

Lemma step_updateLaunchFeePaid (db : PresaleDatabase)
    (i signature : string) :
  step db (snd (updateLaunchFeePaid db i signature)).
Proof.
  unfold updateLaunchFeePaid.
  destruct (find (has_id i) (presales db)); [|apply step_same].
  apply step_presales. apply Forall2_update_first; auto.
Qed.

Lemma step_checkExpiredPresales (db : PresaleDatabase) (now : Z) :
  step db (snd (checkExpiredPresales db now)).
Proof.
  unfold checkExpiredPresales. rewrite ExpiryProps.expire_loop_map.
  apply step_presales. apply Forall2_map_self. intros p.
  unfold ExpirySpec.expire. destruct (ExpirySpec.is_expired now p); auto.
Qed.

Lemma step_addParticipant (db : PresaleDatabase)
    (data : AddParticipantData num) (now : Z) :
  step db (snd (addParticipant db data now)).
Proof.
  unfold addParticipant.
  destruct (find (has_id _) _) as [q|] eqn:Eq; [|apply step_same].
  destruct (find (unresolved_of _ _) _) eqn:Ex; [apply step_same|].
  cbn [snd].
  match goal with
  | |- step _ (with_participants (_ ++ [?x]) _) => apply (step_add _ _ x q)
  end; cbn; auto.
Qed.

Lemma in_place_confirmParticipant (db : PresaleDatabase)
    (pid w : string) :
  in_place db (snd (confirmParticipant db pid w)).
Proof.
  unfold confirmParticipant.
  destruct (find (pending_of pid w) (participants db)) as [x|] eqn:Ex;
    [|apply in_place_same].
  destruct (find (has_id pid) (presales db)) as [p|] eqn:Ep;
    [|apply in_place_same].
  repeat split; cbn.
  - apply (Forall2_replace_found _ _ p); auto.
  - apply (Forall2_replace_found _ _ x); auto; [constructor|].
    apply (touched_confirmed _ pid w). now apply find_some in Ex.
Qed.

Lemma in_place_settle (mark : PresaleParticipant -> PresaleParticipant)
    (db : PresaleDatabase) (pid w : string) :
  (forall x, unresolved_of pid w x = true -> touched x (mark x)) ->
  in_place db (snd (settle mark db pid w)).
Proof.
  intros Hmark. unfold settle.
  destruct (find (unresolved_of pid w) (participants db)) as [x|] eqn:Ex;
    [|apply in_place_same].
  repeat split; cbn.
  - destruct (find (has_id pid) (presales db)) as [p|] eqn:Ep; auto.
    destruct (confirmed x); auto.
    apply (Forall2_replace_found _ _ p); auto.
  - apply Forall2_update_first; [constructor | exact Hmark].
Qed.

Lemma amounts_fee_share (j pid : string)
    (share : PresaleParticipant -> num) (l : list PresaleParticipant) :
  map amount_sol
      (filter (counted_in j)
              (map (fun x => if counted_in pid x
                             then set_fee_share_bps (share x) x else x) l))
  = map amount_sol (filter (counted_in j) l).
Proof.
  induction l as [|x r IH]; [reflexivity|]. cbn [map filter].
  assert (Ex : counted_in j (if counted_in pid x
                             then set_fee_share_bps (share x) x else x)
               = counted_in j x) by now destruct (counted_in pid x).
  rewrite Ex. destruct (counted_in j x); [|exact IH].
  cbn [map]. rewrite IH. f_equal. now destruct (counted_in pid x).
Qed.

Lemma step_calculateFeeShares (db : PresaleDatabase) (pid : string) :
  step db (snd (calculateFeeShares db pid)).
Proof.
  unfold calculateFeeShares.
  destruct (find (has_id pid) (presales db)); [|apply step_same].
  destruct (filter (counted_in pid) (participants db)) eqn:E;
    [apply step_same|].
  cbn [snd]. apply step_update.
  - repeat split; cbn; auto.
    apply Forall2_map_self. intros x.
    destruct (counted_in pid x) eqn:Ec; [|constructor].
    now apply (touched_fee_share _ pid).
  - split; cbn; [apply Forall2_same; auto|].
    intros j. apply amounts_fee_share.
Qed.

(** Every call is one of the four kinds of [step]. *)
Lemma step_perform (o : Operation num) (db : PresaleDatabase) :
  drawn o -> step db (perform o db).
Proof.
  destruct o; cbn [perform drawn]; intros Hd.
  - now apply step_createPresale.
  - apply step_updatePresaleStatus.
  - apply step_updateLaunchFeePaid.
  - apply step_addParticipant.
  - apply (step_change _ _ pid);
      [apply in_place_confirmParticipant
      | apply LedgerProps.confirmParticipant_change].
  - apply (step_change _ _ pid).
    + apply in_place_settle. intros x Hx.
      now apply (touched_refunded _ pid w).
    + apply LedgerProps.settle_change, LedgerProps.resolves_refunded.
  - apply (step_change _ _ pid).
    + apply in_place_settle. intros x Hx.
      now apply (touched_withdrawn _ pid w).
    + apply LedgerProps.settle_change, LedgerProps.resolves_withdrawn.
  - apply step_calculateFeeShares.
  - apply step_checkExpiredPresales.
Qed.

Lemma continues_same (db : PresaleDatabase) : continues db db.
Proof.
  split; [|split].
  - exists [], (presales db). split; [reflexivity | auto].
  - exists (participants db), []. split; [now rewrite app_nil_r|].
    apply Forall2_same, later_same.
  - lia.
Qed.

Lemma continues_compose (db1 db2 db3 : PresaleDatabase) :
  continues db1 db2 -> continues db2 db3 -> continues db1 db3.
Proof.
  intros ((c1 & k1 & E1 & F1) & (k1' & a1 & E1' & F1') & N1)
         ((c2 & k2 & E2 & F2) & (k2' & a2 & E2' & F2') & N2).
  split; [|split]; [| |lia].
  - rewrite E1 in F2. apply Forall2_app_inv_l in F2
      as (k2a & k2b & Fa & Fb & ->).
    exists (c2 ++ k2a), k2b. split; [now rewrite E2, app_assoc|].
    apply (Forall2_compose _ _ k1);
      [apply updated_compose | exact F1 | exact Fb].
  - rewrite E1' in F2'. apply Forall2_app_inv_l in F2'
      as (ka & kb & Fa & Fb & ->).
    exists ka, (kb ++ a2). split; [now rewrite E2', app_assoc|].
    apply (Forall2_compose _ _ k1');
      [apply later_compose | exact F1' | exact Fa].
Qed.

Lemma continues_in_place (db db' : PresaleDatabase) :
  in_place db db' -> continues db db'.
Proof.
  intros (Hp & Hx & Hn). split; [|split]; [| |lia].
  - now exists [], (presales db').
  - exists (participants db'), []. rewrite app_nil_r. split; [reflexivity|].
    apply (Forall2_weaken _ _ _ _ touched_later Hx).
Qed.

Lemma continues_step (db db' : PresaleDatabase) :
  step db db' -> continues db db'.
Proof.
  intros [Hin _ | pid Hin _ | p suffix Hp Hx Hn _ _ _ _ _ _
         | x q _ _ _ _ _ _ _ _ Hp Hx Hn].
  - now apply continues_in_place.
  - now apply continues_in_place.
  - split; [|split]; [| |lia].
    + exists [p], (presales db). split; [exact Hp | auto].
    + exists (participants db), []. rewrite app_nil_r, Hx.
      split; [reflexivity | apply Forall2_same, later_same].
  - split; [|split]; [| |lia].
    + exists [], (presales db). rewrite Hp. split; [reflexivity | auto].
    + exists (participants db), [x]. split; [exact Hx|].
      apply Forall2_same, later_same.
Qed.

End WithNumber.

End StoreProps.

(* ================================================================== *)
(** ** Presale ids *)

Module PresaleIds.
Import PresaleDb.

Lemma length_append (a b : string) :
  String.length (String.append a b)
  = (String.length a + String.length b)%nat.
Proof. induction a as [|c a IH]; cbn; [reflexivity | now rewrite IH]. Qed.

Lemma append_same_length (a b s t : string) :
  String.length a = String.length b ->
  String.append a s = String.append b t -> a = b /\ s = t.
Proof.
  revert b. induction a as [|c a IH]; intros [|d b] L E; try discriminate.
  - now split.
  - cbn in L, E. injection L as L. injection E as -> E.
    destruct (IH b L E) as [-> ->]. now split.
Qed.

Lemma length_repeat_string (n : nat) :
  String.length (repeat_string "0" n) = n.
Proof. induction n; cbn; [reflexivity | now rewrite IHn]. Qed.

(** The decimal numeral of a positive number is not empty and does not
    start with a zero. *)
Lemma to_uint_head (p : positive) :
  Pos.to_uint p <> Decimal.Nil
  /\ forall d, Pos.to_uint p <> Decimal.D0 d.
Proof.
  split; [apply DecimalPos.Unsigned.to_uint_nonnil|].
  intros d E.
  assert (U : Decimal.unorm (Pos.to_uint p) = Pos.to_uint p).
  { rewrite <- DecimalPos.Unsigned.to_of, DecimalPos.Unsigned.of_to.
    reflexivity. }
  rewrite E in U.
  destruct (Decimal.nzhead (Decimal.D0 d)) eqn:Ed;
    try (rewrite DecimalFacts.unorm_nzhead in U
           by (rewrite Ed; discriminate);
         now apply DecimalFacts.nzhead_nonzero in U).
  unfold Decimal.unorm in U. rewrite Ed in U. injection U as <-.
  now apply (DecimalPos.Unsigned.to_uint_nonzero p).
Qed.

Lemma string_of_Z_head (n : Z) :
  1 <= n ->
  exists c rest, string_of_Z n = String c rest /\ c <> "0"%char.
Proof.
  intros Hn. destruct n as [|p|p]; try lia.
  unfold string_of_Z. cbn.
  destruct (to_uint_head p) as [Hnil Hzero].
  destruct (Pos.to_uint p) eqn:E; cbn;
    try (eexists _, _; split; [reflexivity | discriminate]).
  - now contradiction Hnil.
  - now contradiction (Hzero u).
Qed.

Lemma string_of_Z_positive (n m : Z) :
  1 <= n -> 1 <= m -> string_of_Z n = string_of_Z m -> n = m.
Proof.
  intros Hn Hm E. destruct n as [|p|p], m as [|q|q]; try lia.
  unfold string_of_Z in E. cbn in E.
  assert (P : forall r, NilZero.string_of_uint (Pos.to_uint r)
                        = NilEmpty.string_of_uint (Pos.to_uint r)).
  { intros r. pose proof (DecimalPos.Unsigned.to_uint_nonnil r).
    now destruct (Pos.to_uint r). }
  rewrite !P in E.
  apply (f_equal NilEmpty.uint_of_string) in E.
  rewrite !NilEmpty.usu in E. injection E as E.
  now apply DecimalPos.Unsigned.to_uint_inj in E as ->.
Qed.

(** Padding with zeros keeps the numerals of positive numbers apart. *)
Lemma padStart0_positive (k : nat) (n m : Z) :
  1 <= n -> 1 <= m ->
  padStart0 k (string_of_Z n) = padStart0 k (string_of_Z m) -> n = m.
Proof.
  intros Hn Hm. unfold padStart0.
  destruct (string_of_Z_head n Hn) as (c & r & En & Hc).
  destruct (string_of_Z_head m Hm) as (d & s & Em & Hd).
  intros E. apply (string_of_Z_positive n m Hn Hm).
  revert E. rewrite En, Em.
  generalize (k - String.length (String c r))%nat as i.
  generalize (k - String.length (String d s))%nat as j.
  intros j i. revert j.
  induction i as [|i IH]; intros [|j] E; cbn in E.
  - exact E.
  - injection E as -> _. now contradiction Hc.
  - injection E as <- _. now contradiction Hd.
  - injection E as E. now apply (IH j).
Qed.

(** [generatePresaleId] gives different ids for different positive counter
    values, whatever four characters are drawn. *)
Lemma generatePresaleId_counter (n m : Z) (s t : string) :
  1 <= n -> 1 <= m ->
  String.length s = 4%nat -> String.length t = 4%nat ->
  generatePresaleId n s = generatePresaleId m t -> n = m /\ s = t.
Proof.
  intros Hn Hm Ls Lt E. unfold generatePresaleId in E.
  apply (append_same_length "PS" "PS") in E as [_ E]; [|reflexivity].
  assert (L : String.length (padStart0 4 (string_of_Z n))
              = String.length (padStart0 4 (string_of_Z m))).
  { apply (f_equal String.length) in E.
    rewrite !length_append, Ls, Lt in E. lia. }
  destruct (append_same_length _ _ _ _ L E) as [Ep ->].
  split; [|reflexivity].
  now apply (padStart0_positive 4).
Qed.

End PresaleIds.

(* ================================================================== *)
(** ** What every built store satisfies *)

Module StoreSound.
Import PresaleDb PresaleQueries Store StoreSpec StoreProps.

Section WithNumber.
Context {num : Type} `{Number num}.

#[local] Abbreviation Presale := (Presale num).
#[local] Abbreviation PresaleParticipant := (PresaleParticipant num).
#[local] Abbreviation PresaleDatabase := (PresaleDatabase num).

Lemma terms_fields (p p' : Presale) :
  terms p' = terms p ->
  id p' = id p /\ creator_wallet p' = creator_wallet p
  /\ target_participants p' = target_participants p
  /\ duration_minutes p' = duration_minutes p
  /\ created_at p' = created_at p /\ expires_at p' = expires_at p.
Proof. unfold terms. intros E. inversion E. repeat split; assumption. Qed.

Lemma updated_ids (ps ps' : list Presale) :
  Forall2 updated ps ps' -> map id ps' = map id ps.
Proof.
  apply Forall2_map_eq. intros p p' (T & _). now apply terms_fields in T.
Qed.

Lemma touched_deposit (x x' : PresaleParticipant) :
  touched x x' -> deposit x' = deposit x.
Proof. intros T. now apply touched_later in T as (D & _). Qed.

Lemma touched_presale_id (x x' : PresaleParticipant) :
  touched x x' -> presale_id x' = presale_id x /\ wallet x' = wallet x.
Proof.
  intros T. apply touched_deposit in T. unfold deposit in T.
  inversion T. now split.
Qed.

Lemma touched_unresolved (pid w : string) (x x' : PresaleParticipant) :
  touched x x' -> unresolved_of pid w x' = true ->
  unresolved_of pid w x = true.
Proof.
  intros [ | ? ? _ | ? ? ? _ | ? ? ? ? _ | ? ? _]; auto;
    unfold unresolved_of; cbn; intros E;
    rewrite ?andb_false_r in E; try discriminate.
Qed.

Lemma touched_flags (x x' : PresaleParticipant) :
  touched x x' -> flags_agree x -> flags_agree x'.
Proof.
  intros [ | ? ? _ | pid w s E | pid w s tax E | ? ? _]; auto.
  - apply LedgerProps.unresolved_facts in E as (_ & Hr & Hw).
    unfold flags_agree. cbn. rewrite Hr, Hw.
    intros (_ & _ & W1 & W2). repeat split; auto; try discriminate;
      try apply W1; try apply W2.
  - apply LedgerProps.unresolved_facts in E as (_ & Hr & Hw).
    unfold flags_agree. cbn. rewrite Hr, Hw.
    intros (_ & R1 & _ & _). repeat split; auto; try discriminate;
      try apply R1.
Qed.

Lemma attached_ids (db : PresaleDatabase) (x : PresaleParticipant) :
  attached db x <-> In (presale_id x) (map id (presales db)).
Proof.
  unfold attached. rewrite in_map_iff. split.
  - intros (p & Hp & E). now exists p.
  - intros (p & E & Hp). now exists p.
Qed.

Lemma find_none_filter {A : Type} (f : A -> bool) (l : list A) :
  find f l = None -> filter f l = [].
Proof.
  induction l as [|x r IH]; [reflexivity|]. cbn.
  destruct (f x); [discriminate | exact IH].
Qed.

Lemma filter_none {A : Type} (f : A -> bool) (l : list A) :
  (forall x, In x l -> f x = false) -> filter f l = [].
Proof.
  induction l as [|x r IH]; intros Hl; [reflexivity|]. cbn.
  rewrite (Hl x (or_introl eq_refl)). apply IH. intros y Hy.
  apply Hl. now right.
Qed.

Lemma sound_empty : sound (emptyDb (num := num)).
Proof.
  unfold sound, one_record_each, open_records. cbn.
  repeat split; intros; cbn; try lia; constructor.
Qed.

Lemma sound_in_place (db db' : PresaleDatabase) :
  sound db -> in_place db db' ->
  Forall (fun p =>
            participant_count p
            = Z.of_nat (List.length
                          (filter (counted_in (id p)) (participants db'))))
         (presales db') ->
  sound db'.
Proof.
  intros (S0 & S1 & S2 & S3 & _ & S5 & S6 & S7) (Hp & Hx & Hn) S4.
  pose proof (updated_ids _ _ Hp) as Hids.
  unfold sound. repeat apply conj.
  - lia.
  - refine (Forall2_carries _ _ _ _ _ _ Hp S1).
    intros p p' (T & _) (n & s & E & Hb & Hs). exists n, s.
    apply terms_fields in T as (-> & _). now rewrite Hn.
  - now rewrite Hids.
  - refine (Forall2_carries _ _ _ _ _ _ Hx S3).
    intros x x' HR. rewrite !attached_ids, Hids.
    now destruct (touched_presale_id _ _ HR) as [-> _].
  - exact S4.
  - intros pid w. specialize (S5 pid w). unfold open_records in *.
    pose proof (Forall2_filter_length touched (unresolved_of pid w) _ _
                  (touched_unresolved pid w) Hx). lia.
  - refine (Forall2_carries _ _ _ _ _ _ Hp S6).
    intros p p' (T & F1 & F2).
    apply terms_fields in T as (_ & _ & Et & Ed & Ec & Ee).
    unfold as_created. rewrite Et, Ed, Ec, Ee.
    intros (A & B & C & D & E).
    repeat split; try apply A; try assumption; [now apply F1 | now apply F2].
  - exact (Forall2_carries _ _ _ _ _ touched_flags Hx S7).
Qed.

Lemma ledger_kept_count (db db' : PresaleDatabase) :
  ledger_kept db db' ->
  LedgerSpec.CountInvariant db -> LedgerSpec.CountInvariant db'.
Proof.
  intros (Hp & Hc). unfold LedgerSpec.CountInvariant.
  refine (Forall2_carries _ _ _ _ _ _ Hp).
  intros p p' (Ei & En & _).
  unfold LedgerSpec.count_consistent, LedgerSpec.counted.
  rewrite Ei, En. intros ->. f_equal.
  rewrite <- (length_map amount_sol (filter _ (participants db'))), Hc.
  now rewrite length_map.
Qed.

Lemma ledger_kept_total (db db' : PresaleDatabase) :
  ledger_kept db db' ->
  LedgerSpec.TotalInvariant db -> LedgerSpec.TotalInvariant db'.
Proof.
  intros (Hp & Hc). unfold LedgerSpec.TotalInvariant.
  refine (Forall2_carries _ _ _ _ _ _ Hp).
  intros p p' (Ei & _ & Et).
  unfold LedgerSpec.total_consistent, LedgerSpec.counted.
  rewrite Ei, Et, Hc. auto.
Qed.

(** No record is counted in a presale that has just been created. *)
Lemma created_uncounted (db : PresaleDatabase) (p : Presale)
    (suffix : string) :
  sound db ->
  id p = generatePresaleId (lastPresaleNum db + 1) suffix ->
  String.length suffix = 4%nat ->
  ~ In (id p) (map id (presales db))
  /\ LedgerSpec.unreferenced db (id p).
Proof.
  intros (S0 & S1 & _ & S3 & _) Eid Hs.
  assert (Hfresh : ~ In (id p) (map id (presales db))).
  { rewrite in_map_iff. intros (q & Eq & Hq).
    rewrite Forall_forall in S1.
    destruct (S1 q Hq) as (n & s & En & Hb & Ls).
    rewrite Eid, En in Eq.
    apply PresaleIds.generatePresaleId_counter in Eq as [Eq _];
      try assumption; lia. }
  split; [exact Hfresh|].
  intros x Hx E. apply Hfresh. rewrite <- E.
  rewrite Forall_forall in S3. now apply attached_ids, S3.
Qed.

Lemma sound_step (db db' : PresaleDatabase) :
  sound db -> step db db' -> sound db'.
Proof.
  intros S
    [Hin Hk | pid Hin Hc | p suffix Hp Hx Hn Eid Hs Hcr Hcount Htotal _
    | x q Eq Ex Hc Hr Hw Hrs Hws Hwt Hp Hx Hn].
  - apply (sound_in_place db); [exact S | exact Hin|].
    apply (ledger_kept_count db db' Hk). apply S.
  - apply (sound_in_place db); [exact S | exact Hin|].
    apply (LedgerProps.change_count db db' pid); [apply S | exact Hc|].
    apply S.
  - destruct (created_uncounted db p suffix S Eid Hs) as (Hfresh & Hun).
    destruct S as (S0 & S1 & S2 & S3 & S4 & S5 & S6 & S7).
    unfold sound, one_record_each, open_records.
    rewrite Hp, Hx, Hn. cbn [map]. repeat split; try assumption; try lia.
    + constructor.
      * exists (lastPresaleNum db + 1), suffix. repeat split; auto; lia.
      * revert S1. apply Forall_impl. intros q (n & s & E & Hb & Ls).
        exists n, s. repeat split; auto; lia.
    + now constructor.
    + revert S3. apply Forall_impl. intros x. rewrite !attached_ids, Hp.
      now right.
    + constructor; [|exact S4].
      rewrite Hcount, filter_none; [reflexivity|].
      intros x Hx'. unfold counted_in.
      destruct (String.eqb (presale_id x) (id p)) eqn:E; [|reflexivity].
      apply String.eqb_eq in E. now contradiction (Hun x Hx').
    + now constructor.
  - destruct S as (S0 & S1 & S2 & S3 & S4 & S5 & S6 & S7).
    assert (Hcx : forall j, counted_in j x = false).
    { intros j. unfold counted_in. now rewrite Hc, andb_false_r. }
    unfold sound. repeat apply conj.
    + lia.
    + rewrite Hp. revert S1. apply Forall_impl.
      intros p (n & s & E & Hb & Ls). exists n, s. now rewrite Hn.
    + now rewrite Hp.
    + rewrite Hx. apply Forall_app. split.
      * revert S3. apply Forall_impl. intros y.
        now rewrite !attached_ids, Hp.
      * constructor; [|constructor]. exists q. rewrite Hp.
        apply find_some in Eq as [Hq Eq]. split; [exact Hq|].
        unfold has_id in Eq. now apply String.eqb_eq in Eq.
    + rewrite Hp, Hx. revert S4. apply Forall_impl. intros p ->.
      rewrite filter_app. cbn. rewrite Hcx, app_nil_r. reflexivity.
    + intros pid w. specialize (S5 pid w). unfold open_records in *.
      rewrite Hx, filter_app, length_app. cbn.
      destruct (unresolved_of pid w x) eqn:Eu; cbn; [|lia].
      unfold unresolved_of in Eu.
      apply andb_prop in Eu as [Eu _]. apply andb_prop in Eu as [Eu _].
      apply andb_prop in Eu as [E1 E2].
      apply String.eqb_eq in E1, E2. subst pid w.
      rewrite (find_none_filter _ _ Ex). cbn. lia.
    + now rewrite Hp.
    + rewrite Hx. apply Forall_app. split; [exact S7|].
      constructor; [|constructor]. unfold flags_agree.
      rewrite Hr, Hw, Hrs, Hws, Hwt. repeat split; congruence.
Qed.

Lemma built_sound (db : PresaleDatabase) : built db -> sound db.
Proof.
  induction 1 as [|o db _ IH Hd]; [apply sound_empty|].
  apply (sound_step db); [exact IH | now apply step_perform].
Qed.

(** In an arithmetic that adds without rounding, [total_sol] is the sum
    of the amounts counted. *)
Lemma total_step (db db' : PresaleDatabase) :
  LedgerSpec.ExactSums num -> sound db -> step db db' ->
  LedgerSpec.TotalInvariant db -> LedgerSpec.TotalInvariant db'.
Proof.
  intros Hex S
    [Hin Hk | pid Hin Hc | p suffix Hp Hx Hn Eid Hs Hcr Hcount Htotal _
    | x q Eq Ex Hc Hr Hw Hrs Hws Hwt Hp Hx Hn] T.
  - now apply (ledger_kept_total db).
  - apply (LedgerProps.change_total db db' pid); auto. apply S.
  - destruct (created_uncounted db p suffix S Eid Hs) as (_ & Hun).
    apply (LedgerProps.createPresale_invariant
             LedgerSpec.total_consistent db db' p); auto.
    + intros a b r Eab. unfold LedgerSpec.total_consistent,
        LedgerSpec.counted. now rewrite Eab.
    + intros Ec. unfold LedgerSpec.total_consistent. now rewrite Ec, Htotal.
  - unfold LedgerSpec.TotalInvariant in *. rewrite Hp. revert T.
    apply Forall_impl. intros p.
    unfold LedgerSpec.total_consistent, LedgerSpec.counted.
    rewrite Hx, filter_app. cbn.
    assert (Hcx : counted_in (id p) x = false).
    { unfold counted_in. now rewrite Hc, andb_false_r. }
    now rewrite Hcx, app_nil_r.
Qed.

Lemma built_total (db : PresaleDatabase) :
  LedgerSpec.ExactSums num -> built db -> LedgerSpec.TotalInvariant db.
Proof.
  intros Hex. induction 1 as [|o db Hb IH Hd]; [constructor|].
  apply (total_step db); auto using built_sound, step_perform.
Qed.

End WithNumber.

End StoreSound.

(* ================================================================== *)
(** ** Stores built by the exported functions *)

Module BuiltStores.
Import PresaleDb PresaleQueries Store StoreSpec StoreProps StoreSound.
Import Scenarios.

Section WithNumber.
Context {num : Type} `{Number num}.

#[local] Abbreviation Presale := (Presale num).
#[local] Abbreviation PresaleParticipant := (PresaleParticipant num).
#[local] Abbreviation PresaleDatabase := (PresaleDatabase num).

Lemma built_created (target : Z) : built (created (num := num) target).
Proof.
  apply (built_perform (CreatePresale (creation target) 1000 "ABCD"));
    [apply built_empty | reflexivity].
Qed.

Lemma built_joined (db : PresaleDatabase) (w : string) (a : num)
    (now : Z) :
  built db -> built (joined db w a now).
Proof.
  intros Hb. unfold joined.
  apply (built_perform (ConfirmParticipant PS1 w)); [|exact I].
  apply (built_perform (AddParticipant _ now)); [exact Hb | exact I].
Qed.

(** With unique ids, every stored presale is the one its id looks up. *)
Lemma unique_lookup (ps : list Presale) (p : Presale) :
  NoDup (map id ps) -> In p ps -> find (has_id (id p)) ps = Some p.
Proof.
  induction ps as [|q r IH]; [contradiction|].
  cbn [map]. intros Hnd Hin. inversion Hnd as [|? ? Hq Hr]; subst.
  cbn [find]. unfold has_id at 1.
  destruct (String.eqb (id q) (id p)) eqn:E.
  - destruct Hin as [-> | Hin]; [reflexivity|].
    apply String.eqb_eq in E. contradiction Hq. rewrite E.
    now apply in_map.
  - destruct Hin as [-> | Hin]; [now rewrite String.eqb_refl in E|].
    now apply IH.
Qed.




(** Wallets that each have at most one unresolved record are distinct
    among the counted records. *)
Lemma counted_wallets_distinct (pid : string)
    (l : list PresaleParticipant) :
  (forall w, (List.length (filter (unresolved_of pid w) l) <= 1)%nat) ->
  NoDup (map wallet (filter (counted_in pid) l)).
Proof.
  induction l as [|x r IH]; intros Hl; [constructor|].
  assert (Hr : forall w,
             (List.length (filter (unresolved_of pid w) r) <= 1)%nat).
  { intros w. specialize (Hl w). cbn in Hl.
    destruct (unresolved_of pid w x); cbn in Hl; lia. }
  cbn [filter]. destruct (counted_in pid x) eqn:Ex; [|now apply IH].
  cbn [map]. constructor; [|now apply IH].
  rewrite in_map_iff. intros (y & Ew & Hy).
  apply filter_In in Hy as [Hy Ey].
  assert (U : forall z : PresaleParticipant, counted_in pid z = true ->
                        unresolved_of pid (wallet z) z = true).
  { intros z. unfold counted_in, unresolved_of. intros E.
    apply andb_prop in E as [E E3]. apply andb_prop in E as [E E2].
    apply andb_prop in E as [E1 _].
    now rewrite E1, String.eqb_refl, E2, E3. }
  specialize (Hl (wallet x)). cbn in Hl. rewrite (U x Ex) in Hl.
  cbn in Hl.
  assert (In y (filter (unresolved_of pid (wallet x)) r)).
  { apply filter_In. split; [exact Hy|]. rewrite <- Ew. now apply U. }
  destruct (filter (unresolved_of pid (wallet x)) r);
    [contradiction | cbn in Hl; lia].
Qed.

(** X4: in a built store, a wallet has at most one record that is neither
    refunded nor withdrawn in a presale, so the participants
    [getPresaleParticipants] returns for a presale have different
    wallets. *)
Theorem built_one_open_record (db : PresaleDatabase) :
  built db ->
  forall pid,
    (forall w, (List.length (open_records db pid w) <= 1)%nat)
    /\ NoDup (map wallet (getPresaleParticipants db pid)).
Proof.
  intros Hb pid.
  destruct (built_sound db Hb) as (_ & _ & _ & _ & _ & S5 & _).
  split; [apply S5|]. apply counted_wallets_distinct. apply S5.
Qed.


(** X6: in a built store no record is both refunded and withdrawn; a
    record carries a refund signature exactly when it is refunded, and a
    withdrawal signature and the tax paid exactly when it is withdrawn. *)
Theorem built_flags_agree (db : PresaleDatabase) :
  built db ->
  forall x, In x (participants db) ->
    (refunded x && withdrawn x = false)
    /\ (refunded x = true <-> refund_signature x <> None)
    /\ (withdrawn x = true <-> withdraw_signature x <> None)
    /\ (withdrawn x = true <-> withdraw_tax_paid x <> None).
Proof.
  intros Hb.
  destruct (built_sound db Hb) as (_ & _ & _ & _ & _ & _ & _ & S7).
  rewrite Forall_forall in S7. exact S7.
Qed.

Lemma continues_createPresale (db : PresaleDatabase)
    (data : CreatePresaleData num) (now : Z) (suffix : string) :
  continues db (snd (createPresale db data now suffix)).
Proof.
  unfold createPresale.
  destruct (negb _); [apply continues_same|].
  destruct (_ || _); [apply continues_same|].
  destruct (String.eqb _ _); [apply continues_same|].
  cbn [snd]. split; [|split]; cbn [presales participants lastPresaleNum].
  - eexists [_], (presales db). split; [reflexivity|].
    apply updated_all_same.
  - exists (participants db), []. split; [now rewrite app_nil_r|].
    apply Forall2_same, later_same.
  - lia.
Qed.

Lemma continues_perform (o : Operation num) (db : PresaleDatabase) :
  continues db (perform o db).
Proof.
  destruct o; try (apply continues_step, step_perform; exact I).
  apply continues_createPresale.
Qed.


End WithNumber.




Lemma built_one_open_record_witness :
  (forall w, (List.length (open_records db_two PS1 w) <= 1)%nat)
  /\ NoDup (map wallet (getPresaleParticipants db_two PS1)).
Proof.
  apply built_one_open_record.
  apply built_joined, built_joined, built_created.
Defined.


Lemma built_flags_agree_witness :
  Forall (fun x =>
            (refunded x && withdrawn x = false)
            /\ (refunded x = true <-> refund_signature x <> None)
            /\ (withdrawn x = true <-> withdraw_signature x <> None)
            /\ (withdrawn x = true <-> withdraw_tax_paid x <> None))
         (participants db_two).
Proof.
  apply Forall_forall. apply built_flags_agree.
  apply built_joined, built_joined, built_created.
Defined.

End BuiltStores.

(* ================================================================== *)
(** ** The store functions one by one *)

Module StoreFunctions.
Import PresaleDb PresaleQueries StoreSpec.

Section WithNumber.
Context {num : Type} `{Number num}.

#[local] Abbreviation Presale := (Presale num).
#[local] Abbreviation PresaleParticipant := (PresaleParticipant num).
#[local] Abbreviation PresaleDatabase := (PresaleDatabase num).

Lemma isValidDuration_options (minutes : Z) :
  Constants.isValidDuration minutes = true <-> In minutes [10; 20; 30].
Proof.
  unfold Constants.isValidDuration. rewrite existsb_exists. split.
  - intros (x & Hx & E). apply Z.eqb_eq in E. now rewrite E.
  - intros Hin. exists minutes. split; [exact Hin | apply Z.eqb_refl].
Qed.

Lemma createPresale_cases (db : PresaleDatabase)
    (data : CreatePresaleData num) (now : Z) (suffix : string) :
  let duration := or_default (data_duration_minutes data) 30 in
  let target := or_default (data_target_participants data) 68 in
  match createPresale db data now suffix with
  | (inl _, db') =>
      db' = db
      /\ (~ In duration [10; 20; 30] \/ target < 1 \/ 68 < target
          \/ data_launch_fee_signature data = "")
  | (inr p, db') =>
      In duration [10; 20; 30] /\ 1 <= target <= 68
      /\ data_launch_fee_signature data <> ""
      /\ presales db' = p :: presales db
      /\ participants db' = participants db
      /\ lastPresaleNum db' = lastPresaleNum db + 1
      /\ id p = generatePresaleId (lastPresaleNum db + 1) suffix
      /\ status p = active
      /\ participant_count p = 0 /\ total_sol p = of_int 0
      /\ target_participants p = target /\ duration_minutes p = duration
      /\ created_at p = now
      /\ expires_at p = now + duration * 60 * 1000
      /\ getPresaleById db' (id p) = Some p
  end.
Proof.
  intros duration target. unfold createPresale.
  fold duration.
  change (or_default (data_target_participants data)
                     Constants.PRESALE_CONFIG.DEFAULT_PARTICIPANTS)
    with target.
  destruct (negb (Constants.isValidDuration duration)) eqn:Ed.
  { split; [reflexivity|]. left. apply negb_true_iff in Ed.
    rewrite <- isValidDuration_options. now rewrite Ed. }
  apply negb_false_iff, isValidDuration_options in Ed.
  destruct (_ || _) eqn:Et.
  { split; [reflexivity|]. right.
    apply orb_true_iff in Et as [Et | Et]; apply Z.ltb_lt in Et;
      unfold Constants.PRESALE_CONFIG.MIN_PARTICIPANTS,
             Constants.PRESALE_CONFIG.MAX_PARTICIPANTS in Et; lia. }
  apply orb_false_iff in Et as [Et1 Et2]. apply Z.ltb_ge in Et1, Et2.
  unfold Constants.PRESALE_CONFIG.MIN_PARTICIPANTS,
         Constants.PRESALE_CONFIG.MAX_PARTICIPANTS in Et1, Et2.
  destruct (String.eqb _ _) eqn:Es.
  { split; [reflexivity|]. right. right. right.
    now apply String.eqb_eq in Es. }
  apply String.eqb_neq in Es.
  repeat split; try assumption; try lia.
  unfold getPresaleById. cbn. unfold has_id. cbn.
  now rewrite String.eqb_refl.
Qed.

(** X8: [createPresale] throws, and leaves the store as it is, exactly
    when the duration (30 minutes if none or 0 is given) is not 10, 20 or
    30, the target (68 if none or 0 is given) is not between 1 and 68, or
    the fee signature is empty.  Otherwise the presale it returns is put in
    front of the others and the counter goes up by one; the presale is
    active with no participant and no SOL, carries the id made from the new
    counter value, the target and the duration, expires [duration] minutes
    after the time of the call, and is what [getPresaleById] returns for
    its id. *)
Theorem createPresale_checks (db : PresaleDatabase)
    (data : CreatePresaleData num) (now : Z) (suffix : string) :
  let duration := or_default (data_duration_minutes data) 30 in
  let target := or_default (data_target_participants data) 68 in
  match createPresale db data now suffix with
  | (inl _, db') =>
      db' = db
      /\ (~ In duration [10; 20; 30] \/ target < 1 \/ 68 < target
          \/ data_launch_fee_signature data = "")
  | (inr p, db') =>
      In duration [10; 20; 30] /\ 1 <= target <= 68
      /\ data_launch_fee_signature data <> ""
      /\ presales db' = p :: presales db
      /\ participants db' = participants db
      /\ lastPresaleNum db' = lastPresaleNum db + 1
      /\ id p = generatePresaleId (lastPresaleNum db + 1) suffix
      /\ status p = active
      /\ participant_count p = 0 /\ total_sol p = of_int 0
      /\ target_participants p = target /\ duration_minutes p = duration
      /\ created_at p = now
      /\ expires_at p = now + duration * 60 * 1000
      /\ getPresaleById db' (id p) = Some p
  end.
Proof. exact (createPresale_cases db data now suffix). Qed.

Lemma checkExpiredPresales_maps (db : PresaleDatabase) (now : Z) :
  checkExpiredPresales db now
  = (map (set_status failed)
         (filter (ExpirySpec.is_expired now) (presales db)),
     with_presales (map (ExpirySpec.expire now) (presales db)) db).
Proof.
  unfold checkExpiredPresales. now rewrite ExpiryProps.expire_loop_map.
Qed.

(** X9: when [checkExpiredPresales] has run, running it again at the same
    time flips nothing and returns no presale; and running it at a later
    time leaves the store that running it at that later time alone would
    have left. *)
Theorem checkExpiredPresales_again (db : PresaleDatabase) (now now' : Z) :
  now <= now' ->
  snd (checkExpiredPresales (snd (checkExpiredPresales db now)) now')
  = snd (checkExpiredPresales db now')
  /\ checkExpiredPresales (snd (checkExpiredPresales db now)) now
     = ([], snd (checkExpiredPresales db now)).
Proof.
  intros Hle. rewrite !checkExpiredPresales_maps.
  cbn [snd fst presales with_presales].
  unfold with_presales. cbn [participants lastPresaleNum].
  split.
  - f_equal. rewrite map_map. apply map_ext. intros p.
    unfold ExpirySpec.expire, ExpirySpec.is_expired.
    destruct (status_eqb (status p) active) eqn:Es; cbn [andb].
    + destruct (expires_at p <? now) eqn:E1; cbn.
      * apply Z.ltb_lt in E1.
        assert (E2 : (expires_at p <? now') = true)
          by (apply Z.ltb_lt; lia).
        now rewrite E2.
      * now rewrite Es.
    + now rewrite Es.
  - f_equal.
    + induction (presales db) as [|p r IH]; [reflexivity|]. cbn.
      unfold ExpirySpec.expire at 1, ExpirySpec.is_expired at 1 2.
      destruct (status_eqb (status p) active && (expires_at p <? now))
        eqn:E; cbn.
      * exact IH.
      * rewrite E. exact IH.
    + f_equal. rewrite map_map. apply map_ext. intros p.
      unfold ExpirySpec.expire, ExpirySpec.is_expired.
      destruct (status_eqb (status p) active && (expires_at p <? now))
        eqn:E; cbn; [reflexivity | now rewrite E].
Qed.

(** X10: [getActivePresales] returns, in store order, exactly the
    presales that are still active once [checkExpiredPresales] has run at
    the same time: those with status active whose expiry is not earlier
    than now. *)
Theorem getActivePresales_unexpired (db : PresaleDatabase) (now : Z) :
  getActivePresales db now
  = filter (fun p => status_eqb (status p) active)
           (presales (snd (checkExpiredPresales db now)))
  /\ forall p, In p (getActivePresales db now) <->
               In p (presales db) /\ status p = active
               /\ now <= expires_at p.
Proof.
  rewrite checkExpiredPresales_maps. cbn [snd presales with_presales].
  unfold getActivePresales. split.
  - induction (presales db) as [|p r IH]; [reflexivity|]. cbn.
    unfold ExpirySpec.expire, ExpirySpec.is_expired.
    destruct (status_eqb (status p) active) eqn:Es; cbn.
    + destruct (expires_at p <? now); cbn; [exact IH|].
      rewrite Es. now f_equal.
    + rewrite Es. exact IH.
  - intros p. rewrite filter_In. split.
    + intros (Hin & E). split; [exact Hin|].
      destruct (status p) eqn:Es; cbn in E; try discriminate.
      split; [reflexivity|].
      destruct (expires_at p <? now) eqn:El; [discriminate|].
      now apply Z.ltb_ge in El.
    + intros (Hin & Es & Hle). split; [exact Hin|]. rewrite Es. cbn.
      apply Z.ltb_ge in Hle. now rewrite Hle.
Qed.

Lemma slice_run {A : Type} (start final : option Z) (l : list A) :
  exists n k, slice start final l = firstn n (skipn k l).
Proof. unfold slice. eexists _, _. reflexivity. Qed.

(** X11: [getAllPresales] returns a run of consecutive presales of the
    store, in store order.  With a limit and an offset that are not
    negative it is the [limit] presales after the first [offset], or as
    many as there are; it is empty as soon as the limit or the offset is
    NaN; and no limit is too small: with offset 0 and limit -1 it is every
    presale but the last. *)
Theorem getAllPresales_page (db : PresaleDatabase)
    (limit offset : option Z) :
  (exists before after,
      presales db = before ++ getAllPresales db limit offset ++ after)
  /\ (forall l o, limit = Some l -> offset = Some o -> 0 <= l -> 0 <= o ->
        getAllPresales db limit offset
        = firstn (Z.to_nat l) (skipn (Z.to_nat o) (presales db)))
  /\ (limit = None \/ offset = None ->
      getAllPresales db limit offset = [])
  /\ getAllPresales db (Some (-1)) (Some 0) = removelast (presales db).
Proof.
  unfold getAllPresales. split; [|split; [|split]].
  - destruct (slice_run offset (js_add offset limit) (presales db))
      as (n & k & ->).
    exists (firstn k (presales db)),
           (skipn n (skipn k (presales db))).
    now rewrite firstn_skipn, firstn_skipn.
  - intros l o -> -> Hl Ho. cbn [js_add]. unfold slice.
    cbn [ToIntegerOrInfinity].
    set (len := Z.of_nat (List.length (presales db))).
    assert (El : List.length (presales db) = Z.to_nat len)
      by (subst len; lia).
    assert (0 <= len) by (subst len; lia).
    assert (E1 : (o <? 0) = false) by (apply Z.ltb_ge; lia).
    assert (E2 : (o + l <? 0) = false) by (apply Z.ltb_ge; lia).
    rewrite E1, E2.
    destruct (Z.le_gt_cases len o) as [Hlo | Hlo].
    + rewrite !skipn_all2 by lia. now rewrite !firstn_nil.
    + rewrite (Z.min_l o len) by lia.
      destruct (Z.le_gt_cases (o + l) len) as [Hol | Hol].
      * rewrite (Z.min_l (o + l) len) by lia. f_equal. lia.
      * rewrite (Z.min_r (o + l) len) by lia.
        rewrite !firstn_all2; [reflexivity | |];
          rewrite length_skipn; lia.
  - intros Hnan.
    assert (E : js_add offset limit = None).
    { destruct Hnan as [-> | ->]; [now destruct offset | reflexivity]. }
    rewrite E. unfold slice. cbn [ToIntegerOrInfinity].
    change (0 <? 0) with false. cbv iota.
    replace (Z.to_nat _) with O; [reflexivity|].
    destruct (ToIntegerOrInfinity offset <? 0) eqn:Ez;
      [apply Z.ltb_lt in Ez | apply Z.ltb_ge in Ez]; lia.
  - cbn [js_add]. unfold slice. cbn [ToIntegerOrInfinity].
    change (0 + -1 <? 0) with true. change (0 <? 0) with false.
    cbn match. rewrite removelast_firstn_len. cbn [skipn Z.to_nat].
    rewrite Z.min_l by lia. f_equal. lia.
Qed.

Lemma length_status_split (ps : list Presale) :
  List.length ps
  = (List.length (filter (fun p => status_eqb (status p) active) ps)
     + List.length (filter (fun p => status_eqb (status p) launched) ps)
     + List.length (filter (fun p => status_eqb (status p) failed) ps)
     + List.length (filter (fun p => status_eqb (status p) refunding) ps))%nat.
Proof.
  induction ps as [|p r IH]; [reflexivity|]. cbn [filter List.length].
  destruct (status p); cbn; lia.
Qed.

(** X12: the total that [getPresaleStats] reports counts every presale,
    the three other counts leave out the presales that are being refunded:
    total = active + launched + failed + the number of presales with
    status refunding. *)
Theorem getPresaleStats_counts (db : PresaleDatabase) :
  stats_total (getPresaleStats db)
  = (stats_active (getPresaleStats db)
     + stats_launched (getPresaleStats db)
     + stats_failed (getPresaleStats db)
     + List.length (filter (fun p => status_eqb (status p) refunding)
                           (presales db)))%nat.
Proof. unfold getPresaleStats. cbn. apply length_status_split. Qed.

Lemma find_app_none {A : Type} (f : A -> bool) (l : list A) (x : A) :
  find f l = None -> f x = true -> find f (l ++ [x]) = Some x.
Proof.
  induction l as [|y r IH]; cbn; intros Hn Hx; [now rewrite Hx|].
  destruct (f y); [discriminate | now apply IH].
Qed.

(** X13: [addParticipant] returns null, and leaves the store as it is,
    exactly when the presale does not exist or the wallet already has a
    record in it that is neither refunded nor withdrawn.  Otherwise it
    appends one unconfirmed record with the amount given, which
    [getParticipantByWallet] then returns; the presales and what
    [getPresaleParticipants] returns are unchanged. *)
Theorem addParticipant_outcome (db : PresaleDatabase)
    (data : AddParticipantData num) (now : Z) :
  let pid := add_presale_id data in
  let w := add_wallet data in
  match addParticipant db data now with
  | (None, db') =>
      db' = db
      /\ (getPresaleById db pid = None
          \/ getParticipantByWallet db pid w <> None)
  | (Some x, db') =>
      getPresaleById db pid <> None
      /\ getParticipantByWallet db pid w = None
      /\ participants db' = participants db ++ [x]
      /\ presales db' = presales db
      /\ getParticipantByWallet db' pid w = Some x
      /\ presale_id x = pid /\ wallet x = w
      /\ amount_sol x = add_amount_sol data
      /\ confirmed x = false /\ refunded x = false /\ withdrawn x = false
      /\ forall j, getPresaleParticipants db' j
                   = getPresaleParticipants db j
  end.
Proof.
  intros pid w. unfold addParticipant, getPresaleById,
    getParticipantByWallet, getPresaleParticipants.
  fold pid w.
  destruct (find (has_id pid) (presales db)) eqn:Ep;
    [|split; [reflexivity | now left]].
  destruct (find (unresolved_of pid w) (participants db)) eqn:Ex;
    [split; [reflexivity | right; discriminate]|].
  cbn [participants presales with_participants].
  repeat split; try discriminate.
  - apply find_app_none; [exact Ex|]. unfold unresolved_of. cbn.
    now rewrite !String.eqb_refl.
  - intros j. rewrite filter_app. cbn. unfold counted_in at 2. cbn.
    rewrite andb_false_r. cbn. apply app_nil_r.
Qed.

Lemma filter_counted_fee_share (pid j : string)
    (share : PresaleParticipant -> num) (l : list PresaleParticipant) :
  filter (counted_in j)
         (map (fun x => if counted_in pid x
                        then set_fee_share_bps (share x) x else x) l)
  = map (fun x => if counted_in pid x
                  then set_fee_share_bps (share x) x else x)
        (filter (counted_in j) l).
Proof.
  induction l as [|x r IH]; [reflexivity|]. cbn [map filter].
  assert (Ex : counted_in j (if counted_in pid x
                             then set_fee_share_bps (share x) x else x)
               = counted_in j x) by now destruct (counted_in pid x).
  rewrite Ex. destruct (counted_in j x); [|exact IH].
  cbn [map]. now rewrite IH.
Qed.

(** X14: [calculateFeeShares] returns the empty list, and leaves the
    store as it is, exactly when the presale does not exist or has no
    confirmed, unresolved participant; otherwise the list has one entry
    more than there are such participants and starts with the creator.
    It never changes a presale.  Calling it again returns the same list and
    leaves the same store. *)
Theorem calculateFeeShares_again (db : PresaleDatabase) (pid : string) :
  (fst (calculateFeeShares db pid) = [] <->
   getPresaleById db pid = None \/ getPresaleParticipants db pid = [])
  /\ (fst (calculateFeeShares db pid) = [] ->
      snd (calculateFeeShares db pid) = db)
  /\ (forall presale,
         getPresaleById db pid = Some presale ->
         getPresaleParticipants db pid <> [] ->
         List.length (fst (calculateFeeShares db pid))
         = S (List.length (getPresaleParticipants db pid))
         /\ option_map fs_wallet (hd_error (fst (calculateFeeShares db pid)))
            = Some (creator_wallet presale))
  /\ presales (snd (calculateFeeShares db pid)) = presales db
  /\ calculateFeeShares (snd (calculateFeeShares db pid)) pid
     = calculateFeeShares db pid.
Proof.
  unfold getPresaleById, getPresaleParticipants.
  assert (Hlast : forall (e : num) (l : list (FeeShare num)),
             List.length (add_to_last e l) = List.length l
             /\ (l <> [] -> add_to_last e l <> [])
             /\ forall a b r, l = a :: b :: r ->
                  hd_error (add_to_last e l) = Some a).
  { intros e l. induction l as [|a [|b r] IH].
    - cbn. repeat split; try congruence; intros; discriminate.
    - cbn. repeat split; try discriminate; intros; discriminate.
    - destruct IH as (IH1 & IH2 & IH3).
      change (add_to_last e (a :: b :: r))
        with (a :: add_to_last e (b :: r)).
      cbn [List.length hd_error]. rewrite IH1.
      repeat split; try discriminate.
      intros a' b' r' E. now injection E as -> _ _. }
  destruct (find (has_id pid) (presales db)) as [presale|] eqn:Ep.
  2: { unfold calculateFeeShares. rewrite Ep. cbn.
       repeat split; try tauto; try discriminate; try (now left).
       now rewrite Ep. }
  destruct (filter (counted_in pid) (participants db)) as [|x0 parts]
    eqn:Ef.
  { unfold calculateFeeShares. rewrite Ep, Ef. cbn.
    repeat split; try tauto; try discriminate; try (now right);
      try congruence. now rewrite Ep, Ef. }
  set (total := total_sol presale).
  set (rem := sub (of_int 10000)
                  (of_int Constants.PRESALE_CONFIG.CREATOR_ALLOCATION_BPS)).
  set (g := fun x : PresaleParticipant =>
              if counted_in pid x
              then set_fee_share_bps (floor_share total rem x) x else x).
  set (creator := {| fs_wallet := creator_wallet presale;
                     bps := of_int
                              Constants.PRESALE_CONFIG.CREATOR_ALLOCATION_BPS |}).
  set (shares_of := fun l : list PresaleParticipant =>
                      map (fun p => {| fs_wallet := wallet p;
                                       bps := floor_share total rem p |}) l).
  set (F := fun l : list PresaleParticipant =>
              let assigned :=
                add (fold_left add (map bps (shares_of l)) (of_int 0))
                    (of_int Constants.PRESALE_CONFIG.CREATOR_ALLOCATION_BPS)
              in
              if ltb assigned (of_int 10000)
                 && (1 <? List.length (creator :: shares_of l))%nat
              then add_to_last (sub (of_int 10000) assigned)
                               (creator :: shares_of l)
              else creator :: shares_of l).
  assert (E0 : forall (d : PresaleDatabase) y ys,
             find (has_id pid) (presales d) = Some presale ->
             filter (counted_in pid) (participants d) = y :: ys ->
             calculateFeeShares d pid
             = (F (y :: ys), with_participants (map g (participants d)) d)).
  { intros d y ys E1 E2. unfold calculateFeeShares. rewrite E1, E2.
    reflexivity. }
  assert (Hres : F (x0 :: parts) <> []
                 /\ List.length (F (x0 :: parts))
                    = S (S (List.length parts))
                 /\ hd_error (F (x0 :: parts)) = Some creator).
  { unfold F. cbv zeta. destruct (_ && _).
    - destruct (Hlast (sub (of_int 10000)
                           (add (fold_left add
                                   (map bps (shares_of (x0 :: parts)))
                                   (of_int 0))
                                (of_int
                                   Constants.PRESALE_CONFIG.CREATOR_ALLOCATION_BPS)))
                      (creator :: shares_of (x0 :: parts)))
        as (L1 & L2 & L3).
      split; [apply L2; discriminate|]. split.
      + rewrite L1. unfold shares_of. cbn. now rewrite length_map.
      + unfold shares_of in *. cbn [map] in *.
        now apply (L3 creator _ _ eq_refl).
    - split; [discriminate|]. split; [|reflexivity].
      unfold shares_of. cbn. now rewrite length_map. }
  destruct Hres as (R1 & R2 & R3).
  rewrite !(E0 db x0 parts Ep Ef). cbn [fst snd].
  split; [|split; [|split; [|split]]].
  - split; [intros E; now contradiction R1|].
    intros [E | E]; discriminate.
  - intros E. now contradiction R1.
  - intros p Epp _. injection Epp as <-. split; [exact R2|].
    now rewrite R3.
  - reflexivity.
  - assert (Ex0 : counted_in pid x0 = true).
    { assert (Hin : In x0 (filter (counted_in pid) (participants db)))
        by (rewrite Ef; now left).
      now apply filter_In in Hin. }
    rewrite (E0 (with_participants (map g (participants db)) db)
                (g x0) (map g parts)).
    + f_equal.
      * assert (Es : shares_of (g x0 :: map g parts)
                     = shares_of (x0 :: parts)).
        { unfold shares_of. change (g x0 :: map g parts)
            with (map g (x0 :: parts)).
          rewrite map_map. apply map_ext. intros p. unfold g.
          now destruct (counted_in pid p). }
        unfold F. cbv zeta. now rewrite Es.
      * unfold with_participants. cbn [presales participants lastPresaleNum].
        f_equal. rewrite map_map. apply map_ext. intros p. unfold g.
        destruct (counted_in pid p) eqn:Ec; cbn; [|now rewrite Ec].
        change (counted_in pid
                  (set_fee_share_bps (floor_share total rem p) p))
          with (counted_in pid p). now rewrite Ec.
    + exact Ep.
    + cbn [participants with_participants]. unfold g.
      rewrite (filter_counted_fee_share pid pid (floor_share total rem)).
      now rewrite Ef.
Qed.

End WithNumber.

(** Two checks of [db_two], at 700000 and at 800000, after its presale
    expired at 601000. *)
Lemma checkExpiredPresales_again_witness :
  snd (checkExpiredPresales
         (snd (checkExpiredPresales Scenarios.db_two 700000)) 800000)
  = snd (checkExpiredPresales Scenarios.db_two 800000)
  /\ checkExpiredPresales
       (snd (checkExpiredPresales Scenarios.db_two 700000)) 700000
     = ([], snd (checkExpiredPresales Scenarios.db_two 700000)).
Proof. apply checkExpiredPresales_again. lia. Defined.

End StoreFunctions.

(* ================================================================== *)
(** ** The launch, case by case *)

Module LaunchOutcome.
Import PresaleDb StoreSpec LaunchSpec.

Section WithNumber.
Context {num : Type} `{Number num}.

#[local] Abbreviation Presale := (Presale num).
#[local] Abbreviation PresaleDatabase := (PresaleDatabase num).
#[local] Abbreviation ExternalCall := (LaunchPresale.ExternalCall num).

Lemma sign_config_calls (launcher : string) (shares : list (FeeShare num))
    (txs : list LaunchPresale.ConfigTransaction) :
  Forall (follows launcher shares)
         (fst (LaunchPresale.sign_config_transactions (num := num) txs)).
Proof.
  induction txs as [|[|tx sent] rest IH]; cbn; [constructor | exact IH|].
  destruct (LaunchPresale.sign_config_transactions rest) as [calls ok].
  cbn in *. constructor; [exact I | exact IH].
Qed.

Lemma launch_step_cases (env : LaunchPresale.Env) (db : PresaleDatabase)
    (i launcher mint key : string) (presale : Presale)
    (meta : option string) (shares : list (FeeShare num))
    (trace : list ExternalCall) :
  let out :=
    LaunchPresale.launch_step env db i presale launcher mint meta key trace
  in
  (exists rest, snd out = trace ++ rest
                /\ Forall (follows launcher shares) rest)
  /\ ended env db i (fst out).
Proof.
  cbv zeta. unfold LaunchPresale.launch_step, ended. cbv zeta.
  destruct (LaunchPresale.create_launch_transaction env) as [m|r].
  { cbn [fst snd]. split; [|now left].
    eexists. split; [reflexivity|]. repeat constructor. }
  destruct (LaunchPresale.launchtx_success r); cbn [negb].
  2: { cbn [fst snd]. split.
       - eexists. split; [reflexivity|]. repeat constructor.
       - right. left. exists mint, key. repeat split. }
  destruct (LaunchPresale.launchtx_payload r) as [tx|].
  - destruct (LaunchPresale.launch_send env) as [m|signature];
      cbn [fst snd]; (split;
        [rewrite <- app_assoc; eexists; split;
         [reflexivity | repeat constructor]|]).
    + right. left. exists mint, key. repeat split.
    + right. right. exists mint, key, signature. split; reflexivity.
  - cbn [fst snd]. split.
    + eexists. split; [reflexivity|]. repeat constructor.
    + right. left. exists mint, key. repeat split.
Qed.

Lemma fee_share_step_cases (env : LaunchPresale.Env)
    (db : PresaleDatabase) (i launcher mint : string) (presale : Presale)
    (meta : option string) (feeShares : list (FeeShare num))
    (trace : list ExternalCall) :
  let out :=
    LaunchPresale.fee_share_step env db i presale launcher mint meta
                                 feeShares trace in
  (exists rest, snd out = trace ++ rest
                /\ Forall (follows launcher feeShares) rest)
  /\ ended env db i (fst out).
Proof.
  cbv zeta. unfold LaunchPresale.fee_share_step. cbv zeta.
  assert (Hcfg : forall b,
             follows launcher feeShares
               (LaunchPresale.FeeShareConfig b launcher mint
                  (map fs_wallet feeShares) (map bps feeShares)))
    by (intros b; repeat split).
  assert (Hlaunch : forall key cfg tr extra,
    tr = trace ++ extra -> Forall (follows launcher feeShares) extra ->
    let out :=
      (let '(calls, _) :=
         LaunchPresale.sign_config_transactions
           (LaunchPresale.config_transactions cfg) in
       LaunchPresale.launch_step env db i presale launcher mint meta key
                                 (tr ++ calls)) in
    (exists rest, snd out = trace ++ rest
                  /\ Forall (follows launcher feeShares) rest)
    /\ ended env db i (fst out)).
  { intros key cfg tr extra -> Hextra.
    pose proof (sign_config_calls launcher feeShares
                  (LaunchPresale.config_transactions cfg)) as Hcalls.
    destruct (LaunchPresale.sign_config_transactions
                (LaunchPresale.config_transactions cfg)) as [calls ok].
    cbn [fst] in Hcalls. cbv zeta.
    destruct (launch_step_cases env db i launcher mint key presale meta
                feeShares ((trace ++ extra) ++ calls))
      as ((rest & Et & Hrest) & Hend).
    split; [|exact Hend].
    exists (extra ++ calls ++ rest). rewrite Et, <- !app_assoc.
    split; [reflexivity|]. now rewrite !Forall_app. }
  destruct (LaunchPresale.fee_share_config env) as [m|first].
  { cbn [fst snd]. split; [|now left].
    eexists. split; [reflexivity|]. repeat constructor. }
  destruct (LaunchPresale.config_key first) as [key|].
  { eapply Hlaunch; [reflexivity | repeat constructor]. }
  destruct (LaunchPresale.fee_share_config_basic env) as [m|second].
  { cbn [fst snd]. split; [|now left].
    rewrite <- app_assoc. eexists. split; [reflexivity|].
    repeat constructor. }
  destruct (LaunchPresale.config_key second) as [key|].
  { eapply Hlaunch; [symmetry; apply app_assoc | repeat constructor]. }
  cbn [fst snd]. split; [|now left].
  rewrite <- app_assoc. eexists. split; [reflexivity|].
  repeat constructor.
Qed.

(** Every call of [launchPresaleToken] either makes no request, fails,
    and leaves the store as it is or with the fee shares written; or passes
    every guard, registers the metadata first, and ends in one of the three
    ways of [ended] on the store with the fee shares written. *)
Lemma launchPresaleToken_cases (env : LaunchPresale.Env)
    (db : PresaleDatabase) (i : string) (force : bool) :
  let out := LaunchPresale.launchPresaleToken env db i force in
  let shares := fst (calculateFeeShares db i) in
  let db1 := snd (calculateFeeShares db i) in
  (snd out = []
   /\ LaunchPresale.success (fst (fst out)) = false
   /\ (snd (fst out) = db \/ snd (fst out) = db1))
  \/ (exists presale launcher,
         LaunchPresale.BAGS_API_KEY env = true
         /\ LaunchPresale.LAUNCHER_PRIVATE_KEY env = Some (inr launcher)
         /\ getPresaleById db i = Some presale
         /\ status presale <> launched
         /\ (force = true
             \/ target_participants presale <= participant_count presale)
         /\ getPresaleParticipants db i <> []
         /\ eqb (sum (map bps shares)) (of_int 10000) = true
         /\ (exists rest,
                snd out
                = LaunchPresale.CreateTokenInfo (token_name presale)
                                                (token_symbol presale)
                    :: rest
                /\ Forall (follows launcher shares) rest)
         /\ ended env db1 i (fst out)).
Proof.
  cbv zeta. unfold LaunchPresale.launchPresaleToken.
  destruct (LaunchPresale.BAGS_API_KEY env) eqn:Ekey; cbn [negb];
    [|left; cbn; auto].
  destruct (LaunchPresale.LAUNCHER_PRIVATE_KEY env) as [key|] eqn:El;
    [|left; cbn; auto].
  destruct (getPresaleById db i) as [presale|] eqn:Ep; [|left; cbn; auto].
  destruct (status_eqb (status presale) launched) eqn:Es;
    [left; cbn; auto|].
  destruct (negb force
            && (participant_count presale <? target_participants presale))
    eqn:Ef; [left; cbn; auto|].
  destruct (getPresaleParticipants db i) as [|part parts] eqn:Eparts;
    [left; cbn; auto|].
  destruct (calculateFeeShares db i) as [feeShares db1]. cbn [fst snd].
  destruct (neqb (sum (map bps feeShares)) (of_int 10000)) eqn:Esum;
    [left; cbn; auto|].
  destruct key as [m|launcher]; [left; cbn; auto|].
  right. exists presale, launcher.
  assert (Hs : status presale <> launched).
  { intros E. rewrite E in Es. discriminate. }
  assert (Hf : force = true
               \/ target_participants presale <= participant_count presale).
  { destruct force; [now left|]. right. cbn in Ef.
    now apply Z.ltb_ge in Ef. }
  assert (Hsum : eqb (sum (map bps feeShares)) (of_int 10000) = true).
  { unfold neqb in Esum. now apply negb_false_iff in Esum. }
  repeat (split; [first [reflexivity | assumption | discriminate]|]).
  destruct (LaunchPresale.create_token_info env) as [m|r].
  { cbn [fst snd]. split; [|now left].
    eexists. split; [reflexivity | constructor]. }
  destruct (if LaunchPresale.metadata_success r
            then LaunchPresale.metadata_tokenMint r else None) as [mint|].
  2: { cbn [fst snd]. split; [|now left].
       eexists. split; [reflexivity | constructor]. }
  destruct (fee_share_step_cases env db1 i launcher mint presale
              (LaunchPresale.metadata_tokenMetadata r) feeShares
              [LaunchPresale.CreateTokenInfo (token_name presale)
                                             (token_symbol presale)])
    as ((rest & Et & Hrest) & Hend).
  split; [|exact Hend]. exists rest. split; [exact Et | exact Hrest].
Qed.

End WithNumber.

End LaunchOutcome.

(* ================================================================== *)
(** ** The routes as sequences of calls on the store *)

Module RouteCalls.
Import PresaleDb PresaleQueries Store StoreSpec StoreProps StoreSound.
Import LaunchSpec.

Section WithNumber.
Context {num : Type} `{Number num}.

#[local] Abbreviation Presale := (Presale num).
#[local] Abbreviation PresaleDatabase := (PresaleDatabase num).

Lemma via_same (P : Operation num -> Prop) (db : PresaleDatabase) :
  via P db db.
Proof. exists []. split; [constructor | reflexivity]. Qed.

Lemma via_perform (P : Operation num -> Prop) (o : Operation num)
    (db db' : PresaleDatabase) :
  P o -> via P db db' -> via P db (perform o db').
Proof.
  intros Ho (calls & Hc & ->). exists (calls ++ [o]). split.
  - apply Forall_app. split; [exact Hc | now constructor].
  - unfold run. now rewrite fold_left_app.
Qed.

Lemma via_compose (P : Operation num -> Prop)
    (db1 db2 db3 : PresaleDatabase) :
  via P db1 db2 -> via P db2 db3 -> via P db1 db3.
Proof.
  intros (c1 & H1 & ->) (c2 & H2 & ->). exists (c1 ++ c2). split.
  - apply Forall_app. now split.
  - unfold run. now rewrite fold_left_app.
Qed.

Lemma via_weaken (P Q : Operation num -> Prop) (db db' : PresaleDatabase) :
  (forall o, P o -> Q o) -> via P db db' -> via Q db db'.
Proof.
  intros HPQ (calls & Hc & ->). exists calls. split; [|reflexivity].
  revert Hc. apply Forall_impl. exact HPQ.
Qed.

Lemma built_via (db db' : PresaleDatabase) :
  built db -> via drawn db db' -> built db'.
Proof.
  intros Hb (calls & Hc & ->). revert db Hb.
  induction Hc as [|o r Ho _ IH]; intros db Hb; [exact Hb|].
  unfold run. cbn [fold_left]. apply IH. now apply built_perform.
Qed.

(** Calls that are drawn and quiet, and those of them made for presale
    [j] or for none. *)
#[local] Abbreviation calm := (fun o : Operation num => drawn o /\ quiet o).
#[local] Abbreviation calm_at :=
  (fun (j : string) (o : Operation num) =>
     drawn o /\ quiet o /\ aimed j o).

Ltac via_calls :=
  repeat first
    [ assumption
    | apply via_same
    | apply (via_perform _ (UpdatePresaleStatus _ _ _)); [repeat split|]
    | apply (via_perform _ (CheckExpiredPresales _)); [repeat split|]
    | apply (via_perform _ (CalculateFeeShares _)); [repeat split|]
    | apply (via_perform _ (MarkParticipantRefunded _ _ _));
        [repeat split|]
    | apply (via_perform _ (MarkParticipantWithdrawn _ _ _ _));
        [repeat split|] ].

Lemma via_launchPresaleToken (env : LaunchPresale.Env)
    (db : PresaleDatabase) (i : string) (force : bool) :
  via (calm_at i) db
      (snd (fst (LaunchPresale.launchPresaleToken env db i force))).
Proof.
  destruct (LaunchOutcome.launchPresaleToken_cases env db i force)
    as [(_ & _ & [-> | ->])
       | (presale & launcher & _ & _ & _ & _ & _ & _ & _ & _
          & [(_ & ->) | [(mint & key & _ & _ & _ & ->)
                        | (mint & key & s & _ & ->)]])];
    via_calls.
Qed.

Lemma via_precheck (env : JoinRoute.Env num) (db : PresaleDatabase)
    (i : string) (body : JoinRoute.JoinBody num) :
  via (calm_at i) db (snd (JoinRoute.precheck env db i body)).
Proof.
  unfold JoinRoute.precheck.
  repeat match goal with
         | |- context [match ?x with _ => _ end] =>
             lazymatch x with
             | context [match _ with _ => _ end] => fail
             | _ => destruct x
             end
         end; cbn [snd]; via_calls.
Qed.

Lemma via_JoinRoute (env : JoinRoute.Env num) (db : PresaleDatabase)
    (i : string) (body : JoinRoute.JoinBody num) :
  via (fun o => drawn o /\ aimed i o) db
      (snd (fst (JoinRoute.POST env db i body))).
Proof.
  unfold JoinRoute.POST.
  pose proof (via_weaken (calm_at i) (fun o => drawn o /\ aimed i o) _ _
                (fun o Ho => conj (proj1 Ho) (proj2 (proj2 Ho)))
                (via_precheck env db i body)) as Hpre.
  destruct (JoinRoute.precheck env db i body) as [[r|] db1];
    cbn [snd] in Hpre; [exact Hpre|].
  destruct (JoinRoute.verify env body); [exact Hpre|].
  unfold JoinRoute.commit.
  set (data := {| add_presale_id := i;
                  add_wallet := JoinRoute.body_wallet body;
                  add_amount_sol := JoinRoute.body_amount_sol body;
                  add_tx_signature := JoinRoute.body_tx_signature body |}).
  assert (Hadd : via (fun o => drawn o /\ aimed i o) db
                     (snd (addParticipant db1 data (JoinRoute.clock_add env)))).
  { apply (via_perform _ (AddParticipant data _));
      [now split | exact Hpre]. }
  destruct (addParticipant db1 data (JoinRoute.clock_add env))
    as [[x|] db2]; cbn [snd] in Hadd; [|exact Hadd].
  assert (Hconf : via (fun o => drawn o /\ aimed i o) db
                      (snd (confirmParticipant db2 i
                              (JoinRoute.body_wallet body)))).
  { apply (via_perform _ (ConfirmParticipant _ _));
      [now split | exact Hadd]. }
  destruct (confirmParticipant db2 i (JoinRoute.body_wallet body))
    as [[[x' updatedPresale]|] db3]; cbn [snd] in Hconf; [|exact Hconf].
  destruct (_ && _); [|exact Hconf].
  pose proof (via_weaken (calm_at i) (fun o => drawn o /\ aimed i o) _ _
                (fun o Ho => conj (proj1 Ho) (proj2 (proj2 Ho)))
                (via_launchPresaleToken (JoinRoute.launch_env env) db3 i
                                        false)) as Hl.
  destruct (LaunchPresale.launchPresaleToken (JoinRoute.launch_env env)
                                             db3 i false)
    as [[r db4] trace]. cbn [fst snd] in *.
  now apply (via_compose _ db db3).
Qed.

Lemma via_RefundRoute (env : RefundRoute.Env num) (db : PresaleDatabase)
    (i wallet : string) :
  via (calm_at i) db (snd (fst (RefundRoute.POST env db i wallet))).
Proof.
  unfold RefundRoute.POST. cbv zeta.
  repeat match goal with
         | |- context [match ?x with _ => _ end] =>
             lazymatch x with
             | context [match _ with _ => _ end] => fail
             | _ => destruct x
             end
         end; cbn [fst snd]; via_calls.
Qed.

Lemma via_Finalize (env : ListRoute.FinalizeEnv) (db : PresaleDatabase)
    (body : ListRoute.FinalizeBody) :
  via (calm_at (ListRoute.body_presale_id body)) db
      (snd (fst (ListRoute.POST env db body))).
Proof.
  unfold ListRoute.POST.
  repeat match goal with
         | |- context [match ?x with _ => _ end] =>
             lazymatch x with
             | context [match _ with _ => _ end] => fail
             | _ => destruct x
             end
         end; cbn [fst snd]; via_calls.
Qed.

Lemma via_CreateRoute (env : CreateRoute.Env num) (db : PresaleDatabase)
    (body : CreateRoute.CreateBody num) (j : string) :
  String.length (CreateRoute.suffix env) = 4%nat ->
  via (calm_at j) db (snd (CreateRoute.POST env db body)).
Proof.
  intros Hs. unfold CreateRoute.POST. cbv zeta.
  repeat match goal with
         | |- context [if ?x then _ else _] => destruct x
         end; cbn [snd]; try apply via_same.
  destruct (CreateRoute.verifyLaunchFeeTransaction _);
    [apply via_same|].
  match goal with
  | |- context [createPresale db ?data ?now ?s] =>
      pose proof (via_perform (calm_at j) (CreatePresale data now s) db db
                    (conj Hs (conj I I)) (via_same _ _)) as Hc;
      cbn [perform] in Hc;
      destruct (createPresale db data now s) as [[m|p] db1]
  end; exact Hc.
Qed.

(** A request other than a join is served by calls that are quiet; every
    request by calls made for the presale it names or for none. *)
Lemma via_serve_at (r : Api.Request num) (db : PresaleDatabase)
    (j : string) :
  Api.drawn r ->
  (Api.subject r = None \/ Api.subject r = Some j) ->
  via (fun o => drawn o /\ aimed j o) db (Api.serve r db)
  /\ match r with
     | Api.JoinPOST _ _ _ => True
     | _ => via (calm_at j) db (Api.serve r db)
     end.
Proof.
  assert (W : forall db', via (calm_at j) db db' ->
                          via (fun o => drawn o /\ aimed j o) db db').
  { intros db'. apply via_weaken. tauto. }
  destruct r
    as [env body|env q|env body| |env i|i w action|env i body|env i w
       |env i w|env i force|i];
    cbn [Api.serve Api.drawn Api.subject]; intros Hd Hj;
    try (split; [apply via_same | apply via_same]).
  - assert (V := via_CreateRoute env db body j Hd). split; auto.
  - assert (V : via (calm_at j) db (snd (ListRoute.GET env db q))).
    { unfold ListRoute.GET. cbv zeta. cbn [snd]. via_calls. }
    split; auto.
  - destruct Hj as [Hj | Hj]; [discriminate|]. injection Hj as <-.
    assert (V := via_Finalize env db body). split; auto.
  - assert (V : via (calm_at j) db (snd (DetailRoute.GET env db i))).
    { unfold DetailRoute.GET. cbv zeta.
      destruct (getPresaleById _ _); cbn [snd]; via_calls. }
    split; auto.
  - destruct Hj as [Hj | Hj]; [discriminate|]. injection Hj as <-.
    split; [apply via_JoinRoute | exact I].
  - destruct Hj as [Hj | Hj]; [discriminate|]. injection Hj as <-.
    assert (V := via_RefundRoute env db i w). split; auto.
  - destruct Hj as [Hj | Hj]; [discriminate|]. injection Hj as <-.
    unfold LaunchRoute.POST.
    pose proof (via_launchPresaleToken env db i force) as Hl.
    destruct (LaunchPresale.launchPresaleToken env db i force)
      as [[r db1] trace]. cbn [fst snd] in *. split; auto.
Qed.

Lemma subject_some (r : Api.Request num) :
  exists j, Api.subject r = None \/ Api.subject r = Some j.
Proof.
  destruct (Api.subject r) as [j|]; [exists j; now right|].
  exists ""; now left.
Qed.

(** Every request is a sequence of calls of the exported functions. *)
Lemma via_serve (r : Api.Request num) (db : PresaleDatabase) :
  Api.drawn r -> via drawn db (Api.serve r db).
Proof.
  intros Hd. destruct (subject_some r) as (j & Hj).
  apply (via_weaken (fun o => drawn o /\ aimed j o)); [tauto|].
  now apply via_serve_at.
Qed.

Lemma built_served (db : PresaleDatabase) : Api.served db -> built db.
Proof.
  induction 1 as [|r db _ IH Hd]; [apply built_empty|].
  apply (built_via db); [exact IH | now apply via_serve].
Qed.

End WithNumber.

End RouteCalls.

(* ================================================================== *)
(** ** The launch, seen from outside *)

Module LaunchGuards.
Import PresaleDb LaunchSpec.

Section WithNumber.
Context {num : Type} `{Number num}.

#[local] Abbreviation Presale := (Presale num).
#[local] Abbreviation PresaleDatabase := (PresaleDatabase num).

Lemma getPresaleById_calculateFeeShares (db : PresaleDatabase)
    (i j : string) :
  getPresaleById (snd (calculateFeeShares db j)) i = getPresaleById db i.
Proof.
  unfold getPresaleById.
  now rewrite LaunchProps.presales_calculateFeeShares.
Qed.

Lemma status_object_assign (d : PresalePatch) (s : PresaleStatus)
    (p : Presale) :
  status (object_assign d (set_status s p)) = s.
Proof. reflexivity. Qed.

(** A launched presale stops the launch before anything is written. *)
Lemma launched_store_kept (env : LaunchPresale.Env) (db : PresaleDatabase)
    (i : string) (force : bool) (p : Presale) :
  getPresaleById db i = Some p -> status p = launched ->
  snd (fst (LaunchPresale.launchPresaleToken env db i force)) = db.
Proof.
  intros Ep Es. unfold LaunchPresale.launchPresaleToken.
  destruct (negb (LaunchPresale.BAGS_API_KEY env)); [reflexivity|].
  destruct (LaunchPresale.LAUNCHER_PRIVATE_KEY env); [|reflexivity].
  rewrite Ep, Es. reflexivity.
Qed.

(** X15: [launchPresaleToken] sends a request to the launch service only
    when the API key and the launcher key are configured, the presale
    exists and is not launched, it is full or the launch is forced, and it
    has a confirmed participant.  The first request then registers the
    metadata under the name and symbol of the presale, no later request
    does, and every fee-share configuration asked for is paid by the
    launcher and carries the wallets and basis points that
    [calculateFeeShares] returned, which sum to 10000. *)
Theorem launch_requests_guarded (env : LaunchPresale.Env)
    (db : PresaleDatabase) (i : string) (force : bool) :
  let out := LaunchPresale.launchPresaleToken env db i force in
  let shares := fst (calculateFeeShares db i) in
  snd out <> [] ->
  exists presale launcher rest,
    LaunchPresale.BAGS_API_KEY env = true
    /\ LaunchPresale.LAUNCHER_PRIVATE_KEY env = Some (inr launcher)
    /\ getPresaleById db i = Some presale
    /\ status presale <> launched
    /\ (force = true
        \/ target_participants presale <= participant_count presale)
    /\ getPresaleParticipants db i <> []
    /\ eqb (sum (map bps shares)) (of_int 10000) = true
    /\ snd out
       = LaunchPresale.CreateTokenInfo (token_name presale)
                                       (token_symbol presale) :: rest
    /\ Forall (follows launcher shares) rest.
Proof.
  cbv zeta. intros Hsent.
  destruct (LaunchOutcome.launchPresaleToken_cases env db i force)
    as [(Hnone & _) | (presale & launcher & Hk & Hl & Hp & Hs & Hf & Hparts
                       & Hsum & (rest & Et & Hrest) & _)];
    [contradiction|].
  exists presale, launcher, rest. repeat (split; [assumption|]).
  assumption.
Qed.

(** X16: for a presale that exists and is not launched,
    [launchPresaleToken] leaves it marked launched exactly when it reports
    success.  On success the presale stored carries the token id, the
    configuration key, the signature and the time of the launch that the
    result reports; on failure its status is what it was, or active. *)
Theorem launch_success_recorded (env : LaunchPresale.Env)
    (db : PresaleDatabase) (i : string) (force : bool) (presale : Presale) :
  getPresaleById db i = Some presale -> status presale <> launched ->
  let out := LaunchPresale.launchPresaleToken env db i force in
  exists q,
    getPresaleById (snd (fst out)) i = Some q
    /\ (status q = launched <-> LaunchPresale.success (fst (fst out)) = true)
    /\ (LaunchPresale.success (fst (fst out)) = true ->
        exists mint key signature,
          fst (fst out) = launched_as mint key signature
          /\ q = object_assign
                   (completed mint key signature
                              (LaunchPresale.launch_clock env))
                   (set_status launched presale))
    /\ (LaunchPresale.success (fst (fst out)) = false ->
        status q = status presale \/ status q = active).
Proof.
  intros Ep Es. cbv zeta.
  assert (Ep1 : getPresaleById (snd (calculateFeeShares db i)) i
                = Some presale)
    by now rewrite getPresaleById_calculateFeeShares.
  assert (Hsame : forall (r : LaunchPresale.LaunchResult num)
                          (db' : PresaleDatabase),
             LaunchPresale.success r = false ->
             getPresaleById db' i = Some presale ->
             exists q,
               getPresaleById db' i = Some q
               /\ (status q = launched <-> LaunchPresale.success r = true)
               /\ (LaunchPresale.success r = true ->
                   exists mint key signature,
                     r = launched_as mint key signature
                     /\ q = object_assign
                              (completed mint key signature
                                 (LaunchPresale.launch_clock env))
                              (set_status launched presale))
               /\ (LaunchPresale.success r = false ->
                   status q = status presale \/ status q = active)).
  { intros r db' Hr Hq. exists presale. rewrite Hr.
    repeat split; try easy. now left. }
  destruct (LaunchOutcome.launchPresaleToken_cases env db i force)
    as [(_ & Hfail & [E | E])
       | (presale0 & launcher & _ & _ & _ & _ & _ & _ & _ & _
          & [(Hfail & E) | [(mint & key & Hfail & _ & _ & E)
                           | (mint & key & s & Hr & E)]])].
  - apply Hsame; [exact Hfail | now rewrite E].
  - apply Hsame; [exact Hfail | now rewrite E].
  - apply Hsame; [exact Hfail | now rewrite E].
  - rewrite E, Hfail.
    rewrite (LaunchProps.getPresaleById_updatePresaleStatus _ _ _ _ _ Ep1).
    eexists. split; [reflexivity|].
    rewrite status_object_assign.
    repeat split; try easy. now right.
  - rewrite E, Hr.
    rewrite (LaunchProps.getPresaleById_updatePresaleStatus _ _ _ _ _ Ep1).
    eexists. split; [reflexivity|].
    rewrite status_object_assign. cbn [LaunchPresale.success launched_as].
    repeat split; try easy.
    intros _. now exists mint, key, s.
Qed.

End WithNumber.

Import Scenarios.

Lemma launch_requests_guarded_witness :
  exists presale launcher rest,
    LaunchPresale.BAGS_API_KEY launch_ok = true
    /\ LaunchPresale.LAUNCHER_PRIVATE_KEY launch_ok = Some (inr launcher)
    /\ getPresaleById db_full PS1 = Some presale
    /\ status presale <> launched
    /\ (false = true
        \/ target_participants presale <= participant_count presale)
    /\ getPresaleParticipants db_full PS1 <> []
    /\ eqb (sum (map bps (fst (calculateFeeShares db_full PS1))))
           (of_int 10000) = true
    /\ snd (LaunchPresale.launchPresaleToken launch_ok db_full PS1 false)
       = LaunchPresale.CreateTokenInfo (token_name presale)
                                       (token_symbol presale) :: rest
    /\ Forall (follows launcher (fst (calculateFeeShares db_full PS1))) rest.
Proof.
  apply (launch_requests_guarded launch_ok db_full PS1 false).
  vm_compute. discriminate.
Defined.

Lemma launch_success_recorded_witness :
  exists q,
    getPresaleById db_launched PS1 = Some q
    /\ (status q = launched <->
        LaunchPresale.success
          (fst (fst (LaunchPresale.launchPresaleToken launch_ok db_full PS1
                                                      false))) = true).
Proof.
  destruct (launch_success_recorded launch_ok db_full PS1 false _
              eq_refl ltac:(discriminate)) as (q & Hq & Hiff & _).
  exists q. split; [exact Hq | exact Hiff].
Defined.

End LaunchGuards.

(* ================================================================== *)
(** ** The join route *)

Module JoinOutcome.
Import PresaleDb.

Section WithNumber.
Context {num : Type} `{Number num}.

#[local] Abbreviation Presale := (Presale num).
#[local] Abbreviation PresaleParticipant := (PresaleParticipant num).
#[local] Abbreviation PresaleDatabase := (PresaleDatabase num).

Lemma find_none_weaken {A : Type} (f g : A -> bool) (l : list A) :
  (forall x, g x = true -> f x = true) ->
  find f l = None -> find g l = None.
Proof.
  intros Hfg. induction l as [|x r IH]; cbn; [reflexivity|].
  destruct (g x) eqn:Eg.
  - now rewrite (Hfg x Eg).
  - destruct (f x); [discriminate | exact IH].
Qed.

Lemma pending_unresolved (pid w : string) (x : PresaleParticipant) :
  pending_of pid w x = true -> unresolved_of pid w x = true.
Proof.
  unfold pending_of, unresolved_of.
  destruct (String.eqb (presale_id x) pid), (String.eqb (wallet x) w),
    (confirmed x), (refunded x), (withdrawn x); cbn; congruence.
Qed.

(** The record that [addParticipant] has appended is the one
    [confirmParticipant] finds. *)
Lemma confirm_after_add (db db2 : PresaleDatabase)
    (data : AddParticipantData num) (now : Z) (x : PresaleParticipant) :
  addParticipant db data now = (Some x, db2) ->
  exists presale db3,
    getPresaleById db (add_presale_id data) = Some presale
    /\ getParticipantByWallet db (add_presale_id data) (add_wallet data)
       = None
    /\ amount_sol x = add_amount_sol data
    /\ confirmParticipant db2 (add_presale_id data) (add_wallet data)
       = (Some (set_confirmed x,
                set_totals (add (total_sol presale) (add_amount_sol data))
                           (participant_count presale + 1) presale),
          db3).
Proof.
  unfold addParticipant, getPresaleById, getParticipantByWallet.
  destruct (find (has_id (add_presale_id data)) (presales db))
    as [presale|] eqn:Ep; [|discriminate].
  destruct (find (unresolved_of (add_presale_id data) (add_wallet data))
                 (participants db)) eqn:Ex; [discriminate|].
  intros E. injection E as <- <-.
  exists presale. eexists. repeat split.
  unfold confirmParticipant. cbn [participants presales with_participants].
  rewrite (StoreFunctions.find_app_none _ (participants db)).
  - rewrite Ep. reflexivity.
  - revert Ex. apply find_none_weaken. apply pending_unresolved.
  - unfold pending_of. cbn. now rewrite !String.eqb_refl.
Qed.

(** What a request that passed the checks before the look-up has shown. *)
Lemma precheck_passed (env : JoinRoute.Env num) (db db1 : PresaleDatabase)
    (i : string) (body : JoinRoute.JoinBody num) :
  JoinRoute.precheck env db i body = (None, db1) ->
  db1 = snd (checkExpiredPresales db (JoinRoute.clock_expiry env))
  /\ exists presale,
       getPresaleById db1 i = Some presale
       /\ status presale = active
       /\ JoinRoute.clock_check env <= expires_at presale
       /\ participant_count presale < target_participants presale
       /\ JoinRoute.body_wallet body <> creator_wallet presale
       /\ ltb (JoinRoute.body_amount_sol body) (min_sol_per_wallet presale)
          = false
       /\ gtb (JoinRoute.body_amount_sol body) (max_sol_per_wallet presale)
          = false.
Proof.
  unfold JoinRoute.precheck.
  destruct (_ || _); [discriminate|].
  set (db0 := snd (checkExpiredPresales db (JoinRoute.clock_expiry env))).
  destruct (getPresaleById db0 i) as [presale|] eqn:Ep; [|discriminate].
  destruct (status_eqb (status presale) active) eqn:Es;
    cbn [negb]; [|discriminate].
  destruct (expires_at presale <? JoinRoute.clock_check env) eqn:Ee;
    [discriminate|].
  destruct (target_participants presale <=? participant_count presale)
    eqn:Ef; [discriminate|].
  destruct (String.eqb (JoinRoute.body_wallet body) (creator_wallet presale))
    eqn:Ec; [discriminate|].
  destruct (match getParticipantByWallet db0 i (JoinRoute.body_wallet body)
            with Some existing => confirmed existing | None => false end);
    [discriminate|].
  destruct (ltb _ _) eqn:Emin; [discriminate|].
  destruct (gtb _ _) eqn:Emax; [discriminate|].
  intros E. injection E as <-. split; [reflexivity|].
  exists presale. repeat split; try assumption.
  - now destruct (status presale).
  - now apply Z.ltb_ge in Ee.
  - now apply Z.leb_gt in Ef.
  - now apply String.eqb_neq in Ec.
Qed.

(** X17: the join route never answers that the participant could not be
    confirmed: the record that [addParticipant] has just added is always
    found by [confirmParticipant]. *)
Theorem join_confirm_never_fails (env : JoinRoute.Env num)
    (db : PresaleDatabase) (i : string) (body : JoinRoute.JoinBody num) :
  match fst (fst (JoinRoute.POST env db i body)) with
  | JoinRoute.Error _ JoinRoute.ConfirmFailed => False
  | _ => True
  end.
Proof.
  assert (Hne : forall http,
             fst (fst (JoinRoute.POST env db i body))
             <> JoinRoute.Error http JoinRoute.ConfirmFailed);
    [|destruct (fst (fst (JoinRoute.POST env db i body))) as [http e|];
      [destruct e; try exact I; now apply (Hne http) | exact I]].
  intros http. unfold JoinRoute.POST.
  destruct (JoinRoute.precheck env db i body) as [[r|] db1] eqn:Epre.
  - cbn [fst]. unfold JoinRoute.precheck in Epre.
    repeat match type of Epre with
           | context [match ?x with _ => _ end] =>
               lazymatch x with
               | context [match _ with _ => _ end] => fail
               | _ => destruct x
               end
           end;
      congruence.
  - destruct (JoinRoute.verify env body) as [r|] eqn:Ev.
    + cbn [fst]. unfold JoinRoute.verify, JoinRoute.check_transaction in Ev.
      repeat match type of Ev with
             | context [match ?x with _ => _ end] =>
                 lazymatch x with
                 | context [match _ with _ => _ end] => fail
                 | _ => destruct x
                 end
             end;
        congruence.
    + unfold JoinRoute.commit.
      destruct (addParticipant db1 _ (JoinRoute.clock_add env))
        as [[x|] db2] eqn:Eadd; [|discriminate].
      destruct (confirm_after_add _ _ _ _ _ Eadd)
        as (presale & db3 & _ & _ & _ & Ec).
      cbn [add_presale_id add_wallet add_amount_sol] in Ec. rewrite Ec.
      destruct (_ && _); [|discriminate].
      destruct (LaunchPresale.launchPresaleToken _ db3 i false)
        as [[r db4] trace]. discriminate.
Qed.

(** X18: when the look-up of the deposit throws, the route goes on without
    it: a request that passed the checks made before the look-up, from a
    wallet without an open record in the presale, is answered with success,
    and the amount it names is added to the total of the presale, although
    no transaction has been seen. *)
Theorem join_without_evidence (env : JoinRoute.Env num)
    (db db1 : PresaleDatabase) (i : string)
    (body : JoinRoute.JoinBody num) (message : string) :
  JoinRoute.lookup_first env = inl message ->
  JoinRoute.precheck env db i body = (None, db1) ->
  getParticipantByWallet db1 i (JoinRoute.body_wallet body) = None ->
  exists presale joined,
    getPresaleById db1 i = Some presale
    /\ fst (fst (JoinRoute.POST env db i body)) = JoinRoute.Ok joined
    /\ JoinRoute.joined_participant_count joined
       = participant_count presale + 1
    /\ JoinRoute.joined_total_sol joined
       = add (total_sol presale) (JoinRoute.body_amount_sol body).
Proof.
  intros Hl Hpre Hnone.
  destruct (precheck_passed _ _ _ _ _ Hpre) as (_ & presale & Hp & _).
  exists presale.
  unfold JoinRoute.POST. rewrite Hpre.
  unfold JoinRoute.verify. rewrite Hl.
  unfold JoinRoute.commit.
  destruct (addParticipant db1 _ (JoinRoute.clock_add env))
    as [[x|] db2] eqn:Eadd.
  - destruct (confirm_after_add _ _ _ _ _ Eadd)
      as (presale' & db3 & Hp' & _ & _ & Ec).
    cbn [add_presale_id add_wallet add_amount_sol] in Ec, Hp'.
    rewrite Hp in Hp'. injection Hp' as <-. rewrite Ec.
    destruct (_ && _).
    + destruct (LaunchPresale.launchPresaleToken _ db3 i false)
        as [[r db4] trace].
      eexists. split; [exact Hp|]. split; [reflexivity|].
      split; reflexivity.
    + eexists. split; [exact Hp|]. split; [reflexivity|].
      split; reflexivity.
  - exfalso. unfold addParticipant in Eadd.
    cbn [add_presale_id add_wallet] in Eadd.
    unfold getPresaleById in Hp. rewrite Hp in Eadd.
    unfold getParticipantByWallet in Hnone. rewrite Hnone in Eadd.
    discriminate.
Qed.

End WithNumber.

Import Scenarios RouteScenarios.

(** ALICE joins the presale of [created 2] at 2000 with a signature that
    was never looked up. *)
Lemma join_without_evidence_witness :
  exists presale joined,
    getPresaleById (created 2) PS1 = Some presale
    /\ fst (fst (JoinRoute.POST (join_blind 2000) (created 2) PS1
                                alice_joins))
       = JoinRoute.Ok joined
    /\ JoinRoute.joined_participant_count joined
       = participant_count presale + 1
    /\ JoinRoute.joined_total_sol joined
       = add (total_sol presale) (JoinRoute.body_amount_sol alice_joins).
Proof.
  apply (join_without_evidence (join_blind 2000) (created 2) (created 2)
           PS1 alice_joins "fetch failed").
  - reflexivity.
  - vm_compute. reflexivity.
  - reflexivity.
Defined.

End JoinOutcome.

(* ================================================================== *)
(** ** The refund route *)

Module RefundOutcome.
Import PresaleDb RefundSpec.

Section WithNumber.
Context {num : Type} `{Number num}.

#[local] Abbreviation Presale := (Presale num).
#[local] Abbreviation PresaleParticipant := (PresaleParticipant num).
#[local] Abbreviation PresaleDatabase := (PresaleDatabase num).

Lemma find_holds {A : Type} (f : A -> bool) (l : list A) (x : A) :
  find f l = Some x -> f x = true.
Proof. intros E. now apply find_some in E. Qed.

Lemma unresolved_flags (pid w : string) (x : PresaleParticipant) :
  unresolved_of pid w x = true ->
  presale_id x = pid /\ wallet x = w
  /\ refunded x = false /\ withdrawn x = false.
Proof.
  unfold unresolved_of. intros E.
  apply andb_prop in E as [E E4]. apply andb_prop in E as [E E3].
  apply andb_prop in E as [E1 E2].
  apply String.eqb_eq in E1, E2.
  now destruct (refunded x), (withdrawn x).
Qed.

(** The presale is still there when a record has been settled, with the
    status, the terms and the target it had. *)
Lemma getPresaleById_settle
    (mark : PresaleParticipant -> PresaleParticipant)
    (db : PresaleDatabase) (i w : string) (p : Presale) :
  getPresaleById db i = Some p ->
  exists q,
    getPresaleById (snd (settle mark db i w)) i = Some q
    /\ status q = status p
    /\ (forall x, getParticipantByWallet db i w = Some x ->
                  confirmed x = true ->
                  participant_count q = participant_count p - 1).
Proof.
  intros Ep. unfold settle, getParticipantByWallet.
  destruct (find (unresolved_of i w) (participants db)) as [x|] eqn:Ex.
  2: { exists p. cbn [snd]. repeat split; [exact Ep | discriminate]. }
  unfold getPresaleById in *. cbn [snd presales]. rewrite Ep.
  destruct (confirmed x) eqn:Ec.
  - eexists. split.
    + apply (LaunchProps.find_update_first i _ p); [exact Ep|].
      cbn. now apply LaunchProps.find_has_id in Ep.
    + split; [reflexivity|]. intros y Ey _. reflexivity.
  - exists p. repeat split; [exact Ep|].
    intros y Ey Hy. injection Ey as <-. congruence.
Qed.

Lemma expiry_noted_participants (env : RefundRoute.Env num)
    (db : PresaleDatabase) (i : string) :
  participants (expiry_noted env db i) = participants db.
Proof.
  unfold expiry_noted. destruct (getPresaleById db i); [|reflexivity].
  destruct (_ && _); [|reflexivity].
  apply ExpiryProps.participants_updatePresaleStatus.
Qed.


(** X20: a presale that is launched, or that is active at the very
    millisecond of its expiry, is closed to both: the refund route answers
    that the wallet cannot withdraw, sends nothing and writes nothing. *)
Theorem refund_closed (env : RefundRoute.Env num) (db : PresaleDatabase)
    (i wallet : string) (presale : Presale) :
  wallet <> "" ->
  getPresaleById db i = Some presale ->
  status presale = launched
  \/ (status presale = active
      /\ RefundRoute.clock env = expires_at presale) ->
  RefundRoute.POST env db i wallet
  = (RefundRoute.Error 400 (RefundRoute.CannotWithdraw (status presale)),
     db, []).
Proof.
  intros Hw Ep Hc. unfold RefundRoute.POST.
  apply String.eqb_neq in Hw. rewrite Hw, Ep. cbv zeta.
  destruct Hc as [Es | (Es & Et)].
  - rewrite Es. cbn [status_eqb andb orb negb]. now rewrite Ep, Es.
  - rewrite Es, Et, Z.ltb_irrefl. cbn [status_eqb andb orb negb].
    now rewrite Ep, Es.
Qed.

(** X21: with the clock at one reading for both, what the GET handler of
    the refund route quotes is what the POST handler then does, unless the
    escrow, the amounts or the chain stop it: a withdrawal of the amount
    and with the tax quoted where the quote says active, a refund where it
    does not.  The quote is refused for a presale in status refunding,
    whose participants the POST handler refunds. *)
Theorem quote_then_refund (env : RefundRoute.Env num)
    (db : PresaleDatabase) (i wallet tax_wallet : string) :
  let asked :=
    RefundQuote.GET
      {| RefundQuote.clock_active := RefundRoute.clock env;
         RefundQuote.clock_failed := RefundRoute.clock env;
         RefundQuote.TAX_WALLET := tax_wallet |} db i wallet in
  let answer := fst (fst (RefundRoute.POST env db i wallet)) in
  (forall q,
      asked = RefundQuote.Quoted q ->
      match answer with
      | RefundRoute.Error _ e => technical e
      | RefundRoute.Withdrawal a tax _ _ =>
          RefundQuote.is_active q = true
          /\ a = RefundQuote.original_amount q
          /\ tax = RefundQuote.tax_amount q
      | RefundRoute.Refund _ _ =>
          RefundQuote.is_active q = false
          /\ RefundQuote.is_failed q = true
          /\ RefundQuote.tax_amount q = of_int 0
      end)
  /\ (forall presale x,
         wallet <> "" ->
         getPresaleById db i = Some presale ->
         status presale = refunding ->
         getParticipantByWallet db i wallet = Some x ->
         confirmed x = true ->
         asked = RefundQuote.Error 400 (RefundQuote.CannotWithdraw refunding)
         /\ match answer with
            | RefundRoute.Error _ e => technical e
            | RefundRoute.Withdrawal _ _ _ _ => False
            | RefundRoute.Refund _ _ => True
            end).
Proof.
  cbv zeta.
  assert (Hpost : forall presale x,
             wallet <> "" ->
             getPresaleById db i = Some presale ->
             getParticipantByWallet db i wallet = Some x ->
             confirmed x = true ->
             let isActive :=
               status_eqb (status presale) active
               && (RefundRoute.clock env <? expires_at presale) in
             let isFailed :=
               status_eqb (status presale) failed
               || status_eqb (status presale) refunding
               || status_eqb (status presale) active
                  && (expires_at presale <? RefundRoute.clock env) in
             negb isActive && negb isFailed = false ->
             match fst (fst (RefundRoute.POST env db i wallet)) with
             | RefundRoute.Error _ e => technical e
             | RefundRoute.Withdrawal a tax _ _ =>
                 isActive = true /\ a = amount_sol x
                 /\ tax = Constants.taxAmount
                            (Constants.calculateWithdrawalTax (amount_sol x))
             | RefundRoute.Refund _ _ => isActive = false
             end).
  { intros presale x Hw Ep Ex Ec. cbv zeta. intros Eopen.
    unfold RefundRoute.POST.
    apply String.eqb_neq in Hw. rewrite Hw, Ep. cbv zeta.
    rewrite Eopen.
    fold (expiry_noted env db i).
    assert (Enoted : (if status_eqb (status presale) active
                         && (expires_at presale <? RefundRoute.clock env)
                      then snd (updatePresaleStatus db i failed no_patch)
                      else db) = expiry_noted env db i).
    { unfold expiry_noted. now rewrite Ep. }
    rewrite Enoted.
    unfold getParticipantByWallet in *.
    rewrite expiry_noted_participants, Ex.
    destruct (unresolved_flags _ _ _ (find_holds _ _ _ Ex))
      as (_ & _ & Er & Ew).
    rewrite Er, Ew, Ec. cbn [negb].
    destruct (RefundRoute.ESCROW_PRIVATE_KEY env) as [[m|key]|];
      [exact I | | exact I].
    destruct (RefundRoute.getBalance env) as [m|escrowBalance];
      [exact I|].
    destruct (status_eqb (status presale) active
              && (RefundRoute.clock env <? expires_at presale)).
    - destruct (leb _ _); [exact I|].
      destruct (ltb _ _); [exact I|].
      destruct (RefundRoute.sendAndConfirmTransaction env); [exact I|].
      cbn [fst]. now repeat split.
    - destruct (leb _ _); [exact I|].
      destruct (ltb _ _); [exact I|].
      destruct (RefundRoute.sendAndConfirmTransaction env); [exact I|].
      reflexivity. }
  split.
  - intros q. unfold RefundQuote.GET.
    destruct (String.eqb wallet "") eqn:Hw; [discriminate|].
    apply String.eqb_neq in Hw.
    destruct (getPresaleById db i) as [presale|] eqn:Ep; [|discriminate].
    destruct (getParticipantByWallet db i wallet) as [x|] eqn:Ex;
      [|discriminate].
    destruct (confirmed x) eqn:Ec; cbn [negb]; [|discriminate].
    cbn [RefundQuote.clock_active RefundQuote.clock_failed].
    destruct (negb _ && negb _) eqn:Eopen; [discriminate|].
    assert (Eopen' :
              negb (status_eqb (status presale) active
                    && (RefundRoute.clock env <? expires_at presale))
              && negb (status_eqb (status presale) failed
                       || status_eqb (status presale) refunding
                       || status_eqb (status presale) active
                          && (expires_at presale <? RefundRoute.clock env))
              = false).
    { destruct (status presale); cbn [status_eqb andb orb negb] in *;
        try reflexivity; try discriminate; exact Eopen. }
    pose proof (Hpost presale x Hw eq_refl eq_refl Ec Eopen') as Hans.
    cbv zeta in Hans.
    destruct (status_eqb (status presale) active
              && (RefundRoute.clock env <? expires_at presale)) eqn:Eact;
      intros Eq; injection Eq as <-;
      cbn [RefundQuote.is_active RefundQuote.original_amount
           RefundQuote.tax_amount RefundQuote.is_failed];
      destruct (fst (fst (RefundRoute.POST env db i wallet)));
      try exact Hans; try discriminate.
    + now destruct Hans.
    + repeat split. cbn [negb andb] in Eopen.
      now apply negb_false_iff in Eopen.
  - intros presale x Hw Ep Es Ex Ec. split.
    + unfold RefundQuote.GET.
      apply String.eqb_neq in Hw. rewrite Hw, Ep, Ex, Ec, Es. reflexivity.
    + assert (Eopen :
                negb (status_eqb (status presale) active
                      && (RefundRoute.clock env <? expires_at presale))
                && negb (status_eqb (status presale) failed
                         || status_eqb (status presale) refunding
                         || status_eqb (status presale) active
                            && (expires_at presale
                                <? RefundRoute.clock env))
                = false) by now rewrite Es.
      pose proof (Hpost presale x Hw Ep Ex Ec Eopen) as Hans.
      cbv zeta in Hans. rewrite Es in Hans. cbn [status_eqb andb] in Hans.
      destruct (fst (fst (RefundRoute.POST env db i wallet)));
        [exact Hans | now destruct Hans | exact I].
Qed.

End WithNumber.

Import Scenarios.

(** ALICE asks at 601000, when the presale of [db_one] expires. *)
Lemma refund_closed_witness :
  RefundRoute.POST (refund_env 601000 "SIG1") db_one PS1 "ALICE"
  = (RefundRoute.Error 400 (RefundRoute.CannotWithdraw active), db_one, []).
Proof.
  refine (refund_closed (refund_env 601000 "SIG1") db_one PS1 "ALICE" _
                        _ eq_refl _).
  - discriminate.
  - right. split; reflexivity.
Defined.

End RefundOutcome.

(* ================================================================== *)
(** ** The create, finalize and detail routes *)

Module RouteOutcome.
Import PresaleDb.

Section WithNumber.
Context {num : Type} `{Number num}.

#[local] Abbreviation Presale := (Presale num).
#[local] Abbreviation PresaleParticipant := (PresaleParticipant num).
#[local] Abbreviation PresaleDatabase := (PresaleDatabase num).

(** X22: [verifyLaunchFeeTransaction] accepts exactly a transaction that
    was found, did not fail, and lists both the launcher's and the
    creator's key, unless the balances of the launcher can be read and show
    less than 99% of the fee.  A look-up or a key that throws is refused. *)
Theorem verifyLaunchFeeTransaction_valid
    (lookup : string + option (CreateRoute.FeeTransaction num)) :
  CreateRoute.verifyLaunchFeeTransaction lookup = inr tt
  <-> exists tx,
        lookup = inr (Some tx)
        /\ CreateRoute.fee_meta_err tx = false
        /\ CreateRoute.launcher_listed tx = inr true
        /\ CreateRoute.creator_listed tx = inr true
        /\ forall post pre,
             CreateRoute.launcher_post_balance tx = Some post ->
             CreateRoute.launcher_pre_balance tx = Some pre ->
             ltb (sub post pre)
                 (mul (mul Constants.PRESALE_CONFIG.LAUNCH_FEE_SOL
                           (of_int Constants.LAMPORTS_PER_SOL))
                      (decimal 99 100))
             = false.
Proof.
  unfold CreateRoute.verifyLaunchFeeTransaction. split.
  - destruct lookup as [m|[tx|]]; try discriminate.
    destruct (CreateRoute.fee_meta_err tx) eqn:Ee; [discriminate|].
    destruct (CreateRoute.launcher_listed tx) as [m|[|]] eqn:El;
      try discriminate.
    destruct (CreateRoute.launcher_post_balance tx) as [post|] eqn:Epost;
      [destruct (CreateRoute.launcher_pre_balance tx) as [pre|] eqn:Epre;
       [destruct (ltb _ _) eqn:Eshort; [discriminate|]|]|];
      (destruct (CreateRoute.creator_listed tx) as [m|[|]] eqn:Ec;
       try discriminate);
      intros _; exists tx; repeat split; try assumption;
      intros post' pre' E1 E2; congruence.
  - intros (tx & -> & Ee & El & Ec & Hshort). rewrite Ee, El, Ec.
    destruct (CreateRoute.launcher_post_balance tx) as [post|];
      [|reflexivity].
    destruct (CreateRoute.launcher_pre_balance tx) as [pre|];
      [|reflexivity].
    now rewrite (Hshort post pre eq_refl eq_refl).
Qed.

Lemma isValidDuration_again (d : Z) :
  Constants.isValidDuration d = true ->
  or_default (Some d) 30 = d.
Proof.
  intros Hd. apply StoreFunctions.isValidDuration_options in Hd.
  cbn in Hd. unfold or_default.
  destruct Hd as [<- | [<- | [<- | []]]]; reflexivity.
Qed.

Lemma or_default_again (t d : Z) : t <> 0 -> or_default (Some t) d = t.
Proof.
  intros Ht. unfold or_default.
  destruct (t =? 0) eqn:E; [apply Z.eqb_eq in E; contradiction|reflexivity].
Qed.

(** The create route, once its own checks are made: they read the body
    and the look-up of the payment only. *)
Lemma POST_checked (env : CreateRoute.Env num)
    (body : CreateRoute.CreateBody num) :
  let duration := or_default (CreateRoute.body_duration_minutes body) 30 in
  let target := or_default (CreateRoute.body_target_participants body) 68 in
  (exists e,
      (forall (env' : CreateRoute.Env num) (db' : PresaleDatabase),
          CreateRoute.getTransaction env' = CreateRoute.getTransaction env ->
          CreateRoute.POST env' db' body = (CreateRoute.Error 400 e, db'))
      /\ forall m, e <> CreateRoute.Exception m)
  \/ (CreateRoute.verifyLaunchFeeTransaction (CreateRoute.getTransaction env)
      = inr tt
      /\ CreateRoute.body_launch_fee_signature body <> ""
      /\ (String.length (CreateRoute.body_token_symbol body) <= 10)%nat
      /\ In duration [10; 20; 30]
      /\ 1 <= target <= 68
      /\ forall (env' : CreateRoute.Env num) (db' : PresaleDatabase),
           CreateRoute.getTransaction env' = CreateRoute.getTransaction env ->
           exists p db1,
             CreateRoute.POST env' db' body
             = (CreateRoute.Created p (target + 1) target, db1)
             /\ presales db1 = p :: presales db'
             /\ participants db1 = participants db'
             /\ lastPresaleNum db1 = lastPresaleNum db' + 1
             /\ id p = generatePresaleId (lastPresaleNum db' + 1)
                                         (CreateRoute.suffix env')
             /\ creator_wallet p = CreateRoute.body_creator_wallet body
             /\ launch_fee_signature p
                = Some (CreateRoute.body_launch_fee_signature body)
             /\ target_participants p = target
             /\ duration_minutes p = duration
             /\ created_at p = CreateRoute.clock env'
             /\ status p = active).
Proof.
  cbv zeta.
  destruct (String.eqb (CreateRoute.body_creator_wallet body) ""
            || String.eqb (CreateRoute.body_token_name body) ""
            || String.eqb (CreateRoute.body_token_symbol body) ""
            || String.eqb (CreateRoute.body_description body) ""
            || String.eqb (CreateRoute.body_image_url body) "") eqn:E1.
  { left. eexists. split.
    - intros env' db' _. unfold CreateRoute.POST. now rewrite E1.
    - discriminate. }
  destruct (String.eqb (CreateRoute.body_launch_fee_signature body) "")
    eqn:Es.
  { left. eexists. split.
    - intros env' db' _. unfold CreateRoute.POST. now rewrite E1, Es.
    - discriminate. }
  destruct (negb (Constants.isValidDuration
                    (or_default (CreateRoute.body_duration_minutes body)
                                30))) eqn:Ed.
  { left. eexists. split.
    - intros env' db' _. unfold CreateRoute.POST. now rewrite E1, Es, Ed.
    - discriminate. }
  destruct ((or_default (CreateRoute.body_target_participants body)
                        Constants.PRESALE_CONFIG.DEFAULT_PARTICIPANTS
             <? Constants.PRESALE_CONFIG.MIN_PARTICIPANTS)
            || (Constants.PRESALE_CONFIG.MAX_PARTICIPANTS
                <? or_default (CreateRoute.body_target_participants body)
                     Constants.PRESALE_CONFIG.DEFAULT_PARTICIPANTS))
    eqn:Et.
  { left. eexists. split.
    - intros env' db' _. unfold CreateRoute.POST. now rewrite E1, Es, Ed, Et.
    - discriminate. }
  destruct (10 <? String.length (CreateRoute.body_token_symbol body))%nat
    eqn:El.
  { left. eexists. split.
    - intros env' db' _. unfold CreateRoute.POST. now rewrite E1, Es, Ed, Et, El.
    - discriminate. }
  destruct (CreateRoute.verifyLaunchFeeTransaction
              (CreateRoute.getTransaction env)) as [e|[]] eqn:Ev.
  { left. eexists. split.
    - intros env' db' Htx. unfold CreateRoute.POST. now rewrite E1, Es, Ed, Et, El, Htx, Ev.
    - discriminate. }
  right.
  assert (Hrun : forall (env' : CreateRoute.Env num)
                        (db' : PresaleDatabase),
             CreateRoute.getTransaction env'
             = CreateRoute.getTransaction env ->
             CreateRoute.POST env' db' body
             = match
                 createPresale db'
                   {| data_creator_wallet :=
                        CreateRoute.body_creator_wallet body;
                      data_token_name := CreateRoute.body_token_name body;
                      data_token_symbol :=
                        CreateRoute.body_token_symbol body;
                      data_description :=
                        CreateRoute.body_description body;
                      data_image_url := CreateRoute.body_image_url body;
                      data_twitter := CreateRoute.body_twitter body;
                      data_website := CreateRoute.body_website body;
                      data_min_sol_per_wallet :=
                        Some (num_or_default
                                (CreateRoute.body_min_sol_per_wallet body)
                                Constants.PRESALE_CONFIG.DEFAULT_MIN_SOL);
                      data_max_sol_per_wallet :=
                        Some (num_or_default
                                (CreateRoute.body_max_sol_per_wallet body)
                                Constants.PRESALE_CONFIG.DEFAULT_MAX_SOL);
                      data_duration_minutes :=
                        Some (or_default
                                (CreateRoute.body_duration_minutes body) 30);
                      data_target_participants :=
                        Some (or_default
                                (CreateRoute.body_target_participants body)
                                Constants.PRESALE_CONFIG.DEFAULT_PARTICIPANTS);
                      data_launch_fee_signature :=
                        CreateRoute.body_launch_fee_signature body |}
                   (CreateRoute.clock env') (CreateRoute.suffix env')
               with
               | (inl m, db1) =>
                   (CreateRoute.Error 500 (CreateRoute.Exception m), db1)
               | (inr presale, db1) =>
                   (CreateRoute.Created presale
                      (or_default
                         (CreateRoute.body_target_participants body)
                         Constants.PRESALE_CONFIG.DEFAULT_PARTICIPANTS + 1)
                      (or_default
                         (CreateRoute.body_target_participants body)
                         Constants.PRESALE_CONFIG.DEFAULT_PARTICIPANTS),
                    db1)
               end).
  { intros env' db' Htx. unfold CreateRoute.POST.
    now rewrite E1, Es, Ed, Et, El, Htx, Ev. }
  apply negb_false_iff in Ed.
  apply String.eqb_neq in Es.
  apply Nat.ltb_ge in El.
  apply orb_false_iff in Et as [Et1 Et2]. apply Z.ltb_ge in Et1, Et2.
  unfold Constants.PRESALE_CONFIG.MIN_PARTICIPANTS,
         Constants.PRESALE_CONFIG.MAX_PARTICIPANTS,
         Constants.PRESALE_CONFIG.DEFAULT_PARTICIPANTS in *.
  repeat (split; [first [assumption | reflexivity
                        | now apply StoreFunctions.isValidDuration_options
                        | lia]|]).
  intros env' db' Htx. rewrite (Hrun env' db' Htx).
  unfold createPresale.
  cbn [data_duration_minutes data_target_participants
       data_launch_fee_signature].
  rewrite (isValidDuration_again _ Ed).
  unfold Constants.PRESALE_CONFIG.MIN_PARTICIPANTS,
         Constants.PRESALE_CONFIG.MAX_PARTICIPANTS,
         Constants.PRESALE_CONFIG.DEFAULT_PARTICIPANTS.
  rewrite or_default_again by lia.
  rewrite Ed. cbn [negb].
  replace (_ <? 1) with false by (symmetry; apply Z.ltb_ge; lia).
  replace (68 <? _) with false by (symmetry; apply Z.ltb_ge; lia).
  cbn [orb].
  replace (String.eqb (CreateRoute.body_launch_fee_signature body) "")
    with false by (symmetry; now apply String.eqb_neq).
  eexists _, _. split; [reflexivity|]. cbn. repeat split.
Qed.


(** X24: the create route does not look at the store when it accepts the
    fee payment: a request that was answered with a presale created is
    answered so again on whatever store, with the same look-up of the
    payment, and the new presale carries the same fee signature. *)
Theorem create_route_fee_reused (env env' : CreateRoute.Env num)
    (db db1 db' : PresaleDatabase) (body : CreateRoute.CreateBody num)
    (p : Presale) (max_wallets target : Z) :
  CreateRoute.POST env db body
  = (CreateRoute.Created p max_wallets target, db1) ->
  CreateRoute.getTransaction env' = CreateRoute.getTransaction env ->
  exists p' db2,
    CreateRoute.POST env' db' body
    = (CreateRoute.Created p' max_wallets target, db2)
    /\ presales db2 = p' :: presales db'
    /\ launch_fee_signature p' = launch_fee_signature p
    /\ creator_wallet p' = creator_wallet p.
Proof.
  intros Hfirst Htx.
  destruct (POST_checked env body)
    as [(e & He & _) | (_ & _ & _ & _ & _ & Hc)].
  { rewrite (He env db eq_refl) in Hfirst. discriminate. }
  destruct (Hc env db eq_refl)
    as (p0 & db0 & E0 & _ & _ & _ & _ & Hcr0 & Hfee0 & _).
  rewrite E0 in Hfirst. injection Hfirst as -> <- <- ->.
  destruct (Hc env' db' Htx)
    as (p' & db2 & E' & Hp' & _ & _ & _ & Hcr' & Hfee' & _).
  exists p', db2. rewrite E'. repeat split; try assumption; congruence.
Qed.


(** A presale that the expiry check at [now] leaves active does not
    expire before [now]. *)
Lemma active_after_check (db : PresaleDatabase) (now : Z) (i : string)
    (p : Presale) :
  getPresaleById (snd (checkExpiredPresales db now)) i = Some p ->
  status p = active -> now <= expires_at p.
Proof.
  rewrite StoreFunctions.checkExpiredPresales_maps. unfold getPresaleById.
  cbn [snd presales with_presales]. intros Ef Es.
  apply find_some in Ef as [Hin _].
  apply in_map_iff in Hin as (p0 & <- & _).
  unfold ExpirySpec.expire, ExpirySpec.is_expired in *.
  destruct (status_eqb (status p0) active) eqn:E0; cbn [andb] in *.
  - destruct (expires_at p0 <? now) eqn:Et; [discriminate|].
    now apply Z.ltb_ge in Et.
  - rewrite Es in E0. discriminate.
Qed.

(** X25: in what the detail route reports, [can_join] and [can_refund]
    are never both set; [can_join] is set only for an active presale that
    is not full and has not reached its expiry at the time of the request;
    [can_refund] only for a failed or refunding one.  The status reported
    is failed without [can_refund] being set exactly for a presale stored
    as active whose expiry lies between the two readings of the clock, the
    one of the expiry check and the one of the handler.  The participants
    listed are the confirmed, unresolved ones, in store order. *)
Theorem detail_route_flags (env : DetailRoute.Env) (db : PresaleDatabase)
    (i : string) :
  match fst (DetailRoute.GET env db i) with
  | None =>
      getPresaleById
        (snd (checkExpiredPresales db (DetailRoute.clock_expiry env))) i
      = None
  | Some d =>
      (DetailRoute.can_join d = true ->
       DetailRoute.detail_status d = active
       /\ DetailRoute.clock_now env < DetailRoute.detail_expires_at d
       /\ DetailRoute.is_full d = false)
      /\ (DetailRoute.can_refund d = true ->
          DetailRoute.detail_status d = failed
          \/ DetailRoute.detail_status d = refunding)
      /\ DetailRoute.can_join d && DetailRoute.can_refund d = false
      /\ (DetailRoute.detail_status d = failed
          /\ DetailRoute.can_refund d = false
          <-> exists p,
                getPresaleById
                  (snd (checkExpiredPresales
                          db (DetailRoute.clock_expiry env))) i = Some p
                /\ status p = active
                /\ DetailRoute.clock_expiry env <= expires_at p
                   <= DetailRoute.clock_now env)
      /\ 0 <= DetailRoute.time_remaining_seconds d
      /\ map DetailRoute.view_wallet (DetailRoute.detail_participants d)
         = map wallet (getPresaleParticipants db i)
  end.
Proof.
  unfold DetailRoute.GET.
  set (db0 := snd (checkExpiredPresales db (DetailRoute.clock_expiry env))).
  destruct (getPresaleById db0 i) as [p|] eqn:Ep; [|reflexivity].
  cbn [fst DetailRoute.can_join DetailRoute.can_refund
       DetailRoute.detail_status DetailRoute.detail_expires_at
       DetailRoute.is_full DetailRoute.time_remaining_seconds
       DetailRoute.detail_participants].
  assert (Hparts : getPresaleParticipants db0 i = getPresaleParticipants db i).
  { unfold getPresaleParticipants, db0.
    now rewrite StoreFunctions.checkExpiredPresales_maps. }
  pose proof (active_after_check db _ i p Ep) as Hlive.
  set (left_ms := Z.max 0 (expires_at p - DetailRoute.clock_now env)).
  assert (Hms : (left_ms <=? 0) = (expires_at p <=? DetailRoute.clock_now env)).
  { unfold left_ms.
    destruct (expires_at p <=? DetailRoute.clock_now env) eqn:E.
    - apply Z.leb_le in E. apply Z.leb_le. lia.
    - apply Z.leb_gt in E. apply Z.leb_gt. lia. }
  rewrite Hms.
  repeat apply conj.
  - destruct (status p); cbn [status_eqb andb negb]; try discriminate.
    destruct (expires_at p <=? DetailRoute.clock_now env) eqn:E;
      cbn [negb andb]; [discriminate|].
    apply Z.leb_gt in E. intros Hc. repeat split; [exact E|].
    apply Z.ltb_lt in Hc. now apply Z.leb_gt.
  - destruct (status p); cbn [status_eqb andb orb]; try discriminate;
      intros _.
    + left. now destruct (_ <=? _).
    + now right.
  - destruct (status p); cbn [status_eqb andb orb negb];
      try reflexivity.
    now destruct (negb _), (_ <? _).
  - intros [Hs Hr]. exists p. split; [reflexivity|].
    destruct (status p) eqn:Es; cbn [status_eqb andb orb] in *;
      try discriminate.
    destruct (expires_at p <=? DetailRoute.clock_now env) eqn:E;
      [|discriminate].
    apply Z.leb_le in E. split; [reflexivity|]. split; [|exact E].
    now apply Hlive.
  - intros (p' & Ep' & Es & Hlo & Hhi). injection Ep' as <-.
    rewrite Es. cbn [status_eqb andb orb].
    replace (expires_at p <=? DetailRoute.clock_now env) with true
      by (symmetry; now apply Z.leb_le).
    now split.
  - apply Z.div_pos; lia.
  - rewrite Hparts, map_map. reflexivity.
Qed.

(** X26: the finalize handler marks a presale launched exactly when the
    action is [finalize_launch], the id and the signature are given, the
    presale exists and is not launched, and the confirmation of the
    transaction does not report a failure; a confirmation that throws is
    passed over.  Neither the status of the presale, nor its participants,
    nor the sender are looked at.  The presale then carries the signature
    given and the time of the call and keeps its token id; in every other
    case nothing is written and nothing is handed to the feed. *)
Theorem finalize_outcome (env : ListRoute.FinalizeEnv)
    (db : PresaleDatabase) (body : ListRoute.FinalizeBody) :
  let out := ListRoute.POST env db body in
  let pid := ListRoute.body_presale_id body in
  ((exists presale,
       ListRoute.body_action body = "finalize_launch"
       /\ pid <> "" /\ ListRoute.body_signature body <> ""
       /\ getPresaleById db pid = Some presale
       /\ status presale <> launched
       /\ ListRoute.confirmTransaction env <> inr true)
   <-> exists p mint s, fst (fst out) = ListRoute.Finalized p mint s)
  /\ match fst (fst out) with
     | ListRoute.Error _ _ => snd (fst out) = db /\ snd out = []
     | ListRoute.Finalized p mint s =>
         s = ListRoute.body_signature body
         /\ exists presale,
              getPresaleById db pid = Some presale
              /\ p = id presale /\ mint = token_mint presale
              /\ getPresaleById (snd (fst out)) pid
                 = Some (object_assign
                           {| patch_token_mint := None;
                              patch_meteora_config_key := None;
                              patch_launch_signature := Some s;
                              patch_launched_at :=
                                Some (ListRoute.finalize_clock env) |}
                           (set_status launched presale))
              /\ map ListRoute.feed_launch_signature (snd out) = [s]
     end.
Proof.
  cbv zeta. unfold ListRoute.POST.
  destruct (String.eqb (ListRoute.body_action body) "finalize_launch")
    eqn:Ea; cbn [negb].
  2: { apply String.eqb_neq in Ea. split; [|now split]. split.
       - now intros (presale & E & _).
       - intros (p & mint & s & E). discriminate. }
  apply String.eqb_eq in Ea.
  destruct (String.eqb (ListRoute.body_presale_id body) "") eqn:Ei.
  { apply String.eqb_eq in Ei. split; [|now split]. split.
    - now intros (presale & _ & E & _).
    - intros (p & mint & s & E). discriminate. }
  apply String.eqb_neq in Ei.
  destruct (String.eqb (ListRoute.body_signature body) "") eqn:Es.
  { apply String.eqb_eq in Es. split; [|now split]. split.
    - now intros (presale & _ & _ & E & _).
    - intros (p & mint & s & E). discriminate. }
  apply String.eqb_neq in Es. cbn [orb].
  destruct (getPresaleById db (ListRoute.body_presale_id body))
    as [presale|] eqn:Ep.
  2: { split; [|now split]. split.
       - intros (presale & _ & _ & _ & E & _). discriminate.
       - intros (p & mint & s & E). discriminate. }
  destruct (status_eqb (status presale) launched) eqn:El.
  { split; [|now split]. split.
    - intros (presale' & _ & _ & _ & E & Hn & _). injection E as <-.
      now destruct (status presale).
    - intros (p & mint & s & E). discriminate. }
  assert (Hl : status presale <> launched)
    by (intros E; rewrite E in El; discriminate).
  destruct (ListRoute.confirmTransaction env) as [m|[|]] eqn:Ec.
  - cbn [fst snd]. split.
    + split; [intros _; now eexists _, _, _|].
      intros _. exists presale. repeat split; try assumption. discriminate.
    + split; [reflexivity|]. exists presale.
      repeat split.
      apply (LaunchProps.getPresaleById_updatePresaleStatus _ _ _ _ _ Ep).
  - cbn [fst snd]. split; [|now split]. split.
    + intros (presale' & _ & _ & _ & _ & _ & Hn). now contradiction Hn.
    + intros (p & mint & s & E). discriminate.
  - cbn [fst snd]. split.
    + split; [intros _; now eexists _, _, _|].
      intros _. exists presale. repeat split; try assumption. discriminate.
    + split; [reflexivity|]. exists presale.
      repeat split.
      apply (LaunchProps.getPresaleById_updatePresaleStatus _ _ _ _ _ Ep).
Qed.

End WithNumber.

Import Scenarios RouteScenarios.

(** The request that created a presale at 1000 is sent again at 2000. *)
Lemma create_route_fee_reused_witness :
  exists p' db2,
    CreateRoute.POST (create_env 2000 "WXYZ")
      (snd (CreateRoute.POST (create_env 1000 "ABCD") emptyDb create_body))
      create_body
    = (CreateRoute.Created p' 3 2, db2)
    /\ presales db2
       = p' :: presales (snd (CreateRoute.POST (create_env 1000 "ABCD")
                                               emptyDb create_body))
    /\ launch_fee_signature p' = Some "FEE1"
    /\ creator_wallet p' = "CREATOR".
Proof.
  assert (E : exists p db1,
             CreateRoute.POST (create_env 1000 "ABCD") emptyDb create_body
             = (CreateRoute.Created p 3 2, db1)
             /\ launch_fee_signature p = Some "FEE1"
             /\ creator_wallet p = "CREATOR").
  { vm_compute. eexists _, _. repeat split. }
  destruct E as (p & db1 & E & Hf & Hc).
  rewrite <- Hf, <- Hc, E. cbn [snd].
  exact (create_route_fee_reused
           (create_env 1000 "ABCD") (create_env 2000 "WXYZ") emptyDb db1 db1
           create_body p 3 2 E eq_refl).
Defined.

End RouteOutcome.

(* ================================================================== *)
(** ** What the routes keep, served one request at a time *)

Module ServedStores.
Import PresaleDb PresaleQueries Store StoreSpec StoreProps StoreSound.

Section WithNumber.
Context {num : Type} `{Number num}.

#[local] Abbreviation Presale := (Presale num).
#[local] Abbreviation PresaleParticipant := (PresaleParticipant num).
#[local] Abbreviation PresaleDatabase := (PresaleDatabase num).

Lemma Forall_update_first {A : Type} (P : A -> Prop) (f : A -> bool)
    (g : A -> A) (l : list A) :
  Forall P l -> (forall x, In x l -> f x = true -> P (g x)) ->
  Forall P (update_first f g l).
Proof.
  induction l as [|x r IH]; cbn; intros F Hg; [constructor|].
  inversion F as [|? ? Hx Hr]; subst.
  destruct (f x) eqn:E.
  - constructor; [apply Hg; auto | exact Hr].
  - constructor; [exact Hx|]. apply IH; [exact Hr|].
    intros y Hy. apply Hg. now right.
Qed.

Lemma map_update_first {A B : Type} (h : A -> B) (f : A -> bool)
    (g : A -> A) (l : list A) :
  (forall x, f x = true -> h (g x) = h x) ->
  map h (update_first f g l) = map h l.
Proof.
  intros Hg. induction l as [|x r IH]; cbn; [reflexivity|].
  destruct (f x) eqn:E; cbn; [now rewrite Hg | now rewrite IH].
Qed.

Lemma map_replace_found {A B : Type} (h : A -> B) (f : A -> bool)
    (x y : A) (l : list A) :
  find f l = Some x -> h y = h x ->
  map h (update_first f (fun _ => y) l) = map h l.
Proof.
  intros Hf Hy. induction l as [|z r IH]; cbn in *; [reflexivity|].
  destruct (f z) eqn:E; cbn.
  - injection Hf as ->. now rewrite Hy.
  - now rewrite IH.
Qed.

(** *** The cap *)

Lemma capped_perform (o : Operation num) (db : PresaleDatabase) :
  quiet o -> Forall LedgerSpec.capped (presales db) ->
  Forall LedgerSpec.capped (presales (perform o db)).
Proof.
  intros Hq Hcap.
  destruct o
    as [data now suffix|i s d|i signature|data now|pid w|pid w sig|pid w sig tax|pid|now];
    cbn [perform quiet] in *;
    try contradiction.
  - pose proof (StoreFunctions.createPresale_cases db data now suffix)
      as Hc. cbv zeta in Hc.
    destruct (createPresale db data now suffix) as [[m|p] db1];
      cbn [snd].
    + now destruct Hc as [-> _].
    + destruct Hc as (_ & Ht & _ & -> & _ & _ & _ & _ & Hn & _ & Htp & _).
      constructor; [|exact Hcap].
      unfold LedgerSpec.capped. rewrite Hn, Htp. lia.
  - apply (ParticipantCap.capped_counters (presales db)); [|exact Hcap].
    apply ParticipantCap.counters_updatePresaleStatus.
  - unfold updateLaunchFeePaid.
    destruct (find (has_id i) (presales db)); [|exact Hcap].
    cbn [snd presales with_presales].
    apply Forall_update_first; [exact Hcap|].
    intros x Hx _. rewrite Forall_forall in Hcap. exact (Hcap x Hx).
  - unfold markParticipantRefunded, settle.
    destruct (find (unresolved_of pid w) (participants db)) as [x|];
      [|exact Hcap].
    cbn [snd presales].
    destruct (find (has_id pid) (presales db)) as [p|] eqn:Ep;
      [|exact Hcap].
    destruct (confirmed x); [|exact Hcap].
    apply Forall_update_first; [exact Hcap|].
    intros y _ _. apply find_some in Ep as [Hin _].
    rewrite Forall_forall in Hcap. specialize (Hcap p Hin).
    unfold LedgerSpec.capped in *. cbn. lia.
  - unfold markParticipantWithdrawn, settle.
    destruct (find (unresolved_of pid w) (participants db)) as [x|];
      [|exact Hcap].
    cbn [snd presales].
    destruct (find (has_id pid) (presales db)) as [p|] eqn:Ep;
      [|exact Hcap].
    destruct (confirmed x); [|exact Hcap].
    apply Forall_update_first; [exact Hcap|].
    intros y _ _. apply find_some in Ep as [Hin _].
    rewrite Forall_forall in Hcap. specialize (Hcap p Hin).
    unfold LedgerSpec.capped in *. cbn. lia.
  - now rewrite LaunchProps.presales_calculateFeeShares.
  - apply (ParticipantCap.capped_counters (presales db)); [|exact Hcap].
    apply ParticipantCap.counters_checkExpiredPresales.
Qed.

Lemma capped_via (P : Operation num -> Prop) (db db' : PresaleDatabase) :
  (forall o, P o -> quiet o) -> via P db db' ->
  Forall LedgerSpec.capped (presales db) ->
  Forall LedgerSpec.capped (presales db').
Proof.
  intros HP (calls & Hc & ->). revert db.
  induction Hc as [|o r Ho _ IH]; intros db Hcap; [exact Hcap|].
  unfold run. cbn [fold_left]. apply IH. apply capped_perform; auto.
Qed.

Lemma served_capped (db : PresaleDatabase) :
  Api.served db -> Forall LedgerSpec.capped (presales db).
Proof.
  induction 1 as [|r db _ IH Hd]; [constructor|].
  destruct (RouteCalls.subject_some r) as (j & Hj).
  destruct (RouteCalls.via_serve_at r db j Hd Hj) as [_ Hv].
  destruct r
    as [env body|env q|env body| |env i|i w action|env i body|env i w
       |env i w|env i force|i];
    try (revert IH;
         apply (capped_via _ _ _ (fun o Ho => proj1 (proj2 Ho)) Hv)).
  cbn [Api.serve]. now apply ParticipantCap.POST_keeps_cap.
Qed.

(** *** The creator and the participants *)

Lemma creator_apart_iff (db : PresaleDatabase) :
  creator_apart db
  <-> forall i c w, In (i, c) (owners db) -> In (i, w) (holders db) ->
                    w <> c.
Proof.
  unfold creator_apart, owners, holders. split.
  - intros Hca i c w Hc Hw.
    apply in_map_iff in Hc as (p & Ep & Hp).
    apply in_map_iff in Hw as (x & Ex & Hx).
    injection Ep as <- <-. injection Ex as Ei <-.
    now apply (Hca p x).
  - intros Hca p x Hp Hx Ei. apply (Hca (id p)).
    + apply in_map_iff. now exists p.
    + apply in_map_iff. exists x. now rewrite Ei.
Qed.

Lemma creator_apart_parties (db db' : PresaleDatabase) :
  owners db' = owners db -> holders db' = holders db ->
  creator_apart db -> creator_apart db'.
Proof.
  intros Ho Hh. rewrite !creator_apart_iff, Ho, Hh. auto.
Qed.

Lemma in_place_parties (db db' : PresaleDatabase) :
  in_place db db' -> owners db' = owners db /\ holders db' = holders db.
Proof.
  intros (Hp & Hx & _). unfold owners, holders. split.
  - apply (Forall2_map_eq updated); [|exact Hp].
    intros p p' (Ht & _). apply terms_fields in Ht as (-> & -> & _).
    reflexivity.
  - apply (Forall2_map_eq touched); [|exact Hx].
    intros x x' Ht. apply touched_presale_id in Ht as [-> ->].
    reflexivity.
Qed.

(** What a quiet call does to the owners and the holders: nothing, but
    for the presale that [createPresale] puts in front. *)
Lemma parties_perform (o : Operation num) (db : PresaleDatabase) :
  drawn o -> quiet o ->
  holders (perform o db) = holders db
  /\ (owners (perform o db) = owners db
      \/ exists (p : Presale) suffix,
           owners (perform o db) = (id p, creator_wallet p) :: owners db
           /\ id p = generatePresaleId (lastPresaleNum db + 1) suffix
           /\ String.length suffix = 4%nat).
Proof.
  intros Hd Hq.
  destruct o
    as [data now suffix|i s d|i signature|data now|pid w|pid w sig|pid w sig tax|pid|now];
    cbn [perform quiet drawn] in *;
    try contradiction.
  - pose proof (StoreFunctions.createPresale_cases db data now suffix)
      as Hc. cbv zeta in Hc.
    destruct (createPresale db data now suffix) as [[m|p] db1];
      cbn [snd].
    + destruct Hc as [-> _]. now split; [|left].
    + destruct Hc as (_ & _ & _ & Hp & Hx & _ & Hid & _).
      unfold holders, owners. rewrite Hp, Hx. split; [reflexivity|].
      right. now exists p, suffix.
  - unfold holders, owners, updatePresaleStatus.
    destruct (find (has_id i) (presales db)) as [p|] eqn:Ep;
      [|now split; [|left]].
    cbn [snd presales participants with_presales].
    split; [reflexivity|]. left.
    now apply (map_replace_found _ _ p).
  - unfold holders, owners, updateLaunchFeePaid.
    destruct (find (has_id i) (presales db)) as [p|] eqn:Ep;
      [|now split; [|left]].
    cbn [snd presales participants with_presales].
    split; [reflexivity|]. left. now apply map_update_first.
  - destruct (in_place_parties db
                (snd (markParticipantRefunded db pid w sig)))
      as [Ho Hh]; [|now split; [|left]].
    apply in_place_settle. intros x Hx.
    now apply (touched_refunded _ pid w).
  - destruct (in_place_parties db
                (snd (markParticipantWithdrawn db pid w sig tax)))
      as [Ho Hh]; [|now split; [|left]].
    apply in_place_settle. intros x Hx.
    now apply (touched_withdrawn _ pid w).
  - split.
    + unfold holders, calculateFeeShares.
      destruct (find (has_id pid) (presales db)); [|reflexivity].
      destruct (filter (counted_in pid) (participants db));
        [reflexivity|].
      cbn [snd participants with_participants]. rewrite map_map.
      apply map_ext. intros x. now destruct (counted_in pid x).
    + left. unfold owners.
      now rewrite LaunchProps.presales_calculateFeeShares.
  - rewrite StoreFunctions.checkExpiredPresales_maps.
    unfold holders, owners. cbn [snd presales participants with_presales].
    split; [reflexivity|]. left. rewrite map_map. apply map_ext.
    intros p. unfold ExpirySpec.expire.
    now destruct (ExpirySpec.is_expired now p).
Qed.

Lemma creator_apart_perform (o : Operation num) (db : PresaleDatabase) :
  drawn o -> quiet o -> sound db ->
  creator_apart db -> creator_apart (perform o db).
Proof.
  intros Hd Hq Hs Hca.
  destruct (parties_perform o db Hd Hq)
    as [Hh [Ho | (p & suffix & Ho & Hid & Hl)]].
  - now apply (creator_apart_parties db).
  - rewrite creator_apart_iff in *. rewrite Ho, Hh.
    intros i c w [E | Hc] Hw; [|now apply (Hca i)].
    injection E as <- <-. exfalso.
    destruct (created_uncounted db p suffix Hs Hid Hl) as [_ Hun].
    unfold holders in Hw. apply in_map_iff in Hw as (x & Ex & Hx).
    injection Ex as Ei _. now apply (Hun x).
Qed.

(** Built, and the creators apart. *)
#[local] Abbreviation apart :=
  (fun db : PresaleDatabase => built db /\ creator_apart db).

Lemma apart_via (P : Operation num -> Prop) (db db' : PresaleDatabase) :
  (forall o, P o -> drawn o /\ quiet o) -> via P db db' ->
  apart db -> apart db'.
Proof.
  intros HP (calls & Hc & ->). revert db.
  induction Hc as [|o r Ho _ IH]; intros db [Hb Hca]; [now split|].
  unfold run. cbn [fold_left]. apply IH.
  destruct (HP o Ho) as [Hd Hq]. split.
  - now apply built_perform.
  - apply creator_apart_perform; auto. now apply built_sound.
Qed.

Lemma add_appends (db db2 : PresaleDatabase)
    (data : AddParticipantData num) (now : Z) (x : PresaleParticipant) :
  addParticipant db data now = (Some x, db2) ->
  presales db2 = presales db
  /\ participants db2 = participants db ++ [x]
  /\ presale_id x = add_presale_id data /\ wallet x = add_wallet data.
Proof.
  unfold addParticipant.
  destruct (find (has_id _) _); [|discriminate].
  destruct (find (unresolved_of _ _) _); [discriminate|].
  intros E. injection E as <- <-. now repeat split.
Qed.

Lemma add_nothing (db db2 : PresaleDatabase)
    (data : AddParticipantData num) (now : Z) :
  addParticipant db data now = (None, db2) -> db2 = db.
Proof.
  unfold addParticipant.
  destruct (find (has_id _) _); [|now intros E; injection E].
  destruct (find (unresolved_of _ _) _); [|discriminate].
  now intros E; injection E.
Qed.

Lemma apart_JoinRoute (env : JoinRoute.Env num) (db : PresaleDatabase)
    (i : string) (body : JoinRoute.JoinBody num) :
  apart db -> apart (snd (fst (JoinRoute.POST env db i body))).
Proof.
  intros Hdb. unfold JoinRoute.POST.
  assert (Hpre : apart (snd (JoinRoute.precheck env db i body))).
  { refine (apart_via _ _ _ _ (RouteCalls.via_precheck env db i body) Hdb).
    tauto. }
  destruct (JoinRoute.precheck env db i body) as [[r|] db1] eqn:Epre;
    cbn [snd] in Hpre; [exact Hpre|].
  destruct (JoinRoute.verify env body); [exact Hpre|].
  destruct (JoinOutcome.precheck_passed _ _ _ _ _ Epre)
    as (_ & presale & Hp & _ & _ & _ & Hcreator & _).
  unfold JoinRoute.commit.
  destruct (addParticipant db1 _ (JoinRoute.clock_add env))
    as [[x|] db2] eqn:Eadd.
  2: { apply add_nothing in Eadd. now subst. }
  destruct (add_appends _ _ _ _ _ Eadd) as (Hps & Hxs & Hxi & Hxw).
  cbn [add_presale_id add_wallet] in Hxi, Hxw.
  assert (H2 : apart db2).
  { destruct Hpre as [Hb Hca]. split.
    - replace db2 with (perform (AddParticipant
                                   {| add_presale_id := i;
                                      add_wallet := JoinRoute.body_wallet body;
                                      add_amount_sol :=
                                        JoinRoute.body_amount_sol body;
                                      add_tx_signature :=
                                        JoinRoute.body_tx_signature body |}
                                   (JoinRoute.clock_add env)) db1)
        by (cbn [perform]; now rewrite Eadd).
      now apply built_perform.
    - intros p y Hp' Hy Ey. rewrite Hps in Hp'. rewrite Hxs in Hy.
      apply in_app_or in Hy as [Hy | [<- | []]]; [now apply (Hca p y)|].
      rewrite Hxw. rewrite Hxi in Ey.
      assert (E : getPresaleById db1 (id p) = Some p).
      { apply BuiltStores.unique_lookup; [|exact Hp'].
        apply (built_sound db1 Hb). }
      rewrite <- Ey, Hp in E. injection E as <-. exact Hcreator. }
  assert (H3 : apart (snd (confirmParticipant db2 i
                             (JoinRoute.body_wallet body)))).
  { destruct H2 as [Hb Hca]. split.
    - now apply (built_perform (ConfirmParticipant i _)).
    - destruct (in_place_parties _ _
                  (in_place_confirmParticipant db2 i
                     (JoinRoute.body_wallet body))) as [Ho Hh].
      now apply (creator_apart_parties db2). }
  destruct (confirmParticipant db2 i (JoinRoute.body_wallet body))
    as [[[x' updatedPresale]|] db3]; cbn [snd] in H3; [|exact H3].
  destruct (_ && _); [|exact H3].
  assert (H4 := apart_via _ _ _ (fun o Ho => conj (proj1 Ho)
                                              (proj1 (proj2 Ho)))
                  (RouteCalls.via_launchPresaleToken
                     (JoinRoute.launch_env env) db3 i false) H3).
  destruct (LaunchPresale.launchPresaleToken (JoinRoute.launch_env env)
                                             db3 i false)
    as [[r db4] trace]. exact H4.
Qed.

Lemma served_apart (db : PresaleDatabase) : Api.served db -> apart db.
Proof.
  induction 1 as [|r db _ IH Hd].
  { split; [apply built_empty|]. intros p x []. }
  destruct (RouteCalls.subject_some r) as (j & Hj).
  destruct (RouteCalls.via_serve_at r db j Hd Hj) as [_ Hv].
  destruct r
    as [env body|env q|env body| |env i|i w action|env i body|env i w
       |env i w|env i force|i];
    try (revert IH;
         apply (apart_via _ _ _ (fun o Ho => conj (proj1 Ho)
                                               (proj1 (proj2 Ho))) Hv)).
  cbn [Api.serve]. now apply apart_JoinRoute.
Qed.

Lemma wallets_add_to_last (extra : num) (l : list (FeeShare num)) :
  map fs_wallet (add_to_last extra l) = map fs_wallet l.
Proof.
  induction l as [|x [|y r] IH]; [reflexivity | reflexivity|].
  change (add_to_last extra (x :: y :: r))
    with (x :: add_to_last extra (y :: r)).
  cbn [map] in *. now rewrite IH.
Qed.

(** The wallets of the split: the creator, then the counted participants
    in store order. *)
Lemma claimers (db : PresaleDatabase) (i : string) :
  map fs_wallet (fst (calculateFeeShares db i))
  = match getPresaleById db i, getPresaleParticipants db i with
    | Some p, (_ :: _) as parts => creator_wallet p :: map wallet parts
    | _, _ => []
    end.
Proof.
  unfold calculateFeeShares, getPresaleById, getPresaleParticipants.
  destruct (find (has_id i) (presales db)) as [p|]; [|reflexivity].
  destruct (filter (counted_in i) (participants db)) as [|x r];
    [reflexivity|].
  cbv zeta. cbn [fst].
  destruct (_ && _); [rewrite wallets_add_to_last|];
    cbn [map fs_wallet]; now rewrite !map_map.
Qed.

(** X27: in every store that the routes reach, served one request at a
    time, the participant count of every presale is between 0 and its
    target. *)
Theorem served_within_target (db : PresaleDatabase) :
  Api.served db ->
  forall p, In p (presales db) ->
            0 <= participant_count p <= target_participants p.
Proof.
  intros Hs p Hp.
  pose proof (served_capped db Hs) as Hcap.
  rewrite Forall_forall in Hcap. split; [|exact (Hcap p Hp)].
  destruct (built_sound db (RouteCalls.built_served db Hs))
    as (_ & _ & _ & _ & Hcount & _).
  rewrite Forall_forall in Hcount. rewrite (Hcount p Hp). lia.
Qed.

(** X28: in every store that the routes reach, served one request at a
    time, the creator of a presale holds no participant record in it, and
    the wallets of the fee split that [calculateFeeShares] returns are
    pairwise distinct. *)
Theorem served_claimers_distinct (db : PresaleDatabase) :
  Api.served db ->
  creator_apart db
  /\ forall i, NoDup (map fs_wallet (fst (calculateFeeShares db i))).
Proof.
  intros Hs. destruct (served_apart db Hs) as [Hb Hca].
  split; [exact Hca|]. intros i. rewrite claimers.
  destruct (getPresaleById db i) as [p|] eqn:Ep; [|constructor].
  destruct (getPresaleParticipants db i) as [|x r] eqn:Ex; [constructor|].
  rewrite <- Ex. constructor.
  - intros Hin. apply in_map_iff in Hin as (y & Ey & Hy).
    unfold getPresaleParticipants in Hy.
    apply filter_In in Hy as [Hy Hc].
    unfold getPresaleById in Ep.
    pose proof (LaunchProps.find_has_id _ _ _ Ep) as Ei.
    apply find_some in Ep as [Hp _].
    apply (Hca p y Hp Hy); [|exact Ey].
    unfold counted_in in Hc.
    apply andb_prop in Hc as [Hc _]. apply andb_prop in Hc as [Hc _].
    apply andb_prop in Hc as [Hc _]. apply String.eqb_eq in Hc.
    now rewrite Hc, Ei.
  - apply BuiltStores.counted_wallets_distinct.
    destruct (built_sound db Hb) as (_ & _ & _ & _ & _ & Hone & _).
    exact (Hone i).
Qed.

(** X29: the routes write to the store through the exported functions
    only: every store they reach is one that calls of these functions
    build, so that what holds of every built store holds of it. *)
Theorem served_is_built (db : PresaleDatabase) :
  Api.served db -> built db.
Proof. exact (RouteCalls.built_served db). Qed.

End WithNumber.

Import Scenarios RouteScenarios.

Lemma served_two_served : Api.served served_two.
Proof.
  apply Api.served_request; [|exact I].
  apply Api.served_request; [apply Api.served_empty | reflexivity].
Qed.

Lemma served_within_target_witness :
  Forall (fun p => 0 <= participant_count p <= target_participants p)
         (presales served_two).
Proof.
  apply Forall_forall.
  exact (served_within_target served_two served_two_served).
Defined.

Lemma served_claimers_distinct_witness :
  creator_apart served_two
  /\ forall i, NoDup (map fs_wallet (fst (calculateFeeShares served_two i))).
Proof.
  exact (served_claimers_distinct served_two served_two_served).
Defined.

Lemma served_is_built_witness : built served_two.
Proof. exact (served_is_built served_two served_two_served). Defined.

End ServedStores.

(* ================================================================== *)
(** ** A launched presale is final *)

Module LaunchedFinal.
Import PresaleDb PresaleQueries Store StoreSpec StoreProps StoreSound.

Section WithNumber.
Context {num : Type} `{Number num}.

#[local] Abbreviation Presale := (Presale num).
#[local] Abbreviation PresaleParticipant := (PresaleParticipant num).
#[local] Abbreviation PresaleDatabase := (PresaleDatabase num).

Lemma find_update_other {A : Type} (h f : A -> bool) (g : A -> A)
    (l : list A) :
  (forall x, f x = true -> h x = false /\ h (g x) = false) ->
  find h (update_first f g l) = find h l.
Proof.
  intros Hf. induction l as [|x r IH]; cbn; [reflexivity|].
  destruct (f x) eqn:E; cbn.
  - destruct (Hf x E) as [-> ->]. reflexivity.
  - now rewrite IH.
Qed.

Lemma filter_update_other {A : Type} (h f : A -> bool) (g : A -> A)
    (l : list A) :
  (forall x, f x = true -> h x = false /\ h (g x) = false) ->
  filter h (update_first f g l) = filter h l.
Proof.
  intros Hf. induction l as [|x r IH]; cbn; [reflexivity|].
  destruct (f x) eqn:E; cbn.
  - destruct (Hf x E) as [-> ->]. reflexivity.
  - now rewrite IH.
Qed.

Lemma filter_map_other {A : Type} (h : A -> bool) (g : A -> A)
    (l : list A) :
  (forall x, h (g x) = h x) -> (forall x, h x = true -> g x = x) ->
  filter h (map g l) = filter h l.
Proof.
  intros H1 H2. induction l as [|x r IH]; cbn; [reflexivity|].
  rewrite H1. destruct (h x) eqn:E; [|exact IH].
  now rewrite IH, (H2 x E).
Qed.

Lemma has_id_other (i j : string) (p : Presale) :
  j <> i -> id p = j -> has_id i p = false.
Proof.
  intros Hj <-. unfold has_id. now apply String.eqb_neq.
Qed.

(** The presale [i] and its records, seen after a change. *)
#[local] Abbreviation kept :=
  (fun (i : string) (p : Presale) (db db' : PresaleDatabase) =>
     getPresaleById db' i = Some p /\ records_of db' i = records_of db i).

Lemma kept_presales_replaced (db : PresaleDatabase) (i j : string)
    (p p0 q : Presale) :
  j <> i -> find (has_id j) (presales db) = Some p0 -> id q = j ->
  getPresaleById db i = Some p ->
  find (has_id i) (update_first (has_id j) (fun _ => q) (presales db))
  = Some p.
Proof.
  intros Hj Hp0 Hq Hp. rewrite find_update_other; [exact Hp|].
  intros x Hx. split.
  - apply (has_id_other i j); [exact Hj|].
    unfold has_id in Hx. now apply String.eqb_eq in Hx.
  - now apply (has_id_other i j).
Qed.

Lemma kept_settle (mark : PresaleParticipant -> PresaleParticipant)
    (db : PresaleDatabase) (i j w : string) (p : Presale) :
  (forall y, presale_id (mark y) = presale_id y) ->
  j <> i -> getPresaleById db i = Some p ->
  kept i p db (snd (settle mark db j w)).
Proof.
  intros Hmark Hj Hp. unfold settle.
  destruct (find (unresolved_of j w) (participants db)) as [x|] eqn:Ex;
    [|now split].
  unfold getPresaleById, records_of. cbn [snd presales participants].
  split.
  - destruct (find (has_id j) (presales db)) as [p0|] eqn:Ep0;
      [|exact Hp].
    destruct (confirmed x); [|exact Hp].
    apply (kept_presales_replaced db i j p p0); auto.
    now apply LaunchProps.find_has_id in Ep0.
  - apply filter_update_other. intros y Hy.
    apply RefundOutcome.unresolved_flags in Hy as (Hy & _).
    rewrite Hmark, Hy. split; now apply String.eqb_neq.
Qed.

(** A call made for another presale, or for none, leaves a launched
    presale and its records as they are. *)
Lemma kept_perform (o : Operation num) (db : PresaleDatabase) (i : string)
    (p : Presale) :
  drawn o -> target o <> Some i -> sound db ->
  getPresaleById db i = Some p -> status p = launched ->
  kept i p db (perform o db).
Proof.
  intros Hd Ht Hs Hp Hl.
  destruct o
    as [data now suffix|j s d|j signature|data now|j w|j w sig
       |j w sig tax|j|now];
    cbn [perform target drawn] in *;
    try (assert (Hj : j <> i) by (intros ->; now apply Ht)).
  - pose proof (StoreFunctions.createPresale_cases db data now suffix)
      as Hc. cbv zeta in Hc.
    destruct (createPresale db data now suffix) as [[m|q] db1];
      cbn [snd].
    + destruct Hc as [-> _]. now split.
    + destruct Hc as (_ & _ & _ & Hps & Hxs & _ & Hid & _).
      unfold getPresaleById, records_of. rewrite Hps, Hxs.
      split; [|reflexivity]. cbn [find].
      destruct (created_uncounted db q suffix Hs Hid Hd) as [Hfresh _].
      replace (has_id i q) with false; [exact Hp|].
      symmetry. unfold has_id. apply String.eqb_neq. intros E.
      apply Hfresh. rewrite E.
      pose proof (LaunchProps.find_has_id _ _ _ Hp) as Ei.
      apply find_some in Hp as [Hin _].
      rewrite <- Ei. now apply in_map.
  - unfold updatePresaleStatus.
    destruct (find (has_id j) (presales db)) as [p0|] eqn:Ep0;
      [|now split].
    unfold getPresaleById, records_of.
    cbn [snd presales participants with_presales].
    split; [|reflexivity].
    apply (kept_presales_replaced db i j p p0); auto.
    now apply LaunchProps.find_has_id in Ep0.
  - unfold updateLaunchFeePaid.
    destruct (find (has_id j) (presales db)) as [p0|] eqn:Ep0;
      [|now split].
    unfold getPresaleById, records_of.
    cbn [snd presales participants with_presales].
    split; [|reflexivity].
    rewrite find_update_other; [exact Hp|].
    intros x Hx. unfold has_id in Hx. apply String.eqb_eq in Hx.
    split; now apply (has_id_other i j).
  - assert (Hj : add_presale_id data <> i)
      by (intros E; apply Ht; now rewrite E).
    destruct (addParticipant db data now) as [[x|] db2] eqn:Eadd;
      cbn [snd].
    + destruct (ServedStores.add_appends _ _ _ _ _ Eadd)
        as (Hps & Hxs & Hxi & _).
      unfold getPresaleById, records_of. rewrite Hps, Hxs.
      split; [exact Hp|]. rewrite filter_app. cbn [filter].
      rewrite Hxi.
      replace (String.eqb (add_presale_id data) i) with false
        by (symmetry; now apply String.eqb_neq).
      apply app_nil_r.
    + apply ServedStores.add_nothing in Eadd. subst. now split.
  - unfold confirmParticipant.
    destruct (find (pending_of j w) (participants db)) as [x|] eqn:Ex;
      [|now split].
    destruct (find (has_id j) (presales db)) as [p0|] eqn:Ep0;
      [|now split].
    unfold getPresaleById, records_of. cbn [snd presales participants].
    split.
    + apply (kept_presales_replaced db i j p p0); auto.
      now apply LaunchProps.find_has_id in Ep0.
    + apply filter_update_other. intros y Hy.
      apply find_some in Ex as [_ Ex].
      apply JoinOutcome.pending_unresolved,
        RefundOutcome.unresolved_flags in Hy as (Hy & _).
      apply JoinOutcome.pending_unresolved,
        RefundOutcome.unresolved_flags in Ex as (Ex & _).
      cbn. rewrite Hy, Ex. split; now apply String.eqb_neq.
  - now apply kept_settle.
  - now apply kept_settle.
  - split.
    + unfold getPresaleById.
      now rewrite LaunchProps.presales_calculateFeeShares.
    + unfold records_of, calculateFeeShares.
      destruct (find (has_id j) (presales db)); [|reflexivity].
      destruct (filter (counted_in j) (participants db));
        [reflexivity|].
      cbn [snd participants with_participants].
      apply filter_map_other.
      * intros x. now destruct (counted_in j x).
      * intros x Hx. destruct (counted_in j x) eqn:Ec; [|reflexivity].
        exfalso. unfold counted_in in Ec.
        apply andb_prop in Ec as [Ec _]. apply andb_prop in Ec as [Ec _].
        apply andb_prop in Ec as [Ec _].
        apply String.eqb_eq in Ec, Hx. congruence.
  - rewrite StoreFunctions.checkExpiredPresales_maps.
    unfold getPresaleById, records_of.
    cbn [snd presales participants with_presales].
    split; [|reflexivity].
    rewrite ExpiryProps.find_has_id_map by apply ExpiryProps.id_expire.
    unfold getPresaleById in Hp. rewrite Hp. cbn [option_map].
    unfold ExpirySpec.expire, ExpirySpec.is_expired. now rewrite Hl.
Qed.

Lemma kept_via (P : Operation num -> Prop) (db db' : PresaleDatabase)
    (i : string) (p : Presale) :
  (forall o, P o -> drawn o /\ target o <> Some i) -> via P db db' ->
  built db -> getPresaleById db i = Some p -> status p = launched ->
  kept i p db db'.
Proof.
  intros HP (calls & Hc & ->). revert db.
  induction Hc as [|o r Ho _ IH]; intros db Hb Hp Hl; [now split|].
  unfold run. cbn [fold_left]. destruct (HP o Ho) as [Hd Ht].
  destruct (kept_perform o db i p Hd Ht (built_sound db Hb) Hp Hl)
    as [Hp1 Hr1].
  destruct (IH (perform o db) (built_perform o db Hb Hd) Hp1 Hl)
    as [Hp2 Hr2].
  split; [exact Hp2 | now rewrite <- Hr1].
Qed.

Lemma aimed_elsewhere (i j : string) (o : Operation num) :
  j <> i -> aimed j o -> target o <> Some i.
Proof.
  unfold aimed. destruct (target o); [|discriminate].
  intros Hj -> E. injection E as ->. now apply Hj.
Qed.

Lemma other_string (i : string) : exists j : string, j <> i.
Proof.
  destruct i as [|a i]; [now exists "x" | now exists ""].
Qed.

(** The routes turn away a request made for a launched presale before
    they write. *)
Lemma join_launched (env : JoinRoute.Env num) (db : PresaleDatabase)
    (i : string) (body : JoinRoute.JoinBody num) (p : Presale) :
  getPresaleById db i = Some p -> status p = launched ->
  snd (fst (JoinRoute.POST env db i body)) = db
  \/ snd (fst (JoinRoute.POST env db i body))
     = snd (checkExpiredPresales db (JoinRoute.clock_expiry env)).
Proof.
  intros Hp Hl. unfold JoinRoute.POST, JoinRoute.precheck.
  destruct (_ || _); [now left|]. right.
  assert (Hp' : getPresaleById
                  (snd (checkExpiredPresales db (JoinRoute.clock_expiry env)))
                  i = Some p).
  { rewrite StoreFunctions.checkExpiredPresales_maps.
    unfold getPresaleById in *. cbn [snd presales with_presales].
    rewrite ExpiryProps.find_has_id_map by apply ExpiryProps.id_expire.
    rewrite Hp. cbn [option_map].
    unfold ExpirySpec.expire, ExpirySpec.is_expired. now rewrite Hl. }
  rewrite Hp', Hl. reflexivity.
Qed.

Lemma refund_launched (env : RefundRoute.Env num) (db : PresaleDatabase)
    (i wallet : string) (p : Presale) :
  getPresaleById db i = Some p -> status p = launched ->
  snd (fst (RefundRoute.POST env db i wallet)) = db.
Proof.
  intros Hp Hl. unfold RefundRoute.POST.
  destruct (String.eqb wallet ""); [reflexivity|].
  rewrite Hp. cbv zeta. rewrite Hl. reflexivity.
Qed.

Lemma finalize_launched (env : ListRoute.FinalizeEnv)
    (db : PresaleDatabase) (body : ListRoute.FinalizeBody) (p : Presale) :
  getPresaleById db (ListRoute.body_presale_id body) = Some p ->
  status p = launched ->
  snd (fst (ListRoute.POST env db body)) = db.
Proof.
  intros Hp Hl. unfold ListRoute.POST.
  destruct (negb _); [reflexivity|].
  destruct (_ || _); [reflexivity|].
  rewrite Hp, Hl. reflexivity.
Qed.

Lemma kept_serve (r : Api.Request num) (db : PresaleDatabase) (i : string)
    (p : Presale) :
  Api.drawn r -> built db ->
  getPresaleById db i = Some p -> status p = launched ->
  kept i p db (Api.serve r db).
Proof.
  intros Hd Hb Hp Hl.
  assert (Hexp : forall now,
             kept i p db (snd (checkExpiredPresales db now))).
  { intros now.
    apply (kept_perform (CheckExpiredPresales now) db i p); auto;
      [exact I | discriminate | now apply built_sound]. }
  assert (Hother : forall j,
             j <> i ->
             Api.subject r = None \/ Api.subject r = Some j ->
             kept i p db (Api.serve r db)).
  { intros j Hj Hsub.
    destruct (RouteCalls.via_serve_at r db j Hd Hsub) as [Hv _].
    apply (kept_via _ _ _ i p) in Hv; auto.
    intros o [Ho Ha]. split; [exact Ho|].
    now apply (aimed_elsewhere i j). }
  destruct (Api.subject r) as [j|] eqn:Esub.
  2: { destruct (other_string i) as (j & Hj). apply (Hother j Hj).
       now left. }
  destruct (String.eqb j i) eqn:Eji.
  2: { apply String.eqb_neq in Eji. apply (Hother j Eji). now right. }
  apply String.eqb_eq in Eji. subst j. clear Hother.
  destruct r as [env body|env q|env body| |env k|k w action|env k body
                |env k w|env k w|env k force|k];
    cbn [Api.subject] in Esub; try discriminate;
    injection Esub as Ek; cbn [Api.serve]; try (now split).
  - rewrite (finalize_launched env db body p); [now split| |exact Hl].
    now rewrite Ek.
  - subst k. unfold DetailRoute.GET. cbv zeta.
    destruct (getPresaleById
                (snd (checkExpiredPresales db (DetailRoute.clock_expiry env)))
                i);
      cbn [snd]; apply Hexp.
  - subst k. destruct (join_launched env db i body p Hp Hl) as [-> | ->];
      [now split | apply Hexp].
  - subst k. rewrite (refund_launched env db i w p Hp Hl). now split.
  - subst k. unfold LaunchRoute.POST.
    pose proof (LaunchGuards.launched_store_kept env db i force p Hp Hl)
      as E.
    destruct (LaunchPresale.launchPresaleToken env db i force)
      as [[res db1] trace]. cbn [fst snd] in *. subst. now split.
Qed.

(** X30: once a presale is launched, no request changes it: whatever
    requests are served after, one at a time, the presale stored under
    its id is the same record, with the same status, token id, signature
    and totals, and its participant records are the same. *)
Theorem launched_is_final (requests : list (Api.Request num))
    (db : PresaleDatabase) (i : string) (p : Presale) :
  built db -> Forall Api.drawn requests ->
  getPresaleById db i = Some p -> status p = launched ->
  getPresaleById (Api.serve_all requests db) i = Some p
  /\ records_of (Api.serve_all requests db) i = records_of db i.
Proof.
  intros Hb Hd. revert db Hb.
  induction Hd as [|r rs Hr _ IH]; intros db Hb Hp Hl; [now split|].
  unfold Api.serve_all. cbn [fold_left].
  destruct (kept_serve r db i p Hr Hb Hp Hl) as [Hp1 Hr1].
  assert (Hb1 : built (Api.serve r db)).
  { apply (RouteCalls.built_via db); [exact Hb|].
    now apply RouteCalls.via_serve. }
  destruct (IH (Api.serve r db) Hb1 Hp1 Hl) as [Hp2 Hr2].
  split; [exact Hp2 | now rewrite <- Hr1].
Qed.

End WithNumber.

Import Scenarios RouteScenarios.

Lemma built_db_launched : built db_launched.
Proof.
  apply (RouteCalls.built_via db_full).
  - apply BuiltStores.built_joined, BuiltStores.built_created.
  - apply (RouteCalls.via_weaken
             (fun o => drawn o /\ quiet o /\ aimed PS1 o));
      [tauto|].
    apply RouteCalls.via_launchPresaleToken.
Qed.

(** After the launch of [db_full], four more requests are made for it. *)
Lemma launched_is_final_witness :
  exists p,
    getPresaleById db_launched PS1 = Some p
    /\ status p = launched
    /\ getPresaleById (Api.serve_all after_launch db_launched) PS1 = Some p
    /\ records_of (Api.serve_all after_launch db_launched) PS1
       = records_of db_launched PS1.
Proof.
  eexists.
  refine ((fun H1 H2 =>
             conj H1 (conj H2
               (launched_is_final after_launch db_launched PS1 _
                  built_db_launched _ H1 H2))) _ _).
  - repeat constructor.
  - vm_compute. reflexivity.
  - reflexivity.
Defined.

End LaunchedFinal.
